(** * DLev Preset Companion: the mapping engine, the analyzer and the dispatcher

    A shallow embedding of [dlev_preset_companion.py].

    Python's [float] is IEEE binary64.  The numeric code is written once,
    over an interface [PyNum] of the operations the source applies to floats,
    and read at two instances:

    - [float_num]: Rocq's primitive binary64 floats, the arithmetic the
      program runs on; every definition evaluates there.  The statements
      about the mapping and the tilt are proved on this instance for every
      float of the unit interval, from the specification of the operations
      ([SpecFloat], [FloatAxioms]);
    - [real_num]: the real numbers, the exact reading of the same
      expressions: for time, whose readings 10 ms apart are not binary64
      numbers, for numpy's window and transform, and as a second reading of
      the statements about the mapping.

    Statements that do not depend on the arithmetic are proved for every
    instance.

    Exceptions are values of [result]; the global [_last_update_time], the
    clock and the commands handed to [subprocess.run] are threaded through a
    state, the clock readings and the outcomes of the commands being given
    by a [World].

    numpy's [hanning], [fft.rfft] and [abs] are given their mathematical
    definitions, over a number type that has [cos], [sin] and [sqrt]: the
    reals.  [np.sum] adds from left to right; numpy's pairwise order gives
    the same sum over the reals and on a list of zeros.

    Strings are ASCII strings.  [print] only writes to the console; the
    console is not part of the state.

    The window is the record of the attributes and Tk variables of the
    application object, its methods functions on that record and the state
    of the dispatcher.  What the user does is a list of events; a widget
    stores its new value in its variable before it calls its command, and
    Tk reports an exception of a callback and goes on with the next event.
    The text of an entry field is a string of code points below 256. *)

From Stdlib Require Import ZArith List String Ascii Bool Lia.
From Stdlib Require Import DecimalString DecimalPos.
From Stdlib Require Import Floats.
From Stdlib Require Import Reals Lra Zfloor.
Import ListNotations.

Set Warnings "-inexact-float".

(** ** Exceptions *)

Inductive exc : Type :=
| ValueError
| ZeroDivisionError
| OverflowError.

Inductive result (A : Type) : Type :=
| Ok (a : A)
| Raise (e : exc).

Arguments Ok {A} a.
Arguments Raise {A} e.

Definition rbind {A B : Type} (r : result A) (k : A -> result B) : result B :=
  match r with
  | Ok a => k a
  | Raise e => Raise e
  end.

Declare Scope py_scope.
Delimit Scope py_scope with py.

Notation "x <- r ;; k" := (rbind r (fun x => k))
  (at level 61, r at next level, right associativity) : py_scope.

(** ** The arithmetic of Python floats *)

Class PyNum (num : Type) : Type := {
  fadd : num -> num -> num;
  fsub : num -> num -> num;
  fmul : num -> num -> num;
  fdiv : num -> num -> num;          (* IEEE division, as numpy applies it *)
  flt : num -> num -> bool;          (* a < b *)
  fle : num -> num -> bool;          (* a <= b *)
  feqb : num -> num -> bool;         (* a == b *)
  of_int : Z -> num;                 (* float(n), also the implicit int -> float promotion *)
  py_round : num -> result Z;        (* int(round(v)): nearest integer, ties to even *)
  f32 : num -> num                   (* rounding to single precision, np.float32 *)
}.

Notation "a + b" := (fadd a b) : py_scope.
Notation "a - b" := (fsub a b) : py_scope.
Notation "a * b" := (fmul a b) : py_scope.

(** A decimal literal [n / 10^k], such as [0.5 = lit 5 1]: one correctly
    rounded division of two exactly represented integers. *)
Definition lit {num} `{PyNum num} (n : Z) (k : nat) : num :=
  fdiv (of_int n) (of_int (10 ^ Z.of_nat k)).

(** Python's [a / b] on floats raises on a zero divisor. *)
Definition py_div {num} `{PyNum num} (a b : num) : result num :=
  if feqb b (of_int 0) then Raise ZeroDivisionError else Ok (fdiv a b).

(** *** binary64 *)

Definition float_of_Z (z : Z) : float :=
  SF2Prim (binary_normalize prec emax z 0 false).

(** [m * 2^e] for [m >= 0], rounded to the nearest integer, ties to even. *)
Definition round_half_even (m e : Z) : Z :=
  if (0 <=? e)%Z then (m * 2 ^ e)%Z
  else
    let d := (2 ^ (- e))%Z in
    let q := (m / d)%Z in
    let r := (m mod d)%Z in
    match (2 * r ?= d)%Z with
    | Lt => q
    | Gt => (q + 1)%Z
    | Eq => if Z.even q then q else (q + 1)%Z
    end.

Definition float_round (v : float) : result Z :=
  match Prim2SF v with
  | S754_zero _ => Ok 0%Z
  | S754_finite s m e =>
      let n := round_half_even (Z.pos m) e in
      Ok (if s then (- n)%Z else n)
  | S754_infinity _ => Raise OverflowError
  | S754_nan => Raise ValueError
  end.

Definition float_f32 (v : float) : float :=
  match Prim2SF v with
  | S754_finite s m e =>
      SF2Prim (binary_normalize 24 128 (if s then Z.neg m else Z.pos m) e s)
  | _ => v
  end.

#[export] Instance float_num : PyNum float := {
  fadd := PrimFloat.add;
  fsub := PrimFloat.sub;
  fmul := PrimFloat.mul;
  fdiv := PrimFloat.div;
  flt := PrimFloat.ltb;
  fle := PrimFloat.leb;
  feqb := PrimFloat.eqb;
  of_int := float_of_Z;
  py_round := float_round;
  f32 := float_f32
}.

(** *** exact reals *)

Definition Rltb (a b : R) : bool := if Rlt_dec a b then true else false.
Definition Rleb (a b : R) : bool := if Rle_dec a b then true else false.
Definition Reqb (a b : R) : bool := if Req_dec_T a b then true else false.

Definition real_round (v : R) : Z :=
  let f := Zfloor v in
  let d := (v - IZR f)%R in
  if Rlt_dec d (1 / 2) then f
  else if Rlt_dec (1 / 2) d then (f + 1)%Z
  else if Z.even f then f else (f + 1)%Z.

#[export] Instance real_num : PyNum R := {
  fadd := Rplus;
  fsub := Rminus;
  fmul := Rmult;
  fdiv := Rdiv;
  flt := Rltb;
  fle := Rleb;
  feqb := Reqb;
  of_int := IZR;
  py_round := fun v => Ok (real_round v);
  f32 := fun v => v
}.

(** ** Ordering, [min], [max] and [clamp] *)

Class PyOrd (T : Type) : Type := { py_lt : T -> T -> bool }.

#[export] Instance ord_Z : PyOrd Z := { py_lt := Z.ltb }.
#[export] Instance ord_num {num} `{PyNum num} : PyOrd num := { py_lt := flt }.

(** [min(a, b)] keeps [a] unless [b < a]; [max(a, b)] keeps [a] unless
    [b > a]. *)
Definition py_min {T} `{PyOrd T} (a b : T) : T := if py_lt b a then b else a.
Definition py_max {T} `{PyOrd T} (a b : T) : T := if py_lt a b then b else a.

Definition clamp {T} `{PyOrd T} (x lo hi : T) : T :=
  py_max lo (py_min hi x).

(** ** Strings *)

Open Scope string_scope.

Definition lower_ascii (c : ascii) : ascii :=
  let n := nat_of_ascii c in
  if (65 <=? n)%nat && (n <=? 90)%nat then ascii_of_nat (n + 32) else c.

(** [str.lower()] on the ASCII letters. *)
Fixpoint lower (s : string) : string :=
  match s with
  | EmptyString => EmptyString
  | String c s' => String (lower_ascii c) (lower s')
  end.

(** [str(n)] for an [int]. *)
Definition str_int (n : Z) : string := NilZero.string_of_int (Z.to_int n).

(** ** Voice profiles and the formant mapping *)

(** The dictionary returned by [get_profile_params]. *)
Record FormantRanges (num : Type) : Type := {
  F1_min : num; F1_max : num;
  F2_min : num; F2_max : num;
  F3_min : num; F3_max : num;
  F4_min : num; F4_max : num
}.

Arguments F1_min {num} _.
Arguments F1_max {num} _.
Arguments F2_min {num} _.
Arguments F2_max {num} _.
Arguments F3_min {num} _.
Arguments F3_max {num} _.
Arguments F4_min {num} _.
Arguments F4_max {num} _.

(** The dictionary returned by [map_xy_to_formants]. *)
Record VoiceParams (num : Type) : Type := {
  F1 : num; F2 : num; F3 : num; F4 : num;
  L1 : Z; L2 : Z; L3 : Z; L4 : Z;
  R1 : Z; R2 : Z; R3 : Z; R4 : Z
}.

Arguments F1 {num} _.
Arguments F2 {num} _.
Arguments F3 {num} _.
Arguments F4 {num} _.
Arguments L1 {num} _.
Arguments L2 {num} _.
Arguments L3 {num} _.
Arguments L4 {num} _.
Arguments R1 {num} _.
Arguments R2 {num} _.
Arguments R3 {num} _.
Arguments R4 {num} _.

Section Mapping.

Context {num : Type} `{PyNum num}.

Local Open Scope py_scope.

Definition ranges (a1 b1 a2 b2 a3 b3 a4 b4 : Z) : FormantRanges num :=
  {| F1_min := of_int a1; F1_max := of_int b1;
     F2_min := of_int a2; F2_max := of_int b2;
     F3_min := of_int a3; F3_max := of_int b3;
     F4_min := of_int a4; F4_max := of_int b4 |}.

Definition get_profile_params (profile_name : string) : FormantRanges num :=
  let p := lower profile_name in
  if p =? "bass" then ranges 300 650 700 1200 1700 2400 2200 3200
  else if p =? "baritone" then ranges 330 700 800 1350 1800 2500 2300 3400
  else if p =? "tenor" then ranges 380 750 900 1500 1900 2600 2400 3400
  else if p =? "alto" then ranges 400 800 1000 1700 2100 2900 2600 3500
  else if p =? "mezzo" then ranges 420 850 1100 1800 2200 3000 2700 3600
  else if p =? "soprano" then ranges 450 900 1200 2000 2400 3100 2800 3700
  else ranges 360 780 850 1500 1900 2700 2400 3400.

Definition hz_to_knob_value_gen (freq_hz lo_hz hi_hz : num) (knob_lo knob_hi : Z)
  : result Z :=
  let f := clamp freq_hz lo_hz hi_hz in
  t <- py_div (f - lo_hz) (hi_hz - lo_hz) ;;
  let v := of_int knob_lo + t * of_int (knob_hi - knob_lo) in
  py_round v.

(** The call with the default bounds, the only one the program makes. *)
Definition hz_to_knob_value (freq_hz : num) : result Z :=
  hz_to_knob_value_gen freq_hz (of_int 200) (of_int 4000) 100 3500.

Definition map_xy_to_formants (x_norm y_norm : num) (profile_name : string)
    (brightness_factor resonance_factor : num) : result (VoiceParams num) :=
  let prof := get_profile_params profile_name in
  let F1 := F1_min prof + (F1_max prof - F1_min prof) * y_norm in
  let F2 := F2_min prof + (F2_max prof - F2_min prof) * y_norm in
  let x_centered := (x_norm - lit 5 1) * brightness_factor + lit 5 1 in
  let x_centered := clamp x_centered (of_int 0) (of_int 1) in
  let F3 := F3_min prof + (F3_max prof - F3_min prof) * x_centered in
  let F4 := F4_min prof + (F4_max prof - F4_min prof) * x_centered in
  let L1 := 55%Z in
  let L2 := 45%Z in
  L3 <- py_round (of_int 25 + of_int 15 * x_centered * brightness_factor) ;;
  L4 <- py_round (of_int 20 + of_int 10 * x_centered * brightness_factor) ;;
  let base_R := 3%Z in
  let energy := lit 5 1 * x_norm + lit 5 1 * y_norm in
  extra_R <- py_round (of_int 4 * resonance_factor * energy) ;;
  let R := clamp (base_R + extra_R)%Z 3%Z 7%Z in
  Ok {| F1 := F1; F2 := F2; F3 := F3; F4 := F4;
        L1 := L1; L2 := L2; L3 := L3; L4 := L4;
        R1 := R; R2 := R; R3 := R; R4 := R |}.

End Mapping.


(** ** The dispatcher *)

(** What [subprocess.run] does with a command: it returns a completed process
    with its two captured streams, or raises. *)
Inductive Outcome : Type :=
| Completed (stdout stderr : string)
| Failed.

(** The environment of a run: the path of the [d-lin] executable, the
    successive readings of [time.time()] and the outcome of the successive
    calls of [subprocess.run]. *)
Record World (num : Type) : Type := {
  DLIN_CMD : string;
  time_time : nat -> num;
  subprocess_run : nat -> Outcome
}.

Arguments DLIN_CMD {num} _.
Arguments time_time {num} _ _.
Arguments subprocess_run {num} _ _.

(** The global [_last_update_time], the number of clock readings made so far,
    and the commands handed to [subprocess.run] so far, oldest first. *)
Record State (num : Type) : Type := {
  _last_update_time : num;
  clock_reads : nat;
  device_log : list (list string)
}.

Arguments _last_update_time {num} _.
Arguments clock_reads {num} _.
Arguments device_log {num} _.

Definition USE_SUDO : bool := true.
Definition UPDATE_INTERVAL_MS : Z := 150.

(** State and exceptions. *)
Definition Eff (num A : Type) : Type := State num -> result A * State num.

Definition eret {num A} (a : A) : Eff num A := fun st => (Ok a, st).

Definition ebind {num A B} (m : Eff num A) (k : A -> Eff num B) : Eff num B :=
  fun st =>
    match m st with
    | (Ok a, st') => k a st'
    | (Raise e, st') => (Raise e, st')
    end.

Definition lift {num A} (r : result A) : Eff num A := fun st => (r, st).

Declare Scope eff_scope.
Delimit Scope eff_scope with eff.

Notation "x <- m ;; k" := (ebind m (fun x => k))
  (at level 61, m at next level, right associativity) : eff_scope.
Notation "m ;; k" := (ebind m (fun _ => k))
  (at level 61, right associativity) : eff_scope.

Section Dispatcher.

Context {num : Type} `{PyNum num}.
Variable w : World num.

Local Open Scope py_scope.

Definition dlin_command (args : list string) : list string :=
  ((if USE_SUDO then ["sudo"] else []) ++ [DLIN_CMD w] ++ args)%list.

Definition run_dlin (args : list string) : Eff num (option (string * string)) :=
  fun st =>
    let cmd := dlin_command args in
    let st' := {| _last_update_time := _last_update_time st;
                  clock_reads := clock_reads st;
                  device_log := (device_log st ++ [cmd])%list |} in
    match subprocess_run w (List.length (device_log st)) with
    | Completed out err => (Ok (Some (out, err)), st')
    | Failed => (Ok None, st')
    end.

Definition run_dlin_knob (pkv_str : string) : Eff num unit :=
  fun st =>
    let now := time_time w (clock_reads st) in
    if flt ((now - _last_update_time st) * of_int 1000) (of_int UPDATE_INTERVAL_MS)
    then (Ok tt, {| _last_update_time := _last_update_time st;
                    clock_reads := S (clock_reads st);
                    device_log := device_log st |})
    else
      let cmd := dlin_command ["knob"; "-pkv"; pkv_str] in
      (Ok tt, {| _last_update_time := now;
                 clock_reads := S (clock_reads st);
                 device_log := (device_log st ++ [cmd])%list |}).

Definition apply_voice_from_xy (profile_name : string) (x_norm y_norm : num)
    (brightness_factor resonance_factor : num) : Eff num unit :=
  (params <- lift (map_xy_to_formants x_norm y_norm profile_name
                     brightness_factor resonance_factor) ;;
   kF1 <- lift (hz_to_knob_value (F1 params)) ;;
   kF2 <- lift (hz_to_knob_value (F2 params)) ;;
   kF3 <- lift (hz_to_knob_value (F3 params)) ;;
   kF4 <- lift (hz_to_knob_value (F4 params)) ;;
   run_dlin_knob ("0f:2:" ++ str_int kF1) ;;
   run_dlin_knob ("1f:2:" ++ str_int kF2) ;;
   run_dlin_knob ("2f:2:" ++ str_int kF3) ;;
   run_dlin_knob ("3f:2:" ++ str_int kF4) ;;
   run_dlin_knob ("0f:3:" ++ str_int (L1 params)) ;;
   run_dlin_knob ("1f:3:" ++ str_int (L2 params)) ;;
   run_dlin_knob ("2f:3:" ++ str_int (L3 params)) ;;
   run_dlin_knob ("3f:3:" ++ str_int (L4 params)) ;;
   run_dlin_knob ("0f:6:" ++ str_int (R1 params)) ;;
   run_dlin_knob ("1f:6:" ++ str_int (R2 params)) ;;
   run_dlin_knob ("2f:6:" ++ str_int (R3 params)) ;;
   run_dlin_knob ("3f:6:" ++ str_int (R4 params)) ;;
   let bass_base_left := 8%Z in
   let bass_base_right := 5%Z in
   let treb_base_left := 4%Z in
   let treb_base_right := 8%Z in
   bass <- lift (py_round
     (of_int bass_base_right
      + of_int (bass_base_left - bass_base_right) * (of_int 1 - x_norm)
        * (lit 5 1 + lit 5 1 * brightness_factor))) ;;
   treb <- lift (py_round
     (of_int treb_base_left
      + of_int (treb_base_right - treb_base_left) * x_norm
        * (lit 5 1 + lit 5 1 * brightness_factor))) ;;
   run_dlin_knob ("0o:1:" ++ str_int treb) ;;
   run_dlin_knob ("0o:3:" ++ str_int bass))%eff.

End Dispatcher.

(** ** The analyzer *)

(** The functions of the C math library that numpy's window and transform
    are built from. *)
Class PyMath (num : Type) : Type := {
  fcos : num -> num;
  fsin : num -> num;
  fsqrt : num -> num;
  fpi : num
}.

#[export] Instance real_math : PyMath R := {
  fcos := cos;
  fsin := sin;
  fsqrt := sqrt;
  fpi := PI
}.

Record Profile (num : Type) : Type := {
  x_norm : num;
  y_norm : num;
  centroid : num;
  low_ratio : num
}.

Arguments x_norm {num} _.
Arguments y_norm {num} _.
Arguments centroid {num} _.
Arguments low_ratio {num} _.

Section Analyzer.

Context {num : Type} `{PyNum num}.

Local Open Scope py_scope.

Fixpoint zip_with {A B C : Type} (f : A -> B -> C) (l : list A) (l' : list B)
  : list C :=
  match l, l' with
  | a :: t, b :: t' => f a b :: zip_with f t t'
  | _, _ => []
  end.

(** [np.sum], added from left to right. *)
Definition np_sum (l : list num) : num := fold_left fadd l (of_int 0).

(** The integer samples of the file become a float32 array in [-1, 1)
    (lines 296-309). *)
Definition decode_samples (sampwidth : Z) (samples : list Z) : result (list num) :=
  if (sampwidth =? 1)%Z then
    Ok (map (fun s => f32 (fdiv (f32 (f32 (of_int s) - of_int 128)) (of_int 128))) samples)
  else if (sampwidth =? 2)%Z then
    Ok (map (fun s => f32 (fdiv (f32 (of_int s)) (of_int 32768))) samples)
  else if (sampwidth =? 4)%Z then
    Ok (map (fun s => f32 (fdiv (f32 (of_int s)) (of_int 2147483648))) samples)
  else Raise ValueError.

(** [data.reshape(-1, 2)]: the rows of a two-column view; an odd length is
    an error. *)
Fixpoint reshape2 (data : list num) : result (list (num * num)) :=
  match data with
  | [] => Ok []
  | [_] => Raise ValueError
  | a :: b :: t => (rows <- reshape2 t ;; Ok ((a, b) :: rows))
  end.

(** [.mean(axis=1)] on float32 rows of two. *)
Definition mean_axis1 (rows : list (num * num)) : list num :=
  map (fun r => f32 (fdiv (f32 (fst r + snd r)) (of_int 2))) rows.

(** Lines 311-312. *)
Definition downmix (n_channels : Z) (data : list num) : result (list num) :=
  if (n_channels =? 2)%Z then (rows <- reshape2 data ;; Ok (mean_axis1 rows))
  else Ok data.

(** [np.fft.rfftfreq(n, d)]: the bin centres [k / (n * d)], [k = 0 .. n // 2]. *)
Definition np_rfftfreq (n : nat) (d : num) : result (list num) :=
  val <- py_div (of_int 1) (of_int (Z.of_nat n) * d) ;;
  Ok (map (fun k => of_int (Z.of_nat k) * val) (seq 0 (n / 2 + 1))).

(** Lines 324-347: from the magnitude spectrum to the profile. *)
Definition profile_of_spectrum (freqs mag : list num) : result (Profile num) :=
  let total := np_sum mag in
  let '(centroid, low_ratio) :=
    if fle total (of_int 0) then (of_int 0, lit 5 1)
    else
      let centroid := fdiv (np_sum (zip_with fmul freqs mag)) total in
      let low_mask := map (fun f => flt f (of_int 1000)) freqs in
      let low_energy :=
        np_sum (map snd (filter fst (combine low_mask mag))) in
      (centroid, fdiv low_energy total) in
  x_norm <- py_div (centroid - of_int 1500) (of_int 4000 - of_int 1500) ;;
  let x_norm := clamp x_norm (of_int 0) (of_int 1) in
  q <- py_div (low_ratio - lit 2 1) (lit 7 1 - lit 2 1) ;;
  let y_norm := of_int 1 - q in
  let y_norm := clamp y_norm (of_int 0) (of_int 1) in
  Ok {| x_norm := x_norm; y_norm := y_norm;
        centroid := centroid; low_ratio := low_ratio |}.

Context `{PyMath num}.

(** [np.hanning(M)]: [w(n) = 0.5 - 0.5 cos(2 pi n / (M - 1))], a single one
    when [M = 1]. *)
Definition np_hanning (M : nat) : list num :=
  match M with
  | 0%nat => []
  | 1%nat => [of_int 1]
  | _ =>
      map (fun n =>
             lit 5 1 - lit 5 1
               * fcos (fdiv (of_int 2 * fpi * of_int (Z.of_nat n))
                            (of_int (Z.of_nat M - 1))))
          (seq 0 M)
  end.

(** One bin of the discrete Fourier transform,
    [sum_m x_m exp(-2 pi i m k / n)], as real and imaginary parts. *)
Definition dft_bin (x : list num) (k : nat) : num * num :=
  let n := List.length x in
  fold_left
    (fun acc mx =>
       let theta := fdiv (of_int 2 * fpi * of_int (Z.of_nat (fst mx * k)))
                         (of_int (Z.of_nat n)) in
       (fst acc + snd mx * fcos theta, snd acc - snd mx * fsin theta))
    (combine (seq 0 n) x) (of_int 0, of_int 0).

(** [np.fft.rfft]: the bins [0 .. n // 2]. *)
Definition np_rfft (x : list num) : list (num * num) :=
  map (dft_bin x) (seq 0 (List.length x / 2 + 1)).

(** [np.abs] on complex numbers. *)
Definition np_abs (c : num * num) : num :=
  fsqrt (fst c * fst c + snd c * snd c).

(** Lines 311-347, on the decoded samples. *)
Definition analyze_signal (n_channels framerate : Z) (data : list num)
  : result (Profile num) :=
  data <- downmix n_channels data ;;
  let n := List.length data in
  if (n =? 0)%nat then Raise ValueError
  else
    let window := np_hanning n in
    let x := zip_with fmul data window in
    let spec := np_rfft x in
    let mag := map np_abs spec in
    d <- py_div (of_int 1) (of_int framerate) ;;
    freqs <- np_rfftfreq n d ;;
    profile_of_spectrum freqs mag.

(** [analyze_wav_profile] once the [wave] module has read the header and the
    frames: [samples] are the integers [np.frombuffer] yields. *)
Definition analyze_wav_profile (n_channels sampwidth framerate : Z)
    (samples : list Z) : result (Profile num) :=
  data <- decode_samples sampwidth samples ;;
  analyze_signal n_channels framerate data.

End Analyzer.

(** ** The specification's vocabulary and the drivers of the statements *)

Open Scope list_scope.

Section FrameAverage.

Context {num : Type} `{PyNum num}.

Local Open Scope py_scope.

(** The data cut into frames of [c] samples. *)
Fixpoint frames (c fuel : nat) (data : list num) : list (list num) :=
  match fuel with
  | O => []
  | S fuel' =>
      match data with
      | [] => []
      | _ => firstn c data :: frames c fuel' (skipn c data)
      end
  end.

(** The mean of one frame, accumulated in single precision like the
    samples. *)
Definition frame_mean (frame : list num) : num :=
  match frame with
  | [] => of_int 0
  | a :: t =>
      f32 (fdiv (fold_left (fun s v => f32 (s + v)) t a)
                (of_int (Z.of_nat (List.length frame))))
  end.

(** The mono signal the specification describes: the average of the [c]
    channels of every frame. *)
Definition per_frame_average (c : nat) (data : list num) : list num :=
  map frame_mean (frames c (List.length data) data).

End FrameAverage.

(** A call of one of the two channels: a throttled knob update or an
    immediate command. *)
Inductive Call : Type :=
| Knob (pkv_str : string)
| Immediate (args : list string).

Definition is_knob (c : Call) : bool :=
  match c with
  | Knob _ => true
  | Immediate _ => false
  end.

Section Calls.

Context {num : Type} `{PyNum num}.
Variable w : World num.

Definition dispatch (c : Call) (st : State num) : State num :=
  match c with
  | Knob pkv_str => snd (run_dlin_knob w pkv_str st)
  | Immediate args => snd (run_dlin w args st)
  end.

Definition run_calls (cs : list Call) (st : State num) : State num :=
  fold_left (fun st c => dispatch c st) cs st.

(** Whether the call handed a command to [subprocess.run]. *)
Definition forwarded (c : Call) (st : State num) : bool :=
  (List.length (device_log st) <? List.length (device_log (dispatch c st)))%nat.

(** Every call of a sequence with its fate. *)
Fixpoint fates (cs : list Call) (st : State num) : list (Call * bool) :=
  match cs with
  | [] => []
  | c :: cs' => (c, forwarded c st) :: fates cs' (dispatch c st)
  end.

(** The number of commands the sequence handed to [subprocess.run]. *)
Definition sent_count (cs : list Call) (st : State num) : nat :=
  List.length (device_log (run_calls cs st)) - List.length (device_log st).

End Calls.

(** What the throttle computes for the clock readings [a] and [k]:
    whether reading [k] is less than 150 ms after reading [a]. *)
Definition too_soon {num : Type} `{PyNum num} (w : World num) (a k : nat) : bool :=
  flt (fmul (fsub (time_time w k) (time_time w a)) (of_int 1000))
      (of_int UPDATE_INTERVAL_MS).

(** [ceil(a / b)] on naturals. *)
Definition ceil_div (a b : nat) : nat := (a + b - 1) / b.

(** The names of the profile menu. *)
Definition profiles : list string :=
  ["Bass"; "Baritone"; "Tenor"; "Alto"; "Mezzo"; "Soprano"; "Neutral"].

Definition all_zero (l : list R) : Prop := Forall (fun v => v = 0%R) l.

(** ** Concrete environments *)

Definition burst_world : World R :=
  {| DLIN_CMD := "/opt/dlev/d-lin";
     time_time := fun k => (5 + INR k * (1 / 100))%R;
     subprocess_run := fun _ => Completed "" "" |}.

Definition fresh_real_state : State R :=
  {| _last_update_time := 0%R; clock_reads := 0; device_log := [] |}.

Definition fifteen_more : list string :=
  map (fun k => ("0f:2:" ++ str_int (Z.of_nat k))%string) (seq 1201 15).

Definition failing_world : World float :=
  {| DLIN_CMD := "/opt/dlev/d-lin";
     time_time := fun k => match k with O => 1000%float | _ => 1000.01%float end;
     subprocess_run := fun _ => Failed |}.

Definition fresh_state : State float :=
  {| _last_update_time := 0%float; clock_reads := 0; device_log := [] |}.

Definition slow_world : World float :=
  {| DLIN_CMD := "/opt/dlev/d-lin";
     time_time := fun k => (1000 + float_of_Z (Z.of_nat k) * 0.2)%float;
     subprocess_run := fun _ => Completed "" "" |}.

Definition burst_world_float : World float :=
  {| DLIN_CMD := "/opt/dlev/d-lin";
     time_time := fun k => (1000 + float_of_Z (Z.of_nat k) * 0.01)%float;
     subprocess_run := fun _ => Completed "" "" |}.

(** ** Binary64 numbers

    The notions the statements on binary64 are written with: the magnitude
    of a float (the position of its leading bit), its value as a real
    number, and what it means for a float to be the rounding of a real. *)

Section Binary64Notions.

Local Open Scope Z_scope.

(** [mag_le B f]: [f] is a zero, or a finite float whose leading bit lies
    below position [B], so [|f| < 2 ^ B]; in particular [f] is neither
    infinite nor a NaN. *)
Definition mag_le (B : Z) (f : spec_float) : Prop :=
  match f with
  | S754_zero _ => True
  | S754_finite _ m e => Z.pos (digits2_pos m) + e <= B
  | _ => False
  end.

(** The same bound on a primitive float. *)
Definition fmag (B : Z) (x : float) : Prop := mag_le B (Prim2SF x).

(** [0 <= x <= 1] as binary64 compares; a NaN is not in the unit interval. *)
Definition in_unit (x : float) : Prop :=
  (0 <=? x)%float = true /\ (x <=? 1)%float = true.

(** The least non-negative bound [mag_le] accepts for a finite float. *)
Definition mag_of (f : spec_float) : Z :=
  match f with
  | S754_finite _ m e => Z.max 0 (Z.pos (digits2_pos m) + e)
  | _ => 0
  end.

(** [+0.0] or [-0.0]. *)
Definition is_zero_sf (f : spec_float) : Prop :=
  match f with S754_zero _ => True | _ => False end.

(** [2 ^ e] for an integer exponent of either sign. *)
Definition pw (e : Z) : R := powerRZ 2 e.

(** The value of a float that is neither infinite nor a NaN. *)
Definition SF2R (f : spec_float) : R :=
  match f with
  | S754_finite s m e =>
      ((if s then -1 else 1) * IZR (Z.pos m) * pw e)%R
  | _ => 0%R
  end.

(** A zero or a finite float with a positive sign. *)
Definition nonneg_sf (f : spec_float) : Prop :=
  match f with
  | S754_zero _ => True
  | S754_finite s _ _ => s = false
  | _ => False
  end.

(** Neither infinite nor a NaN. *)
Definition is_finite_sf (f : spec_float) : Prop :=
  match f with
  | S754_zero _ | S754_finite _ _ _ => True
  | _ => False
  end.

(** [rounds x r]: [r] is a non-negative float that no valid float separates
    from the exact value [x]. *)
Definition rounds (x : R) (r : spec_float) : Prop :=
  nonneg_sf r
  /\ forall V, valid_binary V = true -> nonneg_sf V ->
       ((x <= SF2R V)%R -> (SF2R r <= SF2R V)%R)
       /\ ((SF2R V <= x)%R -> (SF2R V <= SF2R r)%R).

(** Value and sign of a primitive float. *)
Definition fval (a : float) : R := SF2R (Prim2SF a).

Definition fnonneg (a : float) : Prop := nonneg_sf (Prim2SF a).

(** [c] is the non-negative integer [k], below [2 ^ 12]: what the entries of
    the profile tables and their differences are. *)
Definition int_const (c : float) (k : Z) : Prop :=
  fnonneg c /\ fmag 12 c /\ fval c = IZR k.

End Binary64Notions.

(** ** The updates of one call *)

(** The fourteen [page:knob:value] strings of one call of
    [apply_voice_from_xy], in the order of the calls of [run_dlin_knob]. *)
Definition voice_pkvs {num : Type} (params : VoiceParams num)
    (kF1 kF2 kF3 kF4 treb bass : Z) : list string :=
  [("0f:2:" ++ str_int kF1)%string; ("1f:2:" ++ str_int kF2)%string;
   ("2f:2:" ++ str_int kF3)%string; ("3f:2:" ++ str_int kF4)%string;
   ("0f:3:" ++ str_int (L1 params))%string; ("1f:3:" ++ str_int (L2 params))%string;
   ("2f:3:" ++ str_int (L3 params))%string; ("3f:3:" ++ str_int (L4 params))%string;
   ("0f:6:" ++ str_int (R1 params))%string; ("1f:6:" ++ str_int (R2 params))%string;
   ("2f:6:" ++ str_int (R3 params))%string; ("3f:6:" ++ str_int (R4 params))%string;
   ("0o:1:" ++ str_int treb)%string; ("0o:3:" ++ str_int bass)%string].

(** The argument list of a throttled update. *)
Definition knob_args (pkv_str : string) : list string := ["knob"; "-pkv"; pkv_str].

(** The integers [lo, lo + 1, ..., lo + n - 1]. *)
Fixpoint zrange (lo : Z) (n : nat) : list Z :=
  match n with
  | O => []
  | S n' => lo :: zrange (lo + 1)%Z n'
  end.

(** ** The window

    The text of an entry field is a string of code points below 256. *)

(** [str.isspace] on one character: the ASCII white space, the four
    separators [0x1c .. 0x1f], NEL and the no-break space. *)
Definition isspace (c : ascii) : bool :=
  let n := nat_of_ascii c in
  ((9 <=? n) && (n <=? 13) || (28 <=? n) && (n <=? 32)
   || (n =? 133) || (n =? 160))%nat.

Fixpoint lstrip (s : string) : string :=
  match s with
  | EmptyString => EmptyString
  | String c s' => if isspace c then lstrip s' else s
  end.

Fixpoint rstrip (s : string) : string :=
  match s with
  | EmptyString => EmptyString
  | String c s' =>
      match rstrip s' with
      | EmptyString => if isspace c then EmptyString else String c EmptyString
      | t => String c t
      end
  end.

(** [s.strip()]. *)
Definition strip (s : string) : string := rstrip (lstrip s).

Definition is_decimal (c : ascii) : bool :=
  let n := nat_of_ascii c in ((48 <=? n) && (n <=? 57))%nat.

(** The characters [str.isdigit] accepts: the decimal digits and the
    superscripts one, two and three. *)
Definition isdigit_char (c : ascii) : bool :=
  let n := nat_of_ascii c in
  is_decimal c || ((n =? 178) || (n =? 179) || (n =? 185))%nat.

Fixpoint all_chars (p : ascii -> bool) (s : string) : bool :=
  match s with
  | EmptyString => true
  | String c s' => p c && all_chars p s'
  end.

(** [s.isdigit()]: false on the empty string. *)
Definition isdigit (s : string) : bool :=
  match s with
  | EmptyString => false
  | _ => all_chars isdigit_char s
  end.

(** [int(s)] on a string that passed [isdigit]: the decimal value; the
    superscripts are no decimal digits and make it raise.  An interpreter
    with a limit on the digits of a conversion also raises on a longer
    string; the statements on accepted numbers keep below the limit. *)
Definition py_int (s : string) : result Z :=
  match s with
  | EmptyString => Raise ValueError
  | _ =>
      match NilEmpty.uint_of_string s with
      | Some d => Ok (Z.of_uint d)
      | None => Raise ValueError
      end
  end.

(** [sys.int_max_str_digits] as the interpreter starts. *)
Definition int_max_str_digits : nat := 4300.

(** What [wave.open] and [readframes] got out of a file: the number of
    channels, the sample width in bytes, the frame rate and the samples. *)
Record WavFile : Type := {
  nchannels : Z;
  sampwidth : Z;
  framerate : Z;
  frames_read : list Z
}.

(** Four silent frames of a 16-bit mono file. *)
Definition silent_file : WavFile :=
  {| nchannels := 1; sampwidth := 2; framerate := 8000;
     frames_read := [0; 0; 0; 0]%Z |}.

(** The attributes of the application object that change, the values of
    its Tk variables and the coordinates of the two items of the canvas. *)
Record App (num : Type) : Type := {
  self_x_norm : num;
  self_y_norm : num;
  wav_target : option (num * num);
  wav_marker : option (num * num * num * num);
  base_knob_file : option string;
  base_captured : bool;
  dragging : bool;
  point : num * num * num * num;
  profile_var : string;
  processing_enabled : bool;
  brightness_var : num;
  resonance_var : num;
  slot_var : string;
  target_slot_var : string;
  save_name_var : string
}.

Arguments self_x_norm {num} _.
Arguments self_y_norm {num} _.
Arguments wav_target {num} _.
Arguments wav_marker {num} _.
Arguments base_knob_file {num} _.
Arguments base_captured {num} _.
Arguments dragging {num} _.
Arguments point {num} _.
Arguments profile_var {num} _.
Arguments processing_enabled {num} _.
Arguments brightness_var {num} _.
Arguments resonance_var {num} _.
Arguments slot_var {num} _.
Arguments target_slot_var {num} _.
Arguments save_name_var {num} _.

(** [self.size], [self.margin] and [self.point_radius] are set once. *)
Definition size : Z := 400.
Definition margin : Z := 30.
Definition point_radius : Z := 8.

Section Window.

Context {num : Type} `{PyNum num} `{PyMath num}.
Variable w : World num.

Local Open Scope py_scope.

(** A method runs on the application object and the dispatcher's state. *)
Definition UI (A : Type) : Type :=
  App num -> State num -> result A * (App num * State num).

Definition coord_from_norm (x_norm y_norm : num) : num * num :=
  let x0 := margin in
  let y0 := margin in
  let x1 := (margin + size)%Z in
  let y1 := (margin + size)%Z in
  (of_int x0 + x_norm * of_int (x1 - x0),
   of_int y0 + y_norm * of_int (y1 - y0)).

(** The pixel coordinates are the integers [move_point] passes. *)
Definition norm_from_coord (x y : Z) : result (num * num) :=
  let x0 := margin in
  let y0 := margin in
  let x1 := (margin + size)%Z in
  let y1 := (margin + size)%Z in
  (qx <- py_div (of_int (x - x0)) (of_int (x1 - x0)) ;;
   let x_norm := clamp qx (of_int 0) (of_int 1) in
   qy <- py_div (of_int (y - y0)) (of_int (y1 - y0)) ;;
   let y_norm := clamp qy (of_int 0) (of_int 1) in
   Ok (x_norm, y_norm))%py.

Definition oval (x y : num) (r : Z) : num * num * num * num :=
  (x - of_int r, y - of_int r, x + of_int r, y + of_int r).

Definition set_xy (a : App num) (x y : num) : App num :=
  {| self_x_norm := x; self_y_norm := y;
     wav_target := wav_target a; wav_marker := wav_marker a;
     base_knob_file := base_knob_file a; base_captured := base_captured a;
     dragging := dragging a; point := point a;
     profile_var := profile_var a; processing_enabled := processing_enabled a;
     brightness_var := brightness_var a; resonance_var := resonance_var a;
     slot_var := slot_var a; target_slot_var := target_slot_var a;
     save_name_var := save_name_var a |}.

Definition set_point (a : App num) (c : num * num * num * num) : App num :=
  {| self_x_norm := self_x_norm a; self_y_norm := self_y_norm a;
     wav_target := wav_target a; wav_marker := wav_marker a;
     base_knob_file := base_knob_file a; base_captured := base_captured a;
     dragging := dragging a; point := c;
     profile_var := profile_var a; processing_enabled := processing_enabled a;
     brightness_var := brightness_var a; resonance_var := resonance_var a;
     slot_var := slot_var a; target_slot_var := target_slot_var a;
     save_name_var := save_name_var a |}.

Definition set_dragging (a : App num) (d : bool) : App num :=
  {| self_x_norm := self_x_norm a; self_y_norm := self_y_norm a;
     wav_target := wav_target a; wav_marker := wav_marker a;
     base_knob_file := base_knob_file a; base_captured := base_captured a;
     dragging := d; point := point a;
     profile_var := profile_var a; processing_enabled := processing_enabled a;
     brightness_var := brightness_var a; resonance_var := resonance_var a;
     slot_var := slot_var a; target_slot_var := target_slot_var a;
     save_name_var := save_name_var a |}.

Definition set_wav (a : App num) (t : option (num * num))
    (m : option (num * num * num * num)) : App num :=
  {| self_x_norm := self_x_norm a; self_y_norm := self_y_norm a;
     wav_target := t; wav_marker := m;
     base_knob_file := base_knob_file a; base_captured := base_captured a;
     dragging := dragging a; point := point a;
     profile_var := profile_var a; processing_enabled := processing_enabled a;
     brightness_var := brightness_var a; resonance_var := resonance_var a;
     slot_var := slot_var a; target_slot_var := target_slot_var a;
     save_name_var := save_name_var a |}.

Definition set_base (a : App num) (f : option string) (c : bool) : App num :=
  {| self_x_norm := self_x_norm a; self_y_norm := self_y_norm a;
     wav_target := wav_target a; wav_marker := wav_marker a;
     base_knob_file := f; base_captured := c;
     dragging := dragging a; point := point a;
     profile_var := profile_var a; processing_enabled := processing_enabled a;
     brightness_var := brightness_var a; resonance_var := resonance_var a;
     slot_var := slot_var a; target_slot_var := target_slot_var a;
     save_name_var := save_name_var a |}.

Definition update_point_position (a : App num) : App num :=
  let '(x, y) := coord_from_norm (self_x_norm a) (self_y_norm a) in
  set_point a (oval x y point_radius).

Definition update_wav_marker (a : App num) : App num :=
  match wav_target a with
  | None => set_wav a None None
  | Some (x_norm, y_norm) =>
      let '(x, y) := coord_from_norm x_norm y_norm in
      set_wav a (wav_target a) (Some (oval x y 6))
  end.

Definition get_brightness_resonance (a : App num) : result (num * num) :=
  (qb <- py_div (brightness_var a) (of_int 100) ;;
   let b := clamp qb (of_int 0) (of_int 1) in
   qr <- py_div (resonance_var a) (of_int 100) ;;
   let r := clamp qr (of_int 0) (of_int 1) in
   Ok (b, r))%py.

Definition apply_current : UI unit :=
  fun a st =>
    if negb (processing_enabled a) then (Ok tt, (a, st))
    else
      match get_brightness_resonance a with
      | Raise e => (Raise e, (a, st))
      | Ok (b, r) =>
          let '(res, st') :=
            apply_voice_from_xy w (profile_var a) (self_x_norm a) (self_y_norm a)
              b r st in
          (res, (a, st'))
      end.

Definition move_point (x y : Z) : UI unit :=
  fun a st =>
    let x0 := margin in
    let y0 := margin in
    let x1 := (margin + size)%Z in
    let y1 := (margin + size)%Z in
    let x := clamp x x0 x1 in
    let y := clamp y y0 y1 in
    match norm_from_coord x y with
    | Raise e => (Raise e, (a, st))
    | Ok (x_norm, y_norm) =>
        apply_current (update_point_position (set_xy a x_norm y_norm)) st
    end.

Definition on_press (x y : Z) : UI unit :=
  fun a st => move_point x y (set_dragging a true) st.

Definition on_drag (x y : Z) : UI unit :=
  fun a st => if dragging a then move_point x y a st else (Ok tt, (a, st)).

Definition on_release : UI unit :=
  fun a st => apply_current (set_dragging a false) st.

Definition on_profile_change : UI unit := apply_current.

Definition on_slider_change : UI unit := apply_current.

Definition on_enable_toggle : UI unit :=
  fun a st =>
    if negb (processing_enabled a) then
      match base_knob_file a with
      | Some f =>
          if base_captured a && negb (f =? "") then
            (Ok tt, (a, snd (run_dlin w ["pump"; "-k"; "-f"; f] st)))
          else (Ok tt, (a, st))
      | None => (Ok tt, (a, st))
      end
    else apply_current a st.

Definition capture_base_from_slot : UI unit :=
  fun a st =>
    let slot_str := strip (slot_var a) in
    if negb (isdigit slot_str) then (Ok tt, (a, st))
    else
      match py_int slot_str with
      | Raise e => (Raise e, (a, st))
      | Ok slot =>
          let f := ("dpc_base_knobs_slot" ++ str_int slot)%string in
          let st' := snd (run_dlin w ["dump"; "-k"; "-f"; f] st) in
          (Ok tt, (set_base a (Some f) true, st'))
      end.

Definition save_current_to_dlp : UI unit :=
  fun a st =>
    let slot_str := strip (slot_var a) in
    if negb (isdigit slot_str) then (Ok tt, (a, st))
    else
      match py_int slot_str with
      | Raise e => (Raise e, (a, st))
      | Ok slot =>
          let name :=
            match strip (save_name_var a) with
            | EmptyString => "dpc_preset"
            | s => s
            end in
          (Ok tt, (a, snd (run_dlin w ["dump"; "-s"; str_int slot; "-f"; name] st)))
      end.

Definition copy_current_to_target_slot : UI unit :=
  fun a st =>
    let src_str := strip (slot_var a) in
    let dst_str := strip (target_slot_var a) in
    if negb (isdigit src_str) || negb (isdigit dst_str) then (Ok tt, (a, st))
    else
      match py_int src_str with
      | Raise e => (Raise e, (a, st))
      | Ok src =>
          match py_int dst_str with
          | Raise e => (Raise e, (a, st))
          | Ok dst =>
              let temp_name := "_dpc_temp_copy" in
              let st1 :=
                snd (run_dlin w ["dump"; "-s"; str_int src; "-f"; temp_name] st) in
              let st2 :=
                snd (run_dlin w ["pump"; "-f"; temp_name; "-s"; str_int dst] st1) in
              (Ok tt, (a, st2))
          end
      end.

(** [path] is what the file dialog returned, [file] what the [wave] module
    read at that path, if it could. *)
Definition load_wav_profile (path : string) (file : option WavFile) : UI unit :=
  fun a st =>
    match path with
    | EmptyString => (Ok tt, (a, st))
    | _ =>
        match file with
        | None => (Ok tt, (a, st))
        | Some f =>
            match analyze_wav_profile (nchannels f) (sampwidth f) (framerate f)
                    (frames_read f) with
            | Raise _ => (Ok tt, (a, st))
            | Ok p =>
                (Ok tt,
                 (update_wav_marker
                    (set_wav a (Some (x_norm p, y_norm p)) (wav_marker a)), st))
            end
        end
    end.

Definition snap_to_wav_profile : UI unit :=
  fun a st =>
    match wav_target a with
    | None => (Ok tt, (a, st))
    | Some (x, y) => apply_current (update_point_position (set_xy a x y)) st
    end.

(** The attributes and the variables as [__init__] creates them. *)
Definition initial_app : App num :=
  {| self_x_norm := lit 5 1; self_y_norm := lit 5 1;
     wav_target := None; wav_marker := None;
     base_knob_file := None; base_captured := false;
     dragging := false;
     point := (of_int 0, of_int 0, of_int 0, of_int 0);
     profile_var := "Tenor"; processing_enabled := true;
     brightness_var := of_int 70; resonance_var := of_int 50;
     slot_var := "200"; target_slot_var := "201";
     save_name_var := "dpc_preset" |}.

(** [__init__]: the point is drawn and the current setting is applied. *)
Definition init : State num -> result unit * (App num * State num) :=
  fun st => apply_current (update_point_position initial_app) st.

Definition set_vars (a : App num) (profile : string) (enabled : bool)
    (brightness resonance : num) (slot target name : string) : App num :=
  {| self_x_norm := self_x_norm a; self_y_norm := self_y_norm a;
     wav_target := wav_target a; wav_marker := wav_marker a;
     base_knob_file := base_knob_file a; base_captured := base_captured a;
     dragging := dragging a; point := point a;
     profile_var := profile; processing_enabled := enabled;
     brightness_var := brightness; resonance_var := resonance;
     slot_var := slot; target_slot_var := target;
     save_name_var := name |}.

(** What the user does and what Tk makes of it: a widget stores the new
    value in its variable, then calls its command. *)
Inductive Event : Type :=
| ButtonPress (x y : Z)
| Motion (x y : Z)
| ButtonRelease
| SelectProfile (value : string)
| ToggleProcessing
| MoveBrightness (v : num)
| MoveResonance (v : num)
| TypeSlot (s : string)
| TypeTargetSlot (s : string)
| TypeSaveName (s : string)
| ClickCaptureBase
| ClickSave
| ClickCopy
| ClickLoadWav (path : string) (file : option WavFile)
| ClickSnap.

Definition handle (e : Event) : UI unit :=
  fun a st =>
    match e with
    | ButtonPress x y => on_press x y a st
    | Motion x y => on_drag x y a st
    | ButtonRelease => on_release a st
    | SelectProfile value =>
        on_profile_change
          (set_vars a value (processing_enabled a) (brightness_var a)
             (resonance_var a) (slot_var a) (target_slot_var a) (save_name_var a)) st
    | ToggleProcessing =>
        on_enable_toggle
          (set_vars a (profile_var a) (negb (processing_enabled a)) (brightness_var a)
             (resonance_var a) (slot_var a) (target_slot_var a) (save_name_var a)) st
    | MoveBrightness v =>
        on_slider_change
          (set_vars a (profile_var a) (processing_enabled a) v
             (resonance_var a) (slot_var a) (target_slot_var a) (save_name_var a)) st
    | MoveResonance v =>
        on_slider_change
          (set_vars a (profile_var a) (processing_enabled a) (brightness_var a)
             v (slot_var a) (target_slot_var a) (save_name_var a)) st
    | TypeSlot s =>
        (Ok tt,
         (set_vars a (profile_var a) (processing_enabled a) (brightness_var a)
            (resonance_var a) s (target_slot_var a) (save_name_var a), st))
    | TypeTargetSlot s =>
        (Ok tt,
         (set_vars a (profile_var a) (processing_enabled a) (brightness_var a)
            (resonance_var a) (slot_var a) s (save_name_var a), st))
    | TypeSaveName s =>
        (Ok tt,
         (set_vars a (profile_var a) (processing_enabled a) (brightness_var a)
            (resonance_var a) (slot_var a) (target_slot_var a) s, st))
    | ClickCaptureBase => capture_base_from_slot a st
    | ClickSave => save_current_to_dlp a st
    | ClickCopy => copy_current_to_target_slot a st
    | ClickLoadWav path file => load_wav_profile path file a st
    | ClickSnap => snap_to_wav_profile a st
    end.

(** The three buttons that dump or pump a preset. *)
Definition is_preset_click (e : Event) : bool :=
  match e with
  | ClickCaptureBase | ClickSave | ClickCopy => true
  | _ => false
  end.

Definition is_toggle (e : Event) : bool :=
  match e with
  | ToggleProcessing => true
  | _ => false
  end.

(** Tk reports an exception of a callback and goes on with the next
    event: the outcomes of the handlers, oldest first, and the last state. *)
Fixpoint run_events (es : list Event) (a : App num) (st : State num)
  : list (result unit) * (App num * State num) :=
  match es with
  | [] => ([], (a, st))
  | e :: es' =>
      let '(r, (a', st')) := handle e a st in
      let '(rs, fin) := run_events es' a' st' in
      (r :: rs, fin)
  end.

End Window.

(** The point and the target of the window lie on the pad. *)
Definition in_pad (a : App float) : Prop :=
  in_unit (self_x_norm a) /\ in_unit (self_y_norm a)
  /\ match wav_target a with
     | Some (x, y) => in_unit x /\ in_unit y
     | None => True
     end.

(** * Properties *)

(** ** Comparisons on the reals *)

Lemma Rltb_true (a b : R) : (a < b)%R -> Rltb a b = true.
Proof. intros Hab. unfold Rltb. destruct (Rlt_dec a b); [reflexivity | contradiction]. Qed.

Lemma Rltb_false (a b : R) : (b <= a)%R -> Rltb a b = false.
Proof. intros Hab. unfold Rltb. destruct (Rlt_dec a b); [lra | reflexivity]. Qed.

Lemma Rleb_true (a b : R) : (a <= b)%R -> Rleb a b = true.
Proof. intros Hab. unfold Rleb. destruct (Rle_dec a b); [reflexivity | contradiction]. Qed.

Lemma Rleb_false (a b : R) : (b < a)%R -> Rleb a b = false.
Proof. intros Hab. unfold Rleb. destruct (Rle_dec a b); [lra | reflexivity]. Qed.

Lemma Reqb_false (a b : R) : a <> b -> Reqb a b = false.
Proof. intros Hab. unfold Reqb. destruct (Req_dec_T a b); [contradiction | reflexivity]. Qed.

Lemma real_py_div (a b : R) : b <> 0%R -> py_div a b = Ok (a / b)%R.
Proof. intros Hb. unfold py_div. cbn. rewrite Reqb_false by assumption. reflexivity. Qed.

Lemma real_clamp_below (x lo hi : R) :
  (x <= lo)%R -> (lo <= hi)%R -> clamp x lo hi = lo.
Proof.
  intros Hx Hlh. unfold clamp, py_max, py_min. cbn. unfold Rltb.
  destruct (Rlt_dec x hi); destruct (Rlt_dec lo _); try reflexivity; lra.
Qed.

Lemma real_clamp_inside (x lo hi : R) :
  (lo <= x <= hi)%R -> clamp x lo hi = x.
Proof.
  intros Hx. unfold clamp, py_max, py_min. cbn. unfold Rltb.
  destruct (Rlt_dec x hi); destruct (Rlt_dec lo _); try reflexivity; lra.
Qed.

Lemma real_clamp_above (x lo hi : R) :
  (hi <= x)%R -> (lo <= hi)%R -> clamp x lo hi = hi.
Proof.
  intros Hx Hlh. unfold clamp, py_max, py_min. cbn. unfold Rltb.
  destruct (Rlt_dec x hi); destruct (Rlt_dec lo _); try reflexivity; lra.
Qed.

Lemma real_clamp_bounds (x lo hi : R) :
  (lo <= hi)%R -> (lo <= clamp x lo hi <= hi)%R.
Proof.
  intros Hlh. unfold clamp, py_max, py_min. cbn. unfold Rltb.
  destruct (Rlt_dec x hi); destruct (Rlt_dec lo _); lra.
Qed.

(** ** The analyzer on a silent buffer *)

Section SilenceReal.

Local Open Scope R_scope.

Lemma all_zero_repeat (n : nat) : all_zero (repeat 0 n).
Proof. induction n; constructor; auto. Qed.

Lemma all_zero_eq_repeat (l : list R) : all_zero l -> l = repeat 0 (List.length l).
Proof. induction 1 as [|v l Hv _ IH]; cbn; [reflexivity | now rewrite Hv, <- IH]. Qed.

Lemma np_sum_zero_from (l : list R) (a : R) :
  all_zero l -> fold_left Rplus l a = a.
Proof.
  intros Hl. revert a. induction Hl as [|v l Hv _ IH]; intros a; cbn.
  - reflexivity.
  - rewrite IH. subst v. lra.
Qed.

Lemma np_sum_all_zero (l : list R) : all_zero l -> np_sum l = 0.
Proof. intros Hl. unfold np_sum. cbn. now apply np_sum_zero_from. Qed.

Lemma windowed_all_zero (l w : list R) :
  all_zero l -> all_zero (zip_with fmul l w).
Proof.
  intros Hl. revert w. induction Hl as [|v l Hv _ IH]; intros [|b w]; cbn;
    try constructor; [subst v; lra | apply IH].
Qed.

Lemma fold_bin_zero (c s : nat * R -> R) (l : list (nat * R)) :
  Forall (fun mx => snd mx = 0) l ->
  fold_left (fun acc mx => (fst acc + snd mx * c mx, snd acc - snd mx * s mx))
            l (0, 0) = (0, 0).
Proof.
  induction 1 as [|mx l Hmx _ IH]; cbn; [reflexivity|].
  rewrite Hmx.
  replace (0 + 0 * c mx) with 0 by lra. replace (0 - 0 * s mx) with 0 by lra.
  exact IH.
Qed.

Lemma combine_snd_zero (a : list nat) (x : list R) :
  all_zero x -> Forall (fun mx : nat * R => snd mx = 0) (combine a x).
Proof.
  intros Hx. revert a. induction Hx as [|v x Hv _ IH]; intros [|i a]; cbn;
    constructor; auto.
Qed.

Lemma dft_bin_all_zero (x : list R) (k : nat) :
  all_zero x -> dft_bin x k = (0, 0).
Proof.
  intros Hx. unfold dft_bin. cbn.
  apply (fold_bin_zero
           (fun mx => cos (2 * PI * IZR (Z.of_nat (fst mx * k))
                           / IZR (Z.of_nat (List.length x))))
           (fun mx => sin (2 * PI * IZR (Z.of_nat (fst mx * k))
                           / IZR (Z.of_nat (List.length x))))).
  now apply combine_snd_zero.
Qed.

Lemma magnitude_all_zero (x : list R) :
  all_zero x -> all_zero (map np_abs (np_rfft x)).
Proof.
  intros Hx. unfold np_rfft, all_zero. rewrite map_map. apply Forall_map.
  apply Forall_forall. intros k _. rewrite dft_bin_all_zero by assumption.
  unfold np_abs. cbn. replace (0 * 0 + 0 * 0) with 0 by lra. apply sqrt_0.
Qed.

Lemma reshape2_zeros (m : nat) :
  reshape2 (repeat 0 (2 * m)) = Ok (repeat (0, 0) m).
Proof.
  induction m as [|m IH]; [reflexivity|].
  replace (2 * S m)%nat with (S (S (2 * m))) by lia. cbn [repeat reshape2].
  rewrite IH. reflexivity.
Qed.

Lemma downmix_zeros (c : Z) (N : nat) :
  (0 < N)%nat -> (c = 2%Z -> Nat.even N = true) ->
  exists N', (0 < N')%nat /\ downmix c (repeat 0 N) = Ok (repeat 0 N').
Proof.
  intros HN Hc. unfold downmix. destruct (Z.eqb_spec c 2) as [E|E].
  - apply Hc in E. apply Nat.even_spec in E. destruct E as [m ->].
    exists m. split; [lia|]. rewrite reshape2_zeros. cbn. f_equal.
    unfold mean_axis1. rewrite map_repeat. cbn. f_equal. lra.
  - exists N. split; [assumption | reflexivity].
Qed.

End SilenceReal.

Lemma real_profile_of_silence (freqs mag : list R) :
  all_zero mag ->
  profile_of_spectrum freqs mag
  = Ok {| x_norm := 0%R; y_norm := (4 / 10)%R;
          centroid := 0%R; low_ratio := (5 / 10)%R |}.
Proof.
  intros Hmag. unfold profile_of_spectrum.
  rewrite (np_sum_all_zero mag Hmag).
  replace (fle 0%R (of_int 0)) with true by (symmetry; apply Rleb_true; cbn; lra).
  rewrite real_py_div by (cbn; lra). cbn [rbind].
  rewrite real_py_div by (unfold lit; cbn; lra). cbn [rbind].
  rewrite real_clamp_below by (cbn; lra).
  rewrite real_clamp_inside by (unfold lit; cbn; lra).
  unfold lit. cbn. f_equal. f_equal. lra.
Qed.

Lemma real_analyze_silence (n_channels framerate : Z) (N : nat) :
  (0 < N)%nat -> framerate <> 0%Z ->
  (n_channels = 2%Z -> Nat.even N = true) ->
  analyze_signal n_channels framerate (repeat 0%R N)
  = Ok {| x_norm := 0%R; y_norm := (4 / 10)%R;
          centroid := 0%R; low_ratio := (5 / 10)%R |}.
Proof.
  intros HN Hfs Hc. unfold analyze_signal.
  destruct (downmix_zeros n_channels N HN Hc) as (N' & HN' & ->). cbn [rbind].
  rewrite repeat_length.
  destruct (Nat.eqb_spec N' 0) as [E|_]; [lia|].
  assert (Hfs' : IZR framerate <> 0%R) by (now apply not_0_IZR).
  rewrite real_py_div by exact Hfs'. cbn [rbind].
  unfold np_rfftfreq. rewrite real_py_div.
  2:{ cbn. apply Rmult_integral_contrapositive_currified.
      - apply not_0_IZR. lia.
      - unfold Rdiv. apply Rmult_integral_contrapositive_currified; [lra|].
        now apply Rinv_neq_0_compat. }
  cbn [rbind]. apply real_profile_of_silence.
  apply magnitude_all_zero, windowed_all_zero, all_zero_repeat.
Qed.

(** The same lines on binary64: the spectrum of a silent buffer is a list of
    zeros, whatever its length. *)
Lemma float_np_sum_zeros (n : nat) : np_sum (repeat 0%float n) = 0%float.
Proof.
  unfold np_sum. change (of_int 0) with 0%float.
  induction n as [|n IH]; [reflexivity | exact IH].
Qed.

Lemma float_profile_of_silence (freqs : list float) (n : nat) :
  profile_of_spectrum freqs (repeat 0%float n)
  = Ok {| x_norm := 0%float; y_norm := 0.39999999999999991%float;
          centroid := 0%float; low_ratio := 0.5%float |}.
Proof.
  unfold profile_of_spectrum. rewrite float_np_sum_zeros. reflexivity.
Qed.

(** C1 (as stated, on binary64).  On the spectrum of a one-sample silent
    buffer the analyzer returns centroid 0.0, low ratio 0.5 and brightness
    0.0, but the register coordinate [1.0 - (0.5 - 0.2) / (0.7 - 0.2)] does not
    compare equal to 0.4: binary64 gives [0.7 - 0.2 = 0.49999999999999994], so
    the quotient is 0.6000000000000001 and the coordinate
    0.3999999999999999. *)
Lemma silence_y_norm_is_not_0_4 :
  exists p : Profile float,
    profile_of_spectrum [0%float] [0%float] = Ok p
    /\ centroid p = 0%float /\ low_ratio p = 0.5%float /\ x_norm p = 0%float
    /\ y_norm p = 0.39999999999999991%float
    /\ feqb (y_norm p) (lit 4 1) = false
    /\ ((0.7 - 0.2)%float = 0.49999999999999994%float).
Proof.
  eexists. split; [reflexivity|]. repeat split; vm_compute; reflexivity.
Qed.

(** C1 (amended).  An all-zero signal of length [N > 0], at any non-zero
    sample rate, has an all-zero magnitude spectrum, takes the
    total-magnitude fallback, and is mapped to centroid 0, low ratio 0.5 and
    brightness 0; its register coordinate is
    [clamp (1 - (0.5 - 0.2) / (0.7 - 0.2)) 0 1], which is 0.4 over the reals
    and 0.39999999999999991 in the binary64 arithmetic of the program,
    whatever the number [n] of spectrum bins. *)
Theorem silence_profile (n_channels framerate : Z) (N n : nat) (freqs : list float) :
  (0 < N)%nat -> framerate <> 0%Z ->
  (n_channels = 2%Z -> Nat.even N = true) ->
  analyze_signal n_channels framerate (repeat 0%R N)
  = Ok {| x_norm := 0%R; y_norm := (4 / 10)%R;
          centroid := 0%R; low_ratio := (5 / 10)%R |}
  /\ profile_of_spectrum freqs (repeat 0%float n)
     = Ok {| x_norm := 0%float; y_norm := 0.39999999999999991%float;
             centroid := 0%float; low_ratio := 0.5%float |}.
Proof.
  intros HN Hfs Hc. split.
  - now apply real_analyze_silence.
  - apply float_profile_of_silence.
Qed.

Lemma silence_profile_witness :
  analyze_signal 1 44100 (repeat 0%R 4)
  = Ok {| x_norm := 0%R; y_norm := (4 / 10)%R;
          centroid := 0%R; low_ratio := (5 / 10)%R |}
  /\ profile_of_spectrum [0%float; 11025%float; 22050%float] (repeat 0%float 3)
     = Ok {| x_norm := 0%float; y_norm := 0.39999999999999991%float;
             centroid := 0%float; low_ratio := 0.5%float |}.
Proof.
  apply (silence_profile 1 44100 4 3 [0%float; 11025%float; 22050%float]).
  - lia.
  - discriminate.
  - discriminate.
Defined.

(** ** Down-mixing *)

Section FrameAverageFacts.

Context {num : Type} `{PyNum num}.

Local Open Scope py_scope.

Lemma downmix_stereo_frames (fuel : nat) (data : list num) :
  (List.length data <= fuel)%nat ->
  Nat.even (List.length data) = true ->
  downmix 2 data = Ok (map frame_mean (frames 2 fuel data)).
Proof.
  unfold downmix. cbn [Z.eqb Pos.eqb]. revert data.
  induction fuel as [|fuel IH]; intros data Hlen Hev.
  - destruct data; [reflexivity | cbn in Hlen; lia].
  - destruct data as [|a [|b t]]; [reflexivity | discriminate Hev |].
    cbn [reshape2 frames firstn skipn map].
    cbn [List.length] in Hlen, Hev.
    assert (IHt := IH t). cbn [rbind] in *.
    destruct (reshape2 t) as [rows|e].
    + cbn [rbind]. rewrite <- (f_equal (fun r => match r with Ok l => l | Raise _ => [] end)
                                 (IHt ltac:(lia) Hev)).
      reflexivity.
    + specialize (IHt ltac:(lia) Hev). discriminate IHt.
Qed.

Lemma downmix_stereo (data : list num) :
  Nat.even (List.length data) = true ->
  downmix 2 data = Ok (per_frame_average 2 data).
Proof. intros Hev. now apply downmix_stereo_frames. Qed.

Lemma downmix_other (c : Z) (data : list num) :
  c <> 2%Z -> downmix c data = Ok data.
Proof. intros Hc. unfold downmix. now destruct (Z.eqb_spec c 2). Qed.

End FrameAverageFacts.

Lemma real_hanning_3_head :
  np_hanning (num := R) 3 = 0%R :: tl (np_hanning (num := R) 3).
Proof.
  cbn. unfold lit. cbn. f_equal.
  replace (2 * PI * 0 / 2)%R with 0%R by lra. rewrite cos_0. lra.
Qed.

Lemma real_three_channel_frame :
  analyze_signal 3 8000 [1; 0; 0]%R
  = Ok {| x_norm := 0%R; y_norm := (4 / 10)%R;
          centroid := 0%R; low_ratio := (5 / 10)%R |}.
Proof.
  unfold analyze_signal. rewrite downmix_other by discriminate.
  cbn [rbind List.length Nat.eqb].
  rewrite real_py_div by (cbn; lra). cbn [rbind].
  unfold np_rfftfreq. rewrite real_py_div by (cbn; lra). cbn [rbind].
  apply real_profile_of_silence, magnitude_all_zero.
  rewrite real_hanning_3_head.
  destruct (tl (np_hanning 3)) as [|w1 [|w2 ws]]; cbn;
    repeat constructor; lra.
Qed.

Lemma real_three_channel_average :
  analyze_signal 1 8000 (per_frame_average 3 [1; 0; 0]%R)
  = Ok {| x_norm := 0%R; y_norm := 0%R;
          centroid := 0%R; low_ratio := 1%R |}.
Proof.
  unfold analyze_signal, per_frame_average. rewrite downmix_other by discriminate.
  cbn [rbind List.length Nat.eqb frames firstn skipn map].
  rewrite real_py_div by (cbn; lra). cbn [rbind].
  unfold np_rfftfreq. rewrite real_py_div by (cbn; lra). cbn [rbind].
  assert (Hmean : frame_mean [1; 0; 0]%R = (1 / 3)%R) by (cbn; lra).
  rewrite Hmean.
  assert (Hmag : map np_abs (np_rfft (zip_with fmul [(1 / 3)%R] (np_hanning 1)))
                 = [(1 / 3)%R]).
  { cbn. f_equal. unfold np_abs. cbn.
    replace (2 * PI * 0 / 1)%R with 0%R by lra. rewrite cos_0, sin_0.
    replace ((0 + 1 / 3 * 1 * 1) * (0 + 1 / 3 * 1 * 1)
             + (0 - 1 / 3 * 1 * 0) * (0 - 1 / 3 * 1 * 0))%R
      with ((1 / 3) * (1 / 3))%R by lra.
    apply sqrt_square. lra. }
  rewrite Hmag.
  unfold profile_of_spectrum, np_sum. cbn [fold_left seq map Nat.div zip_with].
  cbn -[clamp py_div].
  rewrite Rleb_false by lra.
  rewrite Rltb_true by lra. cbn -[clamp py_div].
  rewrite real_py_div by lra. cbn [rbind].
  rewrite real_py_div by (unfold lit; cbn; lra). cbn [rbind].
  replace ((0 + 0 * (1 / (1 * (1 / 8000))) * (1 / 3)) / (0 + 1 / 3))%R
    with 0%R by (field).
  replace ((0 + 1 / 3) / (0 + 1 / 3))%R with 1%R by (field).
  rewrite !real_clamp_below by lra. reflexivity.
Qed.

Lemma list_pair_ind {A : Type} (P : list A -> Prop) :
  P [] -> (forall a, P [a]) -> (forall a b t, P t -> P (a :: b :: t)) ->
  forall l, P l.
Proof.
  intros Hnil Hone Hstep.
  assert (Hboth : forall l, P l /\ forall a, P (a :: l)).
  { induction l as [|b t [IHt IHbt]]; split; auto. }
  intros l. apply Hboth.
Qed.

Lemma reshape2_odd {num : Type} (data : list num) :
  Nat.even (List.length data) = false -> reshape2 data = Raise ValueError.
Proof.
  induction data as [|a|a b t IH] using list_pair_ind; intros Hodd.
  - discriminate Hodd.
  - reflexivity.
  - cbn [reshape2]. rewrite IH by exact Hodd. reflexivity.
Qed.

(** C3 (as stated).  One frame of three channels, [1, 0, 0], at 8000 Hz: the
    analyzer windows the three interleaved samples as they are (the window
    is 0 on the first sample, so the spectrum is silent and the fallback
    profile comes out), whereas the per-frame average [1/3] has all its
    magnitude below 1000 Hz and the profile (0, 0, 0, 1). *)
Lemma three_channels_are_not_averaged :
  downmix 3 [1; 0; 0]%R = Ok [1; 0; 0]%R
  /\ per_frame_average 3 [1; 0; 0]%R = [(1 / 3)%R]
  /\ analyze_signal 3 8000 [1; 0; 0]%R
     = Ok {| x_norm := 0%R; y_norm := (4 / 10)%R;
             centroid := 0%R; low_ratio := (5 / 10)%R |}
  /\ analyze_signal 1 8000 (per_frame_average 3 [1; 0; 0]%R)
     = Ok {| x_norm := 0%R; y_norm := 0%R;
             centroid := 0%R; low_ratio := 1%R |}
  /\ analyze_signal 3 8000 [1; 0; 0]%R
     <> analyze_signal 1 8000 (per_frame_average 3 [1; 0; 0]%R).
Proof.
  split; [reflexivity|].
  split; [cbn; f_equal; lra|].
  split; [exact real_three_channel_frame|].
  split; [exact real_three_channel_average|].
  rewrite real_three_channel_frame, real_three_channel_average.
  intros E. injection E as Ey Elow. lra.
Qed.

(** C3 (amended).  The analyzer down-mixes exactly when the file has two
    channels: a stereo signal of even length is analysed as the per-frame
    average of its two channels (an odd length is a [ValueError]); with any
    other channel count the interleaved samples are analysed as they are,
    as one mono signal. *)
Theorem downmix_only_for_stereo {num : Type} `{PyNum num} `{PyMath num}
    (n_channels framerate : Z) (data : list num) :
  analyze_signal n_channels framerate data
  = if (n_channels =? 2)%Z then
      if Nat.even (List.length data)
      then analyze_signal 1 framerate (per_frame_average 2 data)
      else Raise ValueError
    else analyze_signal 1 framerate data.
Proof.
  destruct (Z.eqb_spec n_channels 2) as [-> | Hc].
  - destruct (Nat.even (List.length data)) eqn:Hev.
    + unfold analyze_signal. rewrite (downmix_stereo data Hev).
      rewrite (downmix_other 1) by discriminate. reflexivity.
    + unfold analyze_signal, downmix. cbn [Z.eqb Pos.eqb].
      rewrite reshape2_odd by exact Hev. reflexivity.
  - unfold analyze_signal. rewrite (downmix_other n_channels) by exact Hc.
    rewrite (downmix_other 1) by discriminate. reflexivity.
Qed.

Example float_stereo_downmix :
  downmix 2 [0.5; 0.25; -1; 1]%float = Ok [0.375; 0]%float.
Proof. reflexivity. Qed.

(** ** Sequences of dispatches *)

Section CallFacts.

Context {num : Type} `{PyNum num}.
Variable w : World num.

Lemma run_calls_app (cs cs' : list Call) (st : State num) :
  run_calls w (cs ++ cs') st = run_calls w cs' (run_calls w cs st).
Proof. apply fold_left_app. Qed.

Lemma run_dlin_state (args : list string) (st : State num) :
  snd (run_dlin w args st)
  = {| _last_update_time := _last_update_time st;
       clock_reads := clock_reads st;
       device_log := device_log st ++ [dlin_command w args] |}.
Proof. unfold run_dlin. destruct (subprocess_run w _); reflexivity. Qed.

Lemma dispatch_log_grows (c : Call) (st : State num) :
  exists l, device_log (dispatch w c st) = device_log st ++ l.
Proof.
  destruct c as [pkv|args]; cbn [dispatch].
  - unfold run_dlin_knob. destruct (flt _ _); cbn.
    + exists []. now rewrite app_nil_r.
    + eexists. reflexivity.
  - rewrite run_dlin_state. cbn. eexists. reflexivity.
Qed.

Lemma run_calls_log_grows (cs : list Call) (st : State num) :
  exists l, device_log (run_calls w cs st) = device_log st ++ l.
Proof.
  revert st. induction cs as [|c cs IH]; intros st; cbn.
  - exists []. now rewrite app_nil_r.
  - destruct (IH (dispatch w c st)) as [l Hl].
    destruct (dispatch_log_grows c st) as [l0 Hl0].
    exists (l0 ++ l). unfold run_calls in Hl. rewrite Hl, Hl0. now rewrite app_assoc.
Qed.

Lemma dispatch_immediate_frame (args : list string) (st : State num) :
  _last_update_time (dispatch w (Immediate args) st) = _last_update_time st
  /\ clock_reads (dispatch w (Immediate args) st) = clock_reads st.
Proof. cbn [dispatch]. rewrite run_dlin_state. split; reflexivity. Qed.

(** A throttled update looks at the timestamp and the clock only. *)
Lemma dispatch_knob_frame (pkv : string) (st st' : State num) :
  _last_update_time st' = _last_update_time st ->
  clock_reads st' = clock_reads st ->
  _last_update_time (dispatch w (Knob pkv) st') = _last_update_time (dispatch w (Knob pkv) st)
  /\ clock_reads (dispatch w (Knob pkv) st') = clock_reads (dispatch w (Knob pkv) st)
  /\ forwarded w (Knob pkv) st' = forwarded w (Knob pkv) st.
Proof.
  intros Ht Hc. unfold forwarded. cbn [dispatch]. unfold run_dlin_knob.
  rewrite Ht, Hc. destruct (flt _ _); cbn [snd _last_update_time clock_reads device_log].
  - repeat split; try reflexivity. now rewrite !Nat.ltb_irrefl.
  - repeat split; try reflexivity. rewrite !length_app. cbn.
    transitivity true; [|symmetry]; apply Nat.ltb_lt; lia.
Qed.

End CallFacts.

Section CallProperties.

Context {num : Type} `{PyNum num}.
Variable w : World num.

Lemma immediate_removed (cs : list Call) (st st' : State num) :
  _last_update_time st' = _last_update_time st ->
  clock_reads st' = clock_reads st ->
  _last_update_time (run_calls w cs st')
  = _last_update_time (run_calls w (filter is_knob cs) st)
  /\ filter (fun cf => is_knob (fst cf)) (fates w cs st')
     = fates w (filter is_knob cs) st.
Proof.
  revert st st'. induction cs as [|c cs IH]; intros st st' Ht Hc.
  - split; [exact Ht | reflexivity].
  - destruct c as [pkv|args].
    + cbn [filter is_knob run_calls fold_left fates fst].
      destruct (dispatch_knob_frame w pkv st st' Ht Hc) as (Ht' & Hc' & Hf).
      destruct (IH _ _ Ht' Hc') as [IHt IHf].
      split; [exact IHt | now rewrite Hf, IHf].
    + cbn [filter is_knob run_calls fold_left fates fst].
      destruct (dispatch_immediate_frame w args st') as [Ht' Hc'].
      apply IH; congruence.
Qed.

End CallProperties.

(** C5.  An immediate command is handed to [subprocess.run] from every
    state: whatever the throttle timestamp, whatever calls (throttled or
    immediate) came before it and however they ended, the command is
    appended to the device log, and the calls after it do not remove it. *)
Theorem immediate_always_forwarded {num : Type} `{PyNum num} (w : World num)
    (before after : list Call) (args : list string) (st : State num) :
  forwarded w (Immediate args) (run_calls w before st) = true
  /\ device_log (dispatch w (Immediate args) (run_calls w before st))
     = device_log (run_calls w before st) ++ [dlin_command w args]
  /\ exists rest,
       device_log (run_calls w (before ++ Immediate args :: after) st)
       = device_log (run_calls w before st) ++ dlin_command w args :: rest.
Proof.
  assert (Hlog : device_log (dispatch w (Immediate args) (run_calls w before st))
                 = device_log (run_calls w before st) ++ [dlin_command w args]).
  { cbn [dispatch]. rewrite run_dlin_state. reflexivity. }
  split; [|split].
  - unfold forwarded. rewrite Hlog, length_app. apply Nat.ltb_lt. cbn. lia.
  - exact Hlog.
  - rewrite run_calls_app. cbn [run_calls fold_left].
    destruct (run_calls_log_grows w after
                (dispatch w (Immediate args) (run_calls w before st))) as [rest Hrest].
    exists rest. unfold run_calls in *. rewrite Hrest, Hlog.
    now rewrite <- app_assoc.
Qed.

(** C10.  Immediate commands leave the throttle alone: after any sequence
    of calls the timestamp is the one the throttled updates alone would have
    left, and every throttled update of the sequence is forwarded or dropped
    exactly as it is when the immediate commands are taken out. *)
Theorem immediate_calls_leave_throttle {num : Type} `{PyNum num} (w : World num)
    (cs : list Call) (st : State num) :
  _last_update_time (run_calls w cs st)
  = _last_update_time (run_calls w (filter is_knob cs) st)
  /\ filter (fun cf => is_knob (fst cf)) (fates w cs st)
     = fates w (filter is_knob cs) st.
Proof. now apply immediate_removed. Qed.

(** C4 (amended).  The timestamp is the time of the last accepted throttled
    update: a throttled dispatch either is dropped and leaves timestamp and
    device log as they were, or is accepted, and then the timestamp is the
    clock reading of that call and the command is handed to
    [subprocess.run]; in both cases the new state is the same whatever
    [subprocess.run] does, so a failed transmission keeps the timestamp of
    its own attempt. *)
Theorem timestamp_set_on_accept {num : Type} `{PyNum num}
    (dlin : string) (clock : nat -> num) (run run' : nat -> Outcome)
    (pkv_str : string) (st : State num) :
  let w := {| DLIN_CMD := dlin; time_time := clock; subprocess_run := run |} in
  let w' := {| DLIN_CMD := dlin; time_time := clock; subprocess_run := run' |} in
  let now := clock (clock_reads st) in
  run_dlin_knob w pkv_str st = run_dlin_knob w' pkv_str st
  /\ snd (run_dlin_knob w pkv_str st)
     = if flt (fmul (fsub now (_last_update_time st)) (of_int 1000))
              (of_int UPDATE_INTERVAL_MS)
       then {| _last_update_time := _last_update_time st;
               clock_reads := S (clock_reads st);
               device_log := device_log st |}
       else {| _last_update_time := now;
               clock_reads := S (clock_reads st);
               device_log := device_log st
                             ++ [["sudo"; dlin; "knob"; "-pkv"; pkv_str]] |}.
Proof.
  cbn zeta. split; [reflexivity|].
  unfold run_dlin_knob. cbn [time_time]. destruct (flt _ _); reflexivity.
Qed.

(** ** The throttle on any arithmetic *)

Section Burst.

Context {num : Type} `{PyNum num}.
Variable w : World num.
Variable c0 N : nat.

(** Two calls of the burst fewer than 15 calls apart are too close. *)
Hypothesis close :
  forall a k, (a < k < a + 15)%nat -> (k < N)%nat ->
              too_soon w (c0 + a) (c0 + k) = true.

Lemma burst_count (pkvs : list string) :
  forall (st : State num) (m a c : nat),
    (m + List.length pkvs <= N)%nat ->
    clock_reads st = (c0 + m)%nat ->
    _last_update_time st = time_time w (c0 + a) ->
    (a < m)%nat -> (15 * c <= a + 15)%nat ->
    exists a' c',
      (a' < m + List.length pkvs)%nat /\ (15 * c' <= a' + 15)%nat
      /\ List.length (device_log (run_calls w (map Knob pkvs) st))
         = (List.length (device_log st) + (c' - c))%nat
      /\ (c <= c')%nat.
Proof.
  induction pkvs as [|p pkvs IH]; intros st m a c HN Hc Ht Ha Hcnt.
  - exists a, c. cbn. repeat split; lia.
  - cbn [List.length] in HN. cbn [map run_calls fold_left dispatch].
    unfold run_dlin_knob. rewrite Hc, Ht.
    fold (too_soon w (c0 + a) (c0 + m)).
    destruct (too_soon w (c0 + a) (c0 + m)) eqn:Esoon; cbn [snd].
    + (* dropped *)
      destruct (IH {| _last_update_time := time_time w (c0 + a);
                      clock_reads := S (c0 + m);
                      device_log := device_log st |} (S m) a c)
        as (a' & c' & Ha' & Hc' & Hlen & Hle); try (cbn; lia); try reflexivity.
      exists a', c'. repeat split; cbn [List.length]; try lia.
      unfold run_calls in Hlen |- *. rewrite Hlen. reflexivity.
    + (* accepted: the call is at least 15 calls after the last accepted one *)
      assert (Hfar : (a + 15 <= m)%nat).
      { destruct (Nat.lt_ge_cases m (a + 15)) as [Hlt|]; [|assumption].
        rewrite close in Esoon by lia. discriminate. }
      destruct (IH {| _last_update_time := time_time w (c0 + m);
                      clock_reads := S (c0 + m);
                      device_log := device_log st
                                    ++ [dlin_command w ["knob"; "-pkv"; p]] |}
                   (S m) m (S c))
        as (a' & c' & Ha' & Hc' & Hlen & Hle); try (cbn; lia); try reflexivity.
      exists a', c'. repeat split; cbn [List.length]; try lia.
      unfold run_calls in Hlen |- *. rewrite Hlen. cbn [device_log].
      rewrite length_app. cbn [List.length]. lia.
Qed.

(** A burst that starts with an accepted call sends at most
    [ceil(N * 10 / 150)] commands. *)
Lemma burst_bound (p : string) (pkvs : list string) (st : State num) :
  N = List.length (p :: pkvs) ->
  clock_reads st = c0 ->
  forwarded w (Knob p) st = true ->
  (sent_count w (map Knob (p :: pkvs)) st <= ceil_div (N * 10) 150)%nat.
Proof.
  intros HN Hc Hfwd. unfold sent_count.
  cbn [map run_calls fold_left].
  assert (Hst : dispatch w (Knob p) st
                = {| _last_update_time := time_time w (c0 + 0);
                     clock_reads := S c0;
                     device_log := device_log st
                                   ++ [dlin_command w ["knob"; "-pkv"; p]] |}).
  { unfold forwarded in Hfwd. cbn [dispatch] in *. unfold run_dlin_knob in *.
    rewrite Hc in *. rewrite Nat.add_0_r.
    destruct (flt _ _); cbn [snd device_log] in *.
    - rewrite Nat.ltb_irrefl in Hfwd. discriminate.
    - reflexivity. }
  rewrite Hst.
  destruct (burst_count pkvs
              {| _last_update_time := time_time w (c0 + 0);
                 clock_reads := S c0;
                 device_log := device_log st
                               ++ [dlin_command w ["knob"; "-pkv"; p]] |} 1 0 1)
    as (a' & c' & Ha' & Hc' & Hlen & Hle); try (cbn; lia); try reflexivity.
  { rewrite HN. cbn [List.length]. lia. }
  unfold run_calls in Hlen. rewrite Hlen. cbn [device_log].
  rewrite length_app. cbn [List.length]. unfold ceil_div.
  assert (Hdiv : (c' <= (N * 10 + 150 - 1) / 150)%nat).
  { apply Nat.div_le_lower_bound; [lia|]. rewrite HN. cbn [List.length]. lia. }
  lia.
Qed.

End Burst.

(** ** The throttle over exact time *)

Section Throttle.

Variable w : World R.

Lemma real_knob_accept (pkv : string) (st : State R) :
  (150 <= (time_time w (clock_reads st) - _last_update_time st) * 1000)%R ->
  snd (run_dlin_knob w pkv st)
  = {| _last_update_time := time_time w (clock_reads st);
       clock_reads := S (clock_reads st);
       device_log := device_log st ++ [dlin_command w ["knob"; "-pkv"; pkv]] |}.
Proof.
  intros Hel. unfold run_dlin_knob. cbn [flt fmul fsub of_int real_num].
  rewrite Rltb_false by (unfold UPDATE_INTERVAL_MS; lra). reflexivity.
Qed.

Lemma real_knob_drop (pkv : string) (st : State R) :
  ((time_time w (clock_reads st) - _last_update_time st) * 1000 < 150)%R ->
  snd (run_dlin_knob w pkv st)
  = {| _last_update_time := _last_update_time st;
       clock_reads := S (clock_reads st);
       device_log := device_log st |}.
Proof.
  intros Hel. unfold run_dlin_knob. cbn [flt fmul fsub of_int real_num].
  rewrite Rltb_true by (unfold UPDATE_INTERVAL_MS; lra). reflexivity.
Qed.

Variable t0 : R.
Variable c0 N : nat.

(** The readings of the clock during the burst are 10 ms apart. *)
Hypothesis spaced :
  forall k, (k < N)%nat -> time_time w (c0 + k) = (t0 + INR k * (1 / 100))%R.

Lemma real_spaced_close (a k : nat) :
  (a < k < a + 15)%nat -> (k < N)%nat -> too_soon w (c0 + a) (c0 + k) = true.
Proof.
  intros Hak Hk. unfold too_soon. cbn [flt fmul fsub of_int real_num].
  rewrite !spaced by lia. apply Rltb_true. unfold UPDATE_INTERVAL_MS.
  assert (Hle : (k <= a + 14)%nat) by lia.
  apply le_INR in Hle. rewrite plus_INR in Hle.
  replace (INR 14) with 14%R in Hle by (cbn; lra). lra.
Qed.


End Throttle.

Lemma real_forwarded_iff (w : World R) (pkv : string) (st : State R) :
  forwarded w (Knob pkv) st = true
  <-> (150 <= (time_time w (clock_reads st) - _last_update_time st) * 1000)%R.
Proof.
  unfold forwarded. cbn [dispatch].
  destruct (Rle_dec 150 ((time_time w (clock_reads st) - _last_update_time st) * 1000))
    as [Hle|Hlt].
  - rewrite real_knob_accept by exact Hle. cbn [device_log]. rewrite length_app.
    split; [intros _; exact Hle | intros _; apply Nat.ltb_lt; cbn; lia].
  - rewrite real_knob_drop by lra. cbn [device_log]. rewrite Nat.ltb_irrefl.
    split; [discriminate | intros Hle; contradiction].
Qed.

(** C2.  [N >= 1] throttled calls whose clock readings are exactly 10 ms
    apart, the first one at least 150 ms after the stored timestamp: at most
    [ceil(N * 10 / 150)] of them reach [subprocess.run], the first one does,
    and in any state a throttled call is forwarded exactly when
    [(now - _last_update_time) * 1000 >= 150]; a call that is not forwarded
    changes neither the timestamp nor the device log. *)
Theorem throttled_burst (w : World R) (t0 : R) (st : State R)
    (p : string) (pkvs : list string) :
  let N := List.length (p :: pkvs) in
  (forall k, (k < N)%nat ->
             time_time w (clock_reads st + k) = (t0 + INR k * (1 / 100))%R) ->
  (150 <= (t0 - _last_update_time st) * 1000)%R ->
  (sent_count w (map Knob (p :: pkvs)) st <= ceil_div (N * 10) 150)%nat
  /\ forwarded w (Knob p) st = true
  /\ (forall (q : string) (s : State R),
        forwarded w (Knob q) s = true
        <-> (150 <= (time_time w (clock_reads s) - _last_update_time s) * 1000)%R)
  /\ (forall (q : string) (s : State R),
        forwarded w (Knob q) s = false ->
        _last_update_time (dispatch w (Knob q) s) = _last_update_time s
        /\ device_log (dispatch w (Knob q) s) = device_log s).
Proof.
  intros N Hspaced Hidle.
  assert (Hnow : time_time w (clock_reads st) = t0).
  { rewrite <- (Nat.add_0_r (clock_reads st)), Hspaced by (subst N; cbn; lia).
    cbn. lra. }
  assert (Hfirst : (150 <= (time_time w (clock_reads st) - _last_update_time st) * 1000)%R)
    by (rewrite Hnow; exact Hidle).
  split; [|split; [|split]].
  - apply (burst_bound w (clock_reads st) N
             (real_spaced_close w t0 (clock_reads st) N Hspaced) p pkvs st);
      [reflexivity | reflexivity |].
    apply real_forwarded_iff. exact Hfirst.
  - apply real_forwarded_iff. exact Hfirst.
  - intros q s. apply real_forwarded_iff.
  - intros q s Hdrop. cbn [dispatch].
    destruct (Rle_dec 150 ((time_time w (clock_reads s) - _last_update_time s) * 1000))
      as [Hle|Hlt].
    + apply real_forwarded_iff with (pkv := q) in Hle. congruence.
    + rewrite real_knob_drop by lra. split; reflexivity.
Qed.

Lemma throttled_burst_witness :
  (150 <= (5 - _last_update_time fresh_real_state) * 1000)%R
  /\ (sent_count burst_world (map Knob ("0f:2:1200" :: fifteen_more))
                 fresh_real_state
      <= ceil_div (List.length ("0f:2:1200" :: fifteen_more) * 10) 150)%nat
  /\ forwarded burst_world (Knob "0f:2:1200") fresh_real_state = true.
Proof.
  assert (Hidle : (150 <= (5 - _last_update_time fresh_real_state) * 1000)%R)
    by (cbn; lra).
  split; [exact Hidle|].
  destruct (throttled_burst burst_world 5 fresh_real_state "0f:2:1200"
              fifteen_more (fun k _ => eq_refl) Hidle) as (Hcount & Hfirst & _).
  split; [exact Hcount | exact Hfirst].
Defined.

(** ** The mapping over the reals *)

Lemma real_round_IZR (z : Z) : real_round (IZR z) = z.
Proof.
  unfold real_round. rewrite ZfloorZ.
  destruct (Rlt_dec (IZR z - IZR z) (1 / 2)); [reflexivity | lra].
Qed.

Lemma clamp_Z_bounds (v : Z) : (3 <= clamp v 3 7 <= 7)%Z.
Proof.
  unfold clamp, py_max, py_min. cbn [py_lt ord_Z].
  destruct (Z.ltb_spec v 7);
    [destruct (Z.ltb_spec 3 v) | destruct (Z.ltb_spec 3 7)]; lia.
Qed.

Lemma map_xy_profile_ext {num : Type} `{PyNum num} (n1 n2 : string) (x y b r : num) :
  get_profile_params (num := num) n1 = get_profile_params n2 ->
  map_xy_to_formants x y n1 b r = map_xy_to_formants x y n2 b r.
Proof. intros E. unfold map_xy_to_formants. rewrite E. reflexivity. Qed.

(** The seven tables meet the invariant of the catalog, and the first
    formant range lies below the second. *)
Lemma real_profile_ordered (name : string) :
  let prof := get_profile_params (num := R) name in
  (F1_min prof < F1_max prof)%R /\ (F1_max prof <= F2_min prof)%R
  /\ (F2_min prof < F2_max prof)%R
  /\ (F3_min prof < F3_max prof)%R /\ (F4_min prof < F4_max prof)%R.
Proof.
  unfold get_profile_params.
  repeat (match goal with |- context [if ?c then _ else _] => destruct c end);
    cbn; lra.
Qed.

(** Over the reals, for a coordinate in the unit square, any profile name
    and intensities in [0, 1], the mapping returns a parameter set with
    [F1 <= F2], both inside their ranges of the profile, and one resonance
    for the four formants, between 3 and 7; it is 3 when the resonance
    intensity is 0. *)
Lemma real_formants_within_ranges (name : string) (x y b r : R) :
  (0 <= x <= 1)%R -> (0 <= y <= 1)%R -> (0 <= b <= 1)%R -> (0 <= r <= 1)%R ->
  let prof := get_profile_params (num := R) name in
  exists p : VoiceParams R,
    map_xy_to_formants x y name b r = Ok p
    /\ (F1 p <= F2 p)%R
    /\ (F1_min prof <= F1 p <= F1_max prof)%R
    /\ (F2_min prof <= F2 p <= F2_max prof)%R
    /\ R1 p = R2 p /\ R2 p = R3 p /\ R3 p = R4 p
    /\ (3 <= R1 p <= 7)%Z
    /\ (r = 0%R -> R1 p = 3%Z).
Proof.
  intros Hx Hy Hb Hr prof.
  destruct (real_profile_ordered name) as (H1 & H12 & H2 & _ & _).
  fold prof in H1, H12, H2.
  unfold map_xy_to_formants. fold prof.
  cbn [py_round real_num rbind]. eexists. split; [reflexivity|].
  cbn [F1 F2 R1 R2 R3 R4 fadd fsub fmul real_num].
  repeat split; try nra; try apply clamp_Z_bounds.
  intros ->.
  replace (IZR 4 * 0 * _)%R with (IZR 0) by (cbn; lra).
  rewrite real_round_IZR. reflexivity.
Qed.

(** Over the reals, with brightness intensity 0 the two high formants sit
    at the midpoints of their ranges, whatever the coordinate: the
    re-centred [x' = clamp ((x - 0.5) * 0 + 0.5) 0 1] is 0.5. *)
Lemma real_zero_brightness (name : string) (x y r : R) :
  let prof := get_profile_params (num := R) name in
  exists p : VoiceParams R,
    map_xy_to_formants x y name 0%R r = Ok p
    /\ F3 p = ((F3_min prof + F3_max prof) / 2)%R
    /\ F4 p = ((F4_min prof + F4_max prof) / 2)%R
    /\ clamp ((x - 1 / 2) * 0 + 1 / 2)%R 0%R 1%R = (1 / 2)%R.
Proof.
  intros prof.
  assert (Hx' : clamp ((x - 1 / 2) * 0 + 1 / 2)%R 0%R 1%R = (1 / 2)%R)
    by (rewrite real_clamp_inside by lra; lra).
  unfold map_xy_to_formants. fold prof.
  cbn [py_round real_num rbind]. eexists. split; [reflexivity|].
  cbn [F3 F4 fadd fsub fmul fdiv of_int real_num lit].
  replace (IZR 5 / IZR (10 ^ Z.of_nat 1))%R with (1 / 2)%R by (cbn; lra).
  cbn [of_int real_num] in Hx'. rewrite Hx'.
  repeat split; lra.
Qed.

Lemma profile_params_unknown {num : Type} `{PyNum num} (name : string) :
  (forall k, In k profiles -> lower name <> lower k) ->
  get_profile_params (num := num) name = get_profile_params "Neutral".
Proof.
  intros Hunknown. unfold get_profile_params at 1.
  repeat match goal with
         | |- context [(lower name =? ?s)%string] =>
             destruct (String.eqb_spec (lower name) s) as [E|_];
             [ exfalso;
               first [ apply (Hunknown "Bass"); [cbn; tauto | exact E]
                     | apply (Hunknown "Baritone"); [cbn; tauto | exact E]
                     | apply (Hunknown "Tenor"); [cbn; tauto | exact E]
                     | apply (Hunknown "Alto"); [cbn; tauto | exact E]
                     | apply (Hunknown "Mezzo"); [cbn; tauto | exact E]
                     | apply (Hunknown "Soprano"); [cbn; tauto | exact E] ]
             | ]
         end.
  reflexivity.
Qed.

Lemma profile_params_ignore_case {num : Type} `{PyNum num} (name name' : string) :
  lower name = lower name' ->
  get_profile_params (num := num) name = get_profile_params name'.
Proof. intros E. unfold get_profile_params. rewrite E. reflexivity. Qed.

(** C7.  A name that equals none of the menu's names once both are
    lower-cased gets the parameter set of "Neutral"; a name that equals a
    menu name up to case gets the parameter set of that name. *)
Theorem unknown_profile_is_neutral {num : Type} `{PyNum num}
    (unknown known k : string) (x y b r : num) :
  (forall k', In k' profiles -> lower unknown <> lower k') ->
  In k profiles -> lower known = lower k ->
  map_xy_to_formants x y unknown b r = map_xy_to_formants x y "Neutral" b r
  /\ map_xy_to_formants x y known b r = map_xy_to_formants x y k b r.
Proof.
  intros Hunknown _ Hknown. split.
  - apply map_xy_profile_ext. now apply profile_params_unknown.
  - apply map_xy_profile_ext. now apply profile_params_ignore_case.
Qed.

Lemma countertenor_is_unknown :
  forall k', In k' profiles -> lower "Countertenor" <> lower k'.
Proof.
  intros k' Hin. cbn in Hin.
  repeat (destruct Hin as [<- | Hin]; [discriminate|]). contradiction.
Defined.

Lemma unknown_profile_is_neutral_witness :
  map_xy_to_formants 0.25%float 0.75%float "Countertenor" 0.7%float 0.5%float
  = map_xy_to_formants 0.25%float 0.75%float "Neutral" 0.7%float 0.5%float
  /\ map_xy_to_formants 0.25%float 0.75%float "tEnOr" 0.7%float 0.5%float
     = map_xy_to_formants 0.25%float 0.75%float "Tenor" 0.7%float 0.5%float.
Proof.
  apply (unknown_profile_is_neutral "Countertenor" "tEnOr" "Tenor").
  - exact countertenor_is_unknown.
  - cbn. tauto.
  - reflexivity.
Defined.

(** ** The updates of [apply_voice_from_xy] *)

Lemma run_dlin_knob_ok {num : Type} `{PyNum num} (w : World num)
    (pkv : string) (st : State num) :
  run_dlin_knob w pkv st = (Ok tt, dispatch w (Knob pkv) st).
Proof. cbn [dispatch]. unfold run_dlin_knob. destruct (flt _ _); reflexivity. Qed.

(** When no rounding raises, the call is a sequence of fourteen throttled
    updates; the last two carry the rounded tilt expressions. *)
Lemma apply_voice_updates {num : Type} `{PyNum num} (w : World num)
    (name : string) (x y b r : num) (st : State num) :
  fst (apply_voice_from_xy w name x y b r st) = Ok tt ->
  exists (first : list string) (bass treb : Z),
    List.length first = 12%nat
    /\ py_round (fadd (of_int 5)
                   (fmul (fmul (of_int 3) (fsub (of_int 1) x))
                         (fadd (lit 5 1) (fmul (lit 5 1) b)))) = Ok bass
    /\ py_round (fadd (of_int 4)
                   (fmul (fmul (of_int 4) x)
                         (fadd (lit 5 1) (fmul (lit 5 1) b)))) = Ok treb
    /\ snd (apply_voice_from_xy w name x y b r st)
       = run_calls w
           (map Knob (first ++ [("0o:1:" ++ str_int treb)%string;
                                ("0o:3:" ++ str_int bass)%string])) st.
Proof.
  unfold apply_voice_from_xy, ebind, lift.
  destruct (map_xy_to_formants x y name b r) as [params|e]; [|discriminate].
  destruct (hz_to_knob_value (F1 params)) as [kF1|e]; [|discriminate].
  destruct (hz_to_knob_value (F2 params)) as [kF2|e]; [|discriminate].
  destruct (hz_to_knob_value (F3 params)) as [kF3|e]; [|discriminate].
  destruct (hz_to_knob_value (F4 params)) as [kF4|e]; [|discriminate].
  rewrite !run_dlin_knob_ok.
  change (of_int (8 - 5)) with (of_int 3).
  change (of_int (8 - 4)) with (of_int 4).
  destruct (py_round (fadd (of_int 5) _)) as [bass|e]; [|discriminate].
  destruct (py_round (fadd (of_int 4) _)) as [treb|e]; [|discriminate].
  rewrite !run_dlin_knob_ok. intros _.
  eexists [_; _; _; _; _; _; _; _; _; _; _; _], bass, treb.
  repeat split; reflexivity.
Qed.

Lemma real_hz_to_knob_value (f : R) : exists k, hz_to_knob_value f = Ok k.
Proof.
  unfold hz_to_knob_value, hz_to_knob_value_gen.
  rewrite real_py_div by (cbn; lra). cbn [rbind py_round real_num].
  eexists. reflexivity.
Qed.

Lemma real_apply_voice_returns (w : World R) (name : string) (x y b r : R)
    (st : State R) :
  fst (apply_voice_from_xy w name x y b r st) = Ok tt.
Proof.
  unfold apply_voice_from_xy, ebind, lift.
  unfold map_xy_to_formants. cbn [py_round real_num rbind].
  cbn [F1 F2 F3 F4].
  repeat match goal with
         | |- context [hz_to_knob_value ?f] =>
             let k := fresh "k" in
             destruct (real_hz_to_knob_value f) as [k ->]
         end.
  rewrite !run_dlin_knob_ok. reflexivity.
Qed.

(** Over the reals, [apply_voice_from_xy] is a sequence of fourteen
    throttled updates of which the last two are the treble
    [round(4 + 4 x (0.5 + 0.5 b))] on knob [0o:1] and the bass
    [round(5 + 3 (1 - x) (0.5 + 0.5 b))] on knob [0o:3]; at full brightness
    intensity these are (bass 8, treble 4) at [x = 0] and (bass 5, treble 8)
    at [x = 1]. *)
Lemma real_tilt_outputs (w : World R) (name : string) (x y b r : R) (st : State R) :
  let bass := real_round (5 + 3 * (1 - x) * (5 / 10 + 5 / 10 * b))%R in
  let treb := real_round (4 + 4 * x * (5 / 10 + 5 / 10 * b))%R in
  (exists first : list string,
     List.length first = 12%nat
     /\ apply_voice_from_xy w name x y b r st
        = (Ok tt,
           run_calls w
             (map Knob (first ++ [("0o:1:" ++ str_int treb)%string;
                                  ("0o:3:" ++ str_int bass)%string])) st))
  /\ (real_round (5 + 3 * (1 - 0) * (5 / 10 + 5 / 10 * 1))%R = 8%Z
      /\ real_round (4 + 4 * 0 * (5 / 10 + 5 / 10 * 1))%R = 4%Z)
  /\ (real_round (5 + 3 * (1 - 1) * (5 / 10 + 5 / 10 * 1))%R = 5%Z
      /\ real_round (4 + 4 * 1 * (5 / 10 + 5 / 10 * 1))%R = 8%Z).
Proof.
  cbn zeta. split; [|split].
  - destruct (apply_voice_updates w name x y b r st
                (real_apply_voice_returns w name x y b r st))
      as (first & bass & treb & Hlen & Hbass & Htreb & Hst).
    exists first. split; [exact Hlen|].
    injection Hbass as <-. injection Htreb as <-.
    rewrite (surjective_pairing (apply_voice_from_xy w name x y b r st)).
    rewrite real_apply_voice_returns, Hst. reflexivity.
  - split; [replace (5 + 3 * (1 - 0) * (5 / 10 + 5 / 10 * 1))%R with (IZR 8) by lra
           | replace (4 + 4 * 0 * (5 / 10 + 5 / 10 * 1))%R with (IZR 4) by lra];
      apply real_round_IZR.
  - split; [replace (5 + 3 * (1 - 1) * (5 / 10 + 5 / 10 * 1))%R with (IZR 5) by lra
           | replace (4 + 4 * 1 * (5 / 10 + 5 / 10 * 1))%R with (IZR 8) by lra];
      apply real_round_IZR.
Qed.

(** ** Binary64: magnitudes

    Every operation of the mapping keeps its operands far below the
    overflow threshold; this is what makes [round] return. *)

Section Binary64.

Local Open Scope Z_scope.

(** *** Bit lengths *)

Lemma digits2_pos_log2 (p : positive) :
  Z.pos (digits2_pos p) = Z.log2 (Z.pos p) + 1.
Proof.
  induction p as [p IH|p IH|]; cbn [digits2_pos]; try reflexivity.
  - rewrite Pos2Z.inj_succ, IH.
    change (Z.pos p~1) with (2 * Z.pos p + 1). rewrite Z.log2_succ_double by lia. lia.
  - rewrite Pos2Z.inj_succ, IH.
    change (Z.pos p~0) with (2 * Z.pos p). rewrite Z.log2_double by lia. lia.
Qed.

Lemma Zdigits2_log2 (m : Z) : 0 < m -> Zdigits2 m = Z.log2 m + 1.
Proof. destruct m as [|p|p]; try lia. intros _. apply digits2_pos_log2. Qed.

Lemma Zdigits2_nonneg (m : Z) : 0 <= Zdigits2 m.
Proof. destruct m; cbn; lia. Qed.

Lemma Zdigits2_le (a b : Z) : 0 <= a <= b -> Zdigits2 a <= Zdigits2 b.
Proof.
  intros [Ha Hab]. destruct (Z.eq_dec a 0) as [->|Hna].
  - apply Zdigits2_nonneg.
  - rewrite !Zdigits2_log2 by lia. apply Z.add_le_mono_r, Z.log2_le_mono. lia.
Qed.

Lemma Zdigits2_succ (a : Z) : 0 <= a -> Zdigits2 (a + 1) <= Zdigits2 a + 1.
Proof.
  intros Ha. destruct (Z.eq_dec a 0) as [->|Hna]; [cbn; lia|].
  rewrite !Zdigits2_log2 by lia.
  pose proof (Z.log2_succ_le a) as Hs. rewrite <- Z.add_1_r in Hs. lia.
Qed.

Lemma Zdigits2_shiftr (m n : Z) :
  0 <= m -> 0 <= n -> Zdigits2 (m / 2 ^ n) <= Z.max 0 (Zdigits2 m - n).
Proof.
  intros Hm Hn. rewrite <- Z.shiftr_div_pow2 by lia.
  destruct (Z.eq_dec m 0) as [->|Hm0]; [rewrite Z.shiftr_0_l; cbn; lia|].
  destruct (Z.eq_dec (Z.shiftr m n) 0) as [->|Hs]; [cbn; lia|].
  assert (0 <= Z.shiftr m n) by (apply Z.shiftr_nonneg; lia).
  assert (n <= Z.log2 m).
  { destruct (Z_lt_le_dec (Z.log2 m) n) as [Hlt|]; [|assumption].
    exfalso. apply Hs. apply Z.shiftr_eq_0; lia. }
  rewrite !Zdigits2_log2 by lia. rewrite Z.log2_shiftr by lia. lia.
Qed.

Lemma shr_1_m (mrs : shr_record) :
  0 <= shr_m mrs -> shr_m (shr_1 mrs) = shr_m mrs / 2.
Proof.
  destruct mrs as [m r s]. cbn [shr_m]. intros Hm.
  destruct m as [|p|p]; [reflexivity | | lia].
  destruct p as [p|p|]; cbn [shr_1 shr_m].
  - change (Z.pos p~1) with (2 * Z.pos p + 1).
    apply Z.div_unique with (r := 1); lia.
  - change (Z.pos p~0) with (2 * Z.pos p).
    apply Z.div_unique with (r := 0); lia.
  - reflexivity.
Qed.

Lemma iter_pos_shr_1_m (n : positive) :
  forall mrs, 0 <= shr_m mrs ->
              shr_m (SpecFloat.iter_pos shr_1 n mrs) = shr_m mrs / 2 ^ Z.pos n.
Proof.
  induction n as [n IH|n IH|]; intros mrs Hm; cbn [SpecFloat.iter_pos].
  - assert (H1 : 0 <= shr_m (shr_1 mrs)) by (rewrite shr_1_m by lia; apply Z.div_pos; lia).
    assert (H2 : 0 <= shr_m (SpecFloat.iter_pos shr_1 n (shr_1 mrs)))
      by (rewrite IH by lia; apply Z.div_pos; lia).
    rewrite IH by lia. rewrite IH by lia. rewrite shr_1_m by lia.
    rewrite !Z.div_div by lia. f_equal.
    replace (Z.pos n~1) with (Z.pos n + Z.pos n + 1) by lia.
    rewrite !Z.pow_add_r by lia. ring.
  - assert (H2 : 0 <= shr_m (SpecFloat.iter_pos shr_1 n mrs))
      by (rewrite IH by lia; apply Z.div_pos; lia).
    rewrite IH by lia. rewrite IH by lia.
    rewrite !Z.div_div by lia. f_equal.
    replace (Z.pos n~0) with (Z.pos n + Z.pos n) by lia.
    rewrite Z.pow_add_r by lia. reflexivity.
  - rewrite shr_1_m by lia. reflexivity.
Qed.

Lemma shr_record_of_loc_m (m : Z) (l : location) :
  shr_m (shr_record_of_loc m l) = m.
Proof. destruct l as [|[| |]]; reflexivity. Qed.

(** Shifting the mantissa to the precision of the format does not raise the
    position of the leading bit, except up to the smallest exponent. *)
Lemma shr_fexp_bound (m e : Z) (l : location) :
  0 <= m ->
  0 <= shr_m (fst (shr_fexp prec emax m e l))
  /\ snd (shr_fexp prec emax m e l) <= Z.max e (fexp prec emax (Zdigits2 m + e))
  /\ Zdigits2 (shr_m (fst (shr_fexp prec emax m e l))) + snd (shr_fexp prec emax m e l)
     <= Z.max (Zdigits2 m + e) (fexp prec emax (Zdigits2 m + e)).
Proof.
  intros Hm. unfold shr_fexp, shr.
  destruct (fexp prec emax (Zdigits2 m + e) - e) as [|p|p] eqn:En;
    cbn [fst snd]; rewrite ?shr_record_of_loc_m.
  - lia.
  - rewrite iter_pos_shr_1_m by (rewrite shr_record_of_loc_m; lia).
    rewrite shr_record_of_loc_m.
    pose proof (Zdigits2_shiftr m (Z.pos p) Hm ltac:(lia)).
    split; [apply Z.div_pos; lia | lia].
  - lia.
Qed.

Lemma round_nearest_even_bound (m : Z) (l : location) :
  0 <= m -> m <= round_nearest_even m l <= m + 1.
Proof.
  intros Hm. destruct l as [|[| |]]; cbn; try lia. destruct (Z.even m); lia.
Qed.

(** Rounding to nearest moves the leading bit up by at most one position:
    a mantissa of all ones rounds to the next power of two. *)
Lemma binary_round_aux_mag (s : bool) (m e : Z) (l : location) (B : Z) :
  0 <= m -> e <= 971 -> Zdigits2 m + e <= B -> -1074 <= B -> B + 1 <= 1024 ->
  mag_le (B + 1) (binary_round_aux prec emax s m e l).
Proof.
  intros Hm He Hd HB0 HB1. unfold binary_round_aux.
  pose proof (shr_fexp_bound m e l Hm) as (H1 & H2 & H3).
  destruct (shr_fexp prec emax m e l) as [mrs' e'] eqn:E1. cbn [fst snd] in *.
  set (m2 := round_nearest_even (shr_m mrs') (loc_of_shr_record mrs')).
  pose proof (round_nearest_even_bound (shr_m mrs') (loc_of_shr_record mrs') H1) as Hr.
  fold m2 in Hr.
  assert (Hm2 : 0 <= m2) by lia.
  pose proof (shr_fexp_bound m2 e' loc_Exact Hm2) as (H4 & H5 & H6).
  destruct (shr_fexp prec emax m2 e' loc_Exact) as [mrs'' e''] eqn:E2. cbn [fst snd] in *.
  assert (Hd2 : Zdigits2 m2 <= Zdigits2 (shr_m mrs') + 1).
  { etransitivity; [apply Zdigits2_le; split; [exact Hm2 | apply Hr] |].
    apply Zdigits2_succ; lia. }
  unfold fexp, SpecFloat.emin, prec, emax in *.
  destruct (shr_m mrs'') as [|p|p] eqn:Em; [exact I | | lia].
  cbn [Zdigits2] in H6.
  destruct (Z.leb_spec e'' (1024 - 53)); cbn [mag_le]; lia.
Qed.

Lemma mag_le_weaken (B B' : Z) (f : spec_float) :
  mag_le B f -> B <= B' -> mag_le B' f.
Proof. destruct f; cbn; auto; lia. Qed.

Lemma digits2_pos_mul (a b : positive) :
  Z.pos (digits2_pos (a * b)) <= Z.pos (digits2_pos a) + Z.pos (digits2_pos b).
Proof.
  rewrite !digits2_pos_log2. rewrite Pos2Z.inj_mul.
  pose proof (Z.log2_mul_above (Z.pos a) (Z.pos b) ltac:(lia) ltac:(lia)). lia.
Qed.

(** *** Products, sums, differences and quotients *)

Lemma SFmul_mag (fx fy : spec_float) (Bx By : Z) :
  mag_le Bx fx -> mag_le By fy -> 0 <= Bx -> 0 <= By -> Bx + By <= 970 ->
  mag_le (Bx + By + 1) (SFmul prec emax fx fy).
Proof.
  intros Hx Hy HBx HBy HB.
  destruct fx as [sx|sx| |sx mx ex]; destruct fy as [sy|sy| |sy my ey];
    cbn [mag_le SFmul] in *; try exact I; try contradiction.
  pose proof (digits2_pos_mul mx my) as Hd.
  assert (0 < Z.pos (digits2_pos mx)) by lia.
  assert (0 < Z.pos (digits2_pos my)) by lia.
  apply binary_round_aux_mag; cbn [Zdigits2]; lia.
Qed.

Lemma pos_iter_xO (m d : positive) :
  Z.pos (Pos.iter xO m d) = Z.pos m * 2 ^ Z.pos d.
Proof.
  induction d as [|d IH] using Pos.peano_ind.
  - cbn. lia.
  - rewrite Pos.iter_succ. rewrite Pos2Z.inj_succ, Z.pow_succ_r by lia.
    change (Z.pos (Pos.iter xO m d)~0) with (2 * Z.pos (Pos.iter xO m d)).
    rewrite IH. ring.
Qed.

Lemma shl_align_digits (m : positive) (e e0 : Z) :
  Z.pos (digits2_pos (fst (shl_align m e e0))) + snd (shl_align m e e0)
  = Z.pos (digits2_pos m) + e
  /\ snd (shl_align m e e0) <= e.
Proof.
  unfold shl_align. destruct (e0 - e) as [|d|d] eqn:Ed; cbn [fst snd]; try lia.
  rewrite !digits2_pos_log2, pos_iter_xO.
  rewrite Z.log2_mul_pow2 by lia. lia.
Qed.

Lemma binary_round_mag (s : bool) (p : positive) (e B : Z) :
  e <= 971 -> Z.pos (digits2_pos p) + e <= B -> -1074 <= B -> B + 1 <= 1024 ->
  mag_le (B + 1) (binary_round prec emax s p e).
Proof.
  intros He Hd HB0 HB1. unfold binary_round.
  pose proof (shl_align_digits p e (fexp prec emax (Z.pos (digits2_pos p) + e)))
    as [Hs1 Hs2].
  destruct (shl_align p e _) as [mz ez]. cbn [fst snd] in *.
  apply binary_round_aux_mag; cbn [Zdigits2]; lia.
Qed.

Lemma binary_normalize_mag (m e B : Z) (sz : bool) :
  e <= 971 -> Zdigits2 m + e <= B -> -1074 <= B -> B + 1 <= 1024 ->
  mag_le (B + 1) (binary_normalize prec emax m e sz).
Proof.
  intros He Hd HB0 HB1. destruct m as [|p|p]; cbn [binary_normalize];
    [exact I | |]; apply binary_round_mag; cbn [Zdigits2] in Hd; lia.
Qed.

Lemma Zdigits2_abs (m : Z) : Zdigits2 m = Zdigits2 (Z.abs m).
Proof. destruct m; reflexivity. Qed.

Lemma Zdigits2_double (c : Z) : 0 < c -> Zdigits2 (2 * c) = Zdigits2 c + 1.
Proof.
  intros Hc. rewrite !Zdigits2_log2 by lia. rewrite Z.log2_double by lia. lia.
Qed.

Lemma Zdigits2_sum (m a b : Z) :
  0 < a -> 0 < b -> Z.abs m <= a + b ->
  Zdigits2 m <= Z.max (Zdigits2 a) (Zdigits2 b) + 1.
Proof.
  intros Ha Hb Hm. rewrite (Zdigits2_abs m).
  etransitivity; [apply (Zdigits2_le _ (2 * Z.max a b)); lia|].
  rewrite Zdigits2_double by lia.
  destruct (Z.max_spec a b) as [[_ ->]|[_ ->]]; lia.
Qed.

Lemma aligned_sum_mag (sx sy : bool) (mx my : positive) (ex ey : Z)
    (f : Z -> Z -> Z) (Bx By : Z) :
  (forall a b, Z.abs (f a b) <= Z.abs a + Z.abs b) ->
  Z.pos (digits2_pos mx) + ex <= Bx -> Z.pos (digits2_pos my) + ey <= By ->
  0 <= Bx -> 0 <= By -> Z.max Bx By <= 968 ->
  mag_le (Z.max Bx By + 2)
    (binary_normalize prec emax
       (f (cond_Zopp sx (Z.pos (fst (shl_align mx ex (Z.min ex ey)))))
          (cond_Zopp sy (Z.pos (fst (shl_align my ey (Z.min ex ey))))))
       (Z.min ex ey) false).
Proof.
  intros Hf Hx Hy HBx HBy HB.
  pose proof (shl_align_digits mx ex (Z.min ex ey)) as [Hx1 Hx2].
  pose proof (shl_align_digits my ey (Z.min ex ey)) as [Hy1 Hy2].
  assert (Hex : snd (shl_align mx ex (Z.min ex ey)) = Z.min ex ey).
  { unfold shl_align. destruct (Z.min ex ey - ex) eqn:E; cbn; lia. }
  assert (Hey : snd (shl_align my ey (Z.min ex ey)) = Z.min ex ey).
  { unfold shl_align. destruct (Z.min ex ey - ey) eqn:E; cbn; lia. }
  set (a := fst (shl_align mx ex (Z.min ex ey))) in *.
  set (b := fst (shl_align my ey (Z.min ex ey))) in *.
  replace (Z.max Bx By + 2) with (Z.max Bx By + 1 + 1) by lia.
  assert (0 < Z.pos (digits2_pos mx)) by lia.
  apply binary_normalize_mag; try lia.
  pose proof (Zdigits2_sum (f (cond_Zopp sx (Z.pos a)) (cond_Zopp sy (Z.pos b)))
                (Z.pos a) (Z.pos b) ltac:(lia) ltac:(lia)) as Hs.
  cbn [Zdigits2] in Hs.
  assert (Z.abs (f (cond_Zopp sx (Z.pos a)) (cond_Zopp sy (Z.pos b))) <= Z.pos a + Z.pos b).
  { etransitivity; [apply Hf|]. destruct sx, sy; cbn; lia. }
  lia.
Qed.

Lemma SFadd_mag (fx fy : spec_float) (Bx By : Z) :
  mag_le Bx fx -> mag_le By fy -> 0 <= Bx -> 0 <= By -> Z.max Bx By <= 968 ->
  mag_le (Z.max Bx By + 2) (SFadd prec emax fx fy).
Proof.
  intros Hx Hy HBx HBy HB.
  destruct fx as [sx|sx| |sx mx ex]; destruct fy as [sy|sy| |sy my ey];
    cbn [mag_le SFadd] in *; try contradiction.
  - destruct sx, sy; exact I.
  - lia.
  - lia.
  - apply (aligned_sum_mag sx sy mx my ex ey Z.add); try assumption. intros; lia.
Qed.

Lemma SFsub_mag (fx fy : spec_float) (Bx By : Z) :
  mag_le Bx fx -> mag_le By fy -> 0 <= Bx -> 0 <= By -> Z.max Bx By <= 968 ->
  mag_le (Z.max Bx By + 2) (SFsub prec emax fx fy).
Proof.
  intros Hx Hy HBx HBy HB.
  destruct fx as [sx|sx| |sx mx ex]; destruct fy as [sy|sy| |sy my ey];
    cbn [mag_le SFsub] in *; try contradiction.
  - destruct sx, sy; exact I.
  - lia.
  - lia.
  - apply (aligned_sum_mag sx sy mx my ex ey Z.sub); try assumption. intros; lia.
Qed.

(** *** On primitive floats *)

Lemma fmag_weaken (B B' : Z) (x : float) : fmag B x -> B <= B' -> fmag B' x.
Proof. apply mag_le_weaken. Qed.

Lemma fmag_mul (Bx By : Z) (x y : float) :
  fmag Bx x -> fmag By y -> 0 <= Bx -> 0 <= By -> Bx + By <= 970 ->
  fmag (Bx + By + 1) (x * y)%float.
Proof. unfold fmag. rewrite mul_spec. apply SFmul_mag. Qed.

Lemma fmag_add (Bx By : Z) (x y : float) :
  fmag Bx x -> fmag By y -> 0 <= Bx -> 0 <= By -> Z.max Bx By <= 968 ->
  fmag (Z.max Bx By + 2) (x + y)%float.
Proof. unfold fmag. rewrite add_spec. apply SFadd_mag. Qed.

Lemma fmag_sub (Bx By : Z) (x y : float) :
  fmag Bx x -> fmag By y -> 0 <= Bx -> 0 <= By -> Z.max Bx By <= 968 ->
  fmag (Z.max Bx By + 2) (x - y)%float.
Proof. unfold fmag. rewrite sub_spec. apply SFsub_mag. Qed.

(** [round] returns on every finite float. *)
Lemma float_round_defined (B : Z) (v : float) :
  fmag B v -> exists z, float_round v = Ok z.
Proof.
  unfold fmag, float_round. destruct (Prim2SF v); cbn [mag_le];
    try contradiction; intros _; eexists; reflexivity.
Qed.

(** A float between 0 and a normal positive constant has at most the
    magnitude of the constant. *)
Lemma fmag_between (x c : float) (mc : positive) (ec : Z) :
  Prim2SF c = S754_finite false mc ec -> Z.pos (digits2_pos mc) = 53 ->
  (0 <=? x)%float = true -> (x <=? c)%float = true ->
  fmag (53 + ec) x.
Proof.
  intros Hc Hmc H0 Hx. unfold fmag.
  rewrite leb_spec in H0, Hx. rewrite Hc in Hx.
  pose proof (Prim2SF_valid x) as Hv.
  change (Prim2SF 0) with (S754_zero false) in H0.
  destruct (Prim2SF x) as [s|s| |s m e]; cbn [mag_le].
  - exact I.
  - destruct s; discriminate.
  - discriminate.
  - destruct s; [discriminate H0|].
    unfold SFleb, SFcompare in Hx.
    cbn [valid_binary] in Hv. unfold SpecFloat.bounded, canonical_mantissa in Hv.
    apply andb_prop in Hv as [Hcan _]. apply Z.eqb_eq in Hcan.
    unfold fexp, SpecFloat.emin, prec, emax in Hcan.
    destruct (Z.compare_spec e ec) as [E|E|E].
    + lia.
    + lia.
    + discriminate Hx.
Qed.

Lemma ltb_leb (a b : float) : (a <? b)%float = true -> (a <=? b)%float = true.
Proof.
  rewrite ltb_spec, leb_spec. unfold SFltb, SFleb.
  destruct (SFcompare _ _) as [[| |]|]; easy.
Qed.

(** [clamp v 0 1] lies between 0 and 1, whatever [v]. *)
Lemma float_clamp_unit (v : float) :
  (0 <=? clamp v 0 1)%float = true /\ (clamp v 0 1 <=? 1)%float = true.
Proof.
  unfold clamp, py_max, py_min. cbn [py_lt ord_num flt float_num].
  destruct (v <? 1)%float eqn:E1.
  - destruct (0 <? v)%float eqn:E0.
    + split; apply ltb_leb; assumption.
    + split; reflexivity.
  - split; reflexivity.
Qed.

Lemma fmag_unit (x : float) : in_unit x -> fmag 1 x.
Proof.
  intros [H0 H1].
  exact (fmag_between x 1 4503599627370496 (-52) eq_refl eq_refl H0 H1).
Qed.

(** The bound of a constant, by evaluation. *)
Lemma fmag_const (c : float) (B : Z) :
  match Prim2SF c with
  | S754_zero _ => true
  | S754_finite _ m e => (Z.pos (digits2_pos m) + e <=? B)
  | _ => false
  end = true ->
  fmag B c.
Proof.
  unfold fmag. destruct (Prim2SF c); cbn [mag_le]; try discriminate; auto.
  intros H. now apply Z.leb_le.
Qed.

(** [fm e] adds to the context a bound [fmag B e] for the expression [e],
    built from the bounds of its operands: hypotheses of the context for
    the variables, evaluation for the constants. *)
Ltac fm e :=
  lazymatch goal with
  | H : fmag _ e |- _ => idtac
  | _ =>
    lazymatch e with
    | PrimFloat.mul ?a ?b =>
        fm a; fm b;
        lazymatch goal with
        | Ha : fmag ?Ba a, Hb : fmag ?Bb b |- _ =>
            let B := eval cbv in (Ba + Bb + 1)%Z in
            assert (fmag B e) by (apply (fmag_mul Ba Bb a b Ha Hb); lia)
        end
    | PrimFloat.add ?a ?b =>
        fm a; fm b;
        lazymatch goal with
        | Ha : fmag ?Ba a, Hb : fmag ?Bb b |- _ =>
            let B := eval cbv in (Z.max Ba Bb + 2)%Z in
            assert (fmag B e) by (apply (fmag_add Ba Bb a b Ha Hb); lia)
        end
    | PrimFloat.sub ?a ?b =>
        fm a; fm b;
        lazymatch goal with
        | Ha : fmag ?Ba a, Hb : fmag ?Bb b |- _ =>
            let B := eval cbv in (Z.max Ba Bb + 2)%Z in
            assert (fmag B e) by (apply (fmag_sub Ba Bb a b Ha Hb); lia)
        end
    | _ =>
        let B := eval vm_compute in (mag_of (Prim2SF e)) in
        assert (fmag B e) by (apply fmag_const; vm_compute; reflexivity)
    end
  end.

(** *** The mapping returns *)

(**     On the unit interval no operand becomes infinite or a NaN, so the three
    calls of [round] return; the resonance is the same clamped integer for
    the four formants. *)
Lemma float_map_returns (name : string) (x y b r : float) :
  in_unit x -> in_unit y -> in_unit b -> in_unit r ->
  exists p : VoiceParams float,
    map_xy_to_formants x y name b r = Ok p
    /\ R1 p = R2 p /\ R2 p = R3 p /\ R3 p = R4 p /\ (3 <= R1 p <= 7)%Z.
Proof.
  intros Hx Hy Hb Hr.
  apply fmag_unit in Hx, Hy, Hb, Hr.
  unfold map_xy_to_formants.
  set (prof := get_profile_params name).
  set (xc := clamp _ (of_int 0) (of_int 1)).
  assert (Hxc : fmag 1 xc) by (apply fmag_unit, float_clamp_unit).
  cbn [py_round fadd fsub fmul float_num].
  match goal with |- context [float_round ?a] => fm a end.
  match goal with H : fmag ?B ?a |- context [float_round ?a] =>
    destruct (float_round_defined B a H) as [l3 ->] end.
  cbn [rbind].
  match goal with |- context [float_round ?a] => fm a end.
  match goal with H : fmag ?B ?a |- context [float_round ?a] =>
    destruct (float_round_defined B a H) as [l4 ->] end.
  cbn [rbind].
  match goal with |- context [float_round ?a] => fm a end.
  match goal with H : fmag ?B ?a |- context [float_round ?a] =>
    destruct (float_round_defined B a H) as [er ->] end.
  cbn [rbind].
  eexists. split; [reflexivity|]. cbn [R1 R2 R3 R4].
  repeat split; try apply clamp_Z_bounds.
Qed.

(** *** Zero intensities *)

Lemma float_mul_zero_r (B : Z) (a z : float) :
  fmag B a -> is_zero_sf (Prim2SF z) -> is_zero_sf (Prim2SF (a * z)%float).
Proof.
  unfold fmag. rewrite mul_spec. unfold SF64mul.
  destruct (Prim2SF a); destruct (Prim2SF z); cbn; intros Ha Hz;
    try contradiction; exact I.
Qed.

Lemma float_mul_zero_l (B : Z) (a z : float) :
  fmag B a -> is_zero_sf (Prim2SF z) -> is_zero_sf (Prim2SF (z * a)%float).
Proof.
  unfold fmag. rewrite mul_spec. unfold SF64mul.
  destruct (Prim2SF a); destruct (Prim2SF z); cbn; intros Ha Hz;
    try contradiction; exact I.
Qed.

Lemma float_add_zero_r (c z : float) (s : bool) (m : positive) (e : Z) :
  Prim2SF c = S754_finite s m e -> is_zero_sf (Prim2SF z) -> (c + z)%float = c.
Proof.
  intros Hc Hz. apply Prim2SF_inj. rewrite add_spec, Hc. unfold SF64add.
  destruct (Prim2SF z); cbn in *; try contradiction. reflexivity.
Qed.

Lemma float_add_zero_l (c z : float) (s : bool) (m : positive) (e : Z) :
  Prim2SF c = S754_finite s m e -> is_zero_sf (Prim2SF z) -> (z + c)%float = c.
Proof.
  intros Hc Hz. apply Prim2SF_inj. rewrite add_spec, Hc. unfold SF64add.
  destruct (Prim2SF z); cbn in *; try contradiction. reflexivity.
Qed.

Lemma float_round_zero (z : float) : is_zero_sf (Prim2SF z) -> float_round z = Ok 0%Z.
Proof. unfold float_round. destruct (Prim2SF z); cbn; try contradiction. reflexivity. Qed.

(** With brightness intensity 0 the re-centred coordinate is 0.5. *)
Lemma float_x_centered_pinned (x : float) :
  in_unit x ->
  clamp ((x - 0.5) * 0 + 0.5)%float 0%float 1%float = 0.5%float.
Proof.
  intros Hx. apply fmag_unit in Hx.
  fm (x - 0.5)%float.
  match goal with H : fmag ?B (x - 0.5)%float |- _ =>
    pose proof (float_mul_zero_r B (x - 0.5)%float 0%float H I) as Hz end.
  rewrite (float_add_zero_l 0.5%float _ false 4503599627370496 (-53) eq_refl Hz).
  reflexivity.
Qed.

(** The table of any name is one of the seven. *)
Lemma float_profile_cases (name : string) :
  In (get_profile_params (num := float) name)
     (map (get_profile_params (num := float)) profiles).
Proof.
  unfold get_profile_params at 1.
  repeat match goal with
         | |- context [if ?c then _ else _] => destruct c
         end; cbn; tauto.
Qed.

(** For the seven tables [min + (max - min) * 0.5] and [(min + max) / 2] are
    the same float: the entries are integers, the operations are exact. *)
Lemma float_midpoints (name : string) :
  let prof := get_profile_params (num := float) name in
  (F3_min prof + (F3_max prof - F3_min prof) * 0.5
   = (F3_min prof + F3_max prof) / 2)%float
  /\ (F4_min prof + (F4_max prof - F4_min prof) * 0.5
      = (F4_min prof + F4_max prof) / 2)%float.
Proof.
  cbn zeta. pose proof (float_profile_cases name) as Hin.
  cbn [map profiles] in Hin.
  repeat (destruct Hin as [<- | Hin]; [split; vm_compute; reflexivity|]).
  contradiction.
Qed.

(** With brightness intensity 0 the high formants are the midpoints of
    their ranges. *)
Lemma float_brightness_zero (name : string) (x y r : float) :
  in_unit x -> in_unit y -> in_unit r ->
  let prof := get_profile_params (num := float) name in
  exists p : VoiceParams float,
    map_xy_to_formants x y name 0%float r = Ok p
    /\ F3 p = ((F3_min prof + F3_max prof) / 2)%float
    /\ F4 p = ((F4_min prof + F4_max prof) / 2)%float.
Proof.
  intros Hx Hy Hr prof.
  destruct (float_map_returns name x y 0%float r Hx Hy (conj eq_refl eq_refl) Hr)
    as (p & Hp & _).
  exists p. split; [exact Hp|].
  unfold map_xy_to_formants in Hp. fold prof in Hp.
  change (lit 5 1) with 0.5%float in Hp.
  change (of_int 0) with 0%float in Hp. change (of_int 1) with 1%float in Hp.
  cbn [fadd fsub fmul float_num] in Hp.
  rewrite (float_x_centered_pinned x Hx) in Hp.
  destruct (py_round _) as [l3|] in Hp; [|discriminate].
  destruct (py_round _) as [l4|] in Hp; [|discriminate].
  destruct (py_round _) as [er|] in Hp; [|discriminate].
  cbn [rbind] in Hp. injection Hp as <-. cbn [F3 F4].
  apply float_midpoints.
Qed.

(** With resonance intensity 0 the resonance is 3. *)
Lemma float_zero_resonance (name : string) (x y b : float) :
  in_unit x -> in_unit y -> in_unit b ->
  exists p : VoiceParams float,
    map_xy_to_formants x y name b 0%float = Ok p /\ R1 p = 3%Z.
Proof.
  intros Hx Hy Hb.
  destruct (float_map_returns name x y b 0%float Hx Hy Hb (conj eq_refl eq_refl))
    as (p & Hp & _).
  exists p. split; [exact Hp|].
  apply fmag_unit in Hx, Hy.
  unfold map_xy_to_formants in Hp.
  destruct (py_round _) as [l3|] in Hp; [|discriminate].
  destruct (py_round _) as [l4|] in Hp; [|discriminate].
  cbn [rbind py_round float_num fadd fmul] in Hp.
  change (lit 5 1) with 0.5%float in Hp.
  change (of_int 4 * 0)%float with 0%float in Hp.
  fm (0.5 * x + 0.5 * y)%float.
  match type of Hp with context [float_round (0 * ?en)%float] =>
    match goal with H : fmag ?B en |- _ =>
      rewrite (float_round_zero _ (float_mul_zero_l B en 0%float H I)) in Hp end end.
  cbn [rbind] in Hp. injection Hp as <-. reflexivity.
Qed.

(** *** The knob values and the tilt *)

Lemma Zdigits2_quotient (a b : Z) :
  0 <= a -> 0 < b -> Zdigits2 (a / b) <= Z.max 0 (Zdigits2 a - Zdigits2 b + 1).
Proof.
  intros Ha Hb. destruct (Z.eq_dec (a / b) 0) as [->|Hq]; [cbn; lia|].
  assert (Hq0 : 0 < a / b) by (pose proof (Z.div_pos a b Ha Hb); lia).
  assert (Hmul : b * (a / b) <= a) by (apply Z.mul_div_le; lia).
  assert (0 < a) by nia.
  rewrite !Zdigits2_log2 by lia.
  pose proof (Z.log2_mul_below b (a / b) Hb Hq0) as Hbelow.
  pose proof (Z.log2_le_mono _ _ Hmul). lia.
Qed.

Lemma SFdiv_mag (fx : spec_float) (sy : bool) (my : positive) (ey : Z) (Bx Ly : Z) :
  mag_le Bx fx -> Ly <= Z.pos (digits2_pos my) + ey ->
  -1000 <= Bx - Ly -> Bx - Ly <= 1000 ->
  mag_le (Bx - Ly + 2) (SFdiv prec emax fx (S754_finite sy my ey)).
Proof.
  intros Hx HLy Hlo Hhi.
  destruct fx as [sx|sx| |sx mx ex]; cbn [mag_le SFdiv] in *; try exact I; try contradiction.
  unfold SFdiv_core_binary. cbn [Zdigits2].
  set (d1 := Z.pos (digits2_pos mx)) in *. set (d2 := Z.pos (digits2_pos my)) in *.
  set (e' := Z.min (fexp prec emax (d1 + ex - (d2 + ey))) (ex - ey)).
  assert (He' : e' <= ex - ey) by (subst e'; lia).
  assert (He'' : e' <= fexp prec emax (d1 + ex - (d2 + ey))) by (subst e'; lia).
  unfold fexp, SpecFloat.emin, prec, emax in He''.
  set (m' := match ex - ey - e' with
             | 0 => Z.pos mx
             | Z.pos _ => Z.shiftl (Z.pos mx) (ex - ey - e')
             | Z.neg _ => 0
             end).
  assert (Hm' : 0 < m' /\ Zdigits2 m' = d1 + (ex - ey - e')).
  { subst m'. destruct (ex - ey - e') as [|p|p] eqn:Es; [cbn; lia | | lia].
    rewrite Z.shiftl_mul_pow2 by lia. split; [lia|].
    rewrite Zdigits2_log2 by lia. rewrite Z.log2_mul_pow2 by lia.
    subst d1. rewrite digits2_pos_log2. lia. }
  pose proof (Zdigits2_quotient m' (Z.pos my) ltac:(lia) ltac:(lia)) as Hq.
  cbn [Zdigits2] in Hq. fold d2 in Hq.
  assert (Hq0 : 0 <= m' / Z.pos my) by (apply Z.div_pos; lia).
  unfold Z.div in Hq, Hq0.
  destruct (Z.div_eucl m' (Z.pos my)) as [q r].
  replace (Bx - Ly + 2) with (Bx - Ly + 1 + 1) by lia.
  apply binary_round_aux_mag; lia.
Qed.

Lemma fmag_div (Bx : Z) (x c : float) (sc : bool) (mc : positive) (ec : Z) :
  Prim2SF c = S754_finite sc mc ec -> fmag Bx x ->
  -1000 <= Bx - (Z.pos (digits2_pos mc) + ec) ->
  Bx - (Z.pos (digits2_pos mc) + ec) <= 1000 ->
  fmag (Bx - (Z.pos (digits2_pos mc) + ec) + 2) (x / c)%float.
Proof.
  intros Hc Hx Hlo Hhi. unfold fmag. rewrite div_spec, Hc.
  apply SFdiv_mag; try assumption. lia.
Qed.

(** A clamp between two constants stays between them. *)
Lemma float_clamp_range (v lo hi : float) :
  (lo <=? lo)%float = true -> (lo <=? hi)%float = true -> (hi <=? hi)%float = true ->
  (lo <=? clamp v lo hi)%float = true /\ (clamp v lo hi <=? hi)%float = true.
Proof.
  intros Hll Hlh Hhh.
  unfold clamp, py_max, py_min. cbn [py_lt ord_num flt float_num].
  destruct (v <? hi)%float eqn:E1.
  - destruct (lo <? v)%float eqn:E0.
    + split; apply ltb_leb; assumption.
    + split; assumption.
  - destruct (lo <? hi)%float eqn:E0; split; assumption.
Qed.

Lemma fmag_between_pos (x lo c : float) (ml mc : positive) (el ec : Z) :
  Prim2SF lo = S754_finite false ml el ->
  Prim2SF c = S754_finite false mc ec -> Z.pos (digits2_pos mc) = 53 ->
  (lo <=? x)%float = true -> (x <=? c)%float = true ->
  fmag (53 + ec) x.
Proof.
  intros Hlo Hc Hmc H0 Hx.
  apply (fmag_between x c mc ec Hc Hmc); [|exact Hx].
  rewrite leb_spec in *. rewrite Hlo in H0.
  change (Prim2SF 0) with (S754_zero false).
  destruct (Prim2SF x) as [s|s| |s m e]; cbn in *; try discriminate.
  - destruct s; [discriminate | reflexivity].
  - destruct s; [discriminate | reflexivity].
Qed.

(** [hz_to_knob_value] returns on every float, NaN and infinities included:
    the clamp brings them between 200 and 4000. *)
Lemma float_hz_to_knob_value (f : float) : exists k, hz_to_knob_value f = Ok k.
Proof.
  unfold hz_to_knob_value, hz_to_knob_value_gen.
  change (of_int 200) with 200%float. change (of_int 4000) with 4000%float.
  pose proof (float_clamp_range f 200 4000 eq_refl eq_refl eq_refl) as [Hlo Hhi].
  set (c := clamp f 200%float 4000%float) in *.
  assert (Hc : fmag 12 c).
  { exact (fmag_between_pos c 200 4000 7036874417766400 8796093022208000 (-45) (-41)
             eq_refl eq_refl eq_refl Hlo Hhi). }
  unfold py_div. cbn [feqb fsub fdiv fadd fmul float_num].
  change ((4000 - 200 =? of_int 0)%float) with false. cbn iota.
  change (4000 - 200)%float with 3800%float.
  cbn [rbind py_round float_num].
  fm (c - 200)%float.
  match goal with H : fmag ?B (c - 200)%float |- _ =>
    pose proof (fmag_div B (c - 200)%float 3800 false 8356288371097600 (-41)
                  eq_refl H ltac:(cbn; lia) ltac:(cbn; lia)) as Hq end.
  cbn in Hq.
  match goal with |- context [float_round ?a] => fm a end.
  match goal with H : fmag ?B ?a |- context [float_round ?a] =>
    destruct (float_round_defined B a H) as [k ->] end.
  exists k. reflexivity.
Qed.

(** On the unit interval [apply_voice_from_xy] raises nothing. *)
Lemma float_apply_voice_returns (w : World float) (name : string)
    (x y b r : float) (st : State float) :
  in_unit x -> in_unit y -> in_unit b -> in_unit r ->
  fst (apply_voice_from_xy w name x y b r st) = Ok tt.
Proof.
  intros Hx Hy Hb Hr.
  destruct (float_map_returns name x y b r Hx Hy Hb Hr) as (p & Hp & _).
  apply fmag_unit in Hx, Hb.
  unfold apply_voice_from_xy, ebind, lift. rewrite Hp.
  repeat match goal with
         | |- context [hz_to_knob_value ?f] =>
             let k := fresh "k" in
             destruct (float_hz_to_knob_value f) as [k ->]
         end.
  rewrite !run_dlin_knob_ok.
  cbn [py_round float_num fadd fsub fmul].
  change (lit 5 1) with 0.5%float.
  change (of_int (8 - 5)) with 3%float. change (of_int (8 - 4)) with 4%float.
  change (of_int 5) with 5%float. change (of_int 4) with 4%float.
  change (of_int 1) with 1%float.
  match goal with |- context [float_round ?a] => fm a end.
  match goal with H : fmag ?B ?a |- context [float_round ?a] =>
    destruct (float_round_defined B a H) as [bass ->] end.
  match goal with |- context [float_round ?a] => fm a end.
  match goal with H : fmag ?B ?a |- context [float_round ?a] =>
    destruct (float_round_defined B a H) as [treb ->] end.
  rewrite !run_dlin_knob_ok. reflexivity.
Qed.

(** It is then the sequence of fourteen throttled updates of
    [apply_voice_updates]. *)
Lemma float_tilt_outputs (w : World float) (name : string)
    (x y b r : float) (st : State float) :
  in_unit x -> in_unit y -> in_unit b -> in_unit r ->
  exists (first : list string) (bass treb : Z),
    List.length first = 12%nat
    /\ py_round (5 + 3 * (1 - x) * (0.5 + 0.5 * b))%float = Ok bass
    /\ py_round (4 + 4 * x * (0.5 + 0.5 * b))%float = Ok treb
    /\ apply_voice_from_xy w name x y b r st
       = (Ok tt,
          run_calls w
            (map Knob (first ++ [("0o:1:" ++ str_int treb)%string;
                                 ("0o:3:" ++ str_int bass)%string])) st).
Proof.
  intros Hx Hy Hb Hr.
  pose proof (float_apply_voice_returns w name x y b r st Hx Hy Hb Hr) as Hok.
  destruct (apply_voice_updates w name x y b r st Hok)
    as (first & bass & treb & Hlen & Hbass & Htreb & Hst).
  exists first, bass, treb. repeat split; try assumption.
  rewrite (surjective_pairing (apply_voice_from_xy w name x y b r st)).
  rewrite Hok, Hst. reflexivity.
Qed.

(** ** Binary64: values *)

(** *** Powers of two and values *)

Lemma pw_pos (e : Z) : (0 < pw e)%R.
Proof. apply powerRZ_lt. lra. Qed.

Lemma pw_add (a b : Z) : pw (a + b) = (pw a * pw b)%R.
Proof. apply powerRZ_add. lra. Qed.

Lemma pw_IZR (n : Z) : 0 <= n -> pw n = IZR (2 ^ n).
Proof.
  intros Hn. unfold pw. destruct n as [|p|p]; [reflexivity | | lia].
  symmetry. exact (Zpower_pos_powerRZ 2 p).
Qed.

Lemma pw_le (a b : Z) : a <= b -> (pw a <= pw b)%R.
Proof.
  intros Hab. replace b with (a + (b - a)) by lia. rewrite pw_add.
  rewrite (pw_IZR (b - a)) by lia.
  assert (H : 1 <= 2 ^ (b - a)) by (pose proof (Z.pow_pos_nonneg 2 (b - a)); lia).
  pose proof (pw_pos a). apply IZR_le in H. nra.
Qed.

Lemma SF2R_nonneg (f : spec_float) : nonneg_sf f -> (0 <= SF2R f)%R.
Proof.
  destruct f as [s|s| |s m e]; cbn; try lra; try contradiction.
  intros ->. pose proof (pw_pos e). pose proof (IZR_lt 0 (Z.pos m) ltac:(lia)). nra.
Qed.

Lemma digits_bounds (p : positive) :
  2 ^ (Z.pos (digits2_pos p) - 1) <= Z.pos p < 2 ^ Z.pos (digits2_pos p).
Proof.
  rewrite digits2_pos_log2.
  pose proof (Z.log2_spec (Z.pos p) ltac:(lia)) as [H1 H2].
  replace (Z.log2 (Z.pos p) + 1 - 1) with (Z.log2 (Z.pos p)) by lia.
  replace (Z.log2 (Z.pos p) + 1) with (Z.succ (Z.log2 (Z.pos p))) by lia. lia.
Qed.

Lemma value_bounds (p : positive) (e : Z) :
  (pw (Z.pos (digits2_pos p) - 1 + e) <= IZR (Z.pos p) * pw e
   < pw (Z.pos (digits2_pos p) + e))%R.
Proof.
  pose proof (digits_bounds p) as [H1 H2].
  rewrite !pw_add. pose proof (pw_pos e) as He.
  assert (0 < Z.pos (digits2_pos p)) by lia.
  rewrite (pw_IZR (Z.pos (digits2_pos p) - 1)) by lia.
  rewrite (pw_IZR (Z.pos (digits2_pos p))) by lia.
  apply IZR_le in H1. apply IZR_lt in H2.
  split.
  - apply Rmult_le_compat_r; lra.
  - apply Rmult_lt_compat_r; lra.
Qed.

(** A valid mantissa has 53 bits, or fewer at the smallest exponent. *)
Lemma canonical_digits (m : positive) (e : Z) :
  SpecFloat.bounded prec emax m e = true ->
  Z.pos (digits2_pos m) <= 53 /\ -1074 <= e <= 971
  /\ (-1074 < e -> Z.pos (digits2_pos m) = 53).
Proof.
  unfold SpecFloat.bounded, canonical_mantissa, fexp, SpecFloat.emin, prec, emax.
  intros H. apply andb_prop in H as [Hc He].
  apply Z.eqb_eq in Hc. apply Z.leb_le in He. lia.
Qed.

(** On valid non-negative floats the order of binary64 is the order of the
    values. *)
Lemma SFleb_value (f g : spec_float) :
  valid_binary f = true -> valid_binary g = true ->
  nonneg_sf f -> nonneg_sf g ->
  (SFleb f g = true <-> (SF2R f <= SF2R g)%R).
Proof.
  intros Hf Hg Nf Ng.
  destruct f as [sf|sf| |sf mf ef]; destruct g as [sg|sg| |sg mg eg];
    cbn [nonneg_sf] in *; try contradiction; subst.
  - cbn. split; [lra | reflexivity].
  - cbn -[pw]. pose proof (SF2R_nonneg (S754_finite false mg eg) eq_refl) as H.
    cbn -[pw] in H. split; [lra | reflexivity].
  - pose proof (value_bounds mf ef) as [H1 _]. pose proof (pw_pos (Z.pos (digits2_pos mf) - 1 + ef)).
    cbn -[pw]. split; [discriminate | lra].
  - cbn [valid_binary] in Hf, Hg.
    apply canonical_digits in Hf as (Hdf & Hef & Hnf).
    apply canonical_digits in Hg as (Hdg & Heg & Hng).
    pose proof (value_bounds mf ef) as [Hf1 Hf2].
    pose proof (value_bounds mg eg) as [Hg1 Hg2].
    unfold SFleb, SFcompare. cbn -[pw].
    destruct (Z.compare_spec ef eg) as [E|E|E].
    + subst eg. rewrite Pos.compare_cont_spec. cbn [Pos.switch_Eq].
      pose proof (pw_pos ef).
      destruct (Pos.compare_spec mf mg) as [E|E|E].
      * subst. split; [lra | reflexivity].
      * apply Pos2Z.pos_lt_pos, IZR_lt in E. split; [nra | reflexivity].
      * apply Pos2Z.pos_lt_pos, IZR_lt in E. split; [discriminate | nra].
    + split; [|reflexivity]. intros _.
      assert (Hdg' : Z.pos (digits2_pos mg) = 53) by (apply Hng; lia).
      pose proof (pw_le (Z.pos (digits2_pos mf) + ef) (Z.pos (digits2_pos mg) - 1 + eg) ltac:(lia)).
      lra.
    + split; [discriminate|]. intros Hle. exfalso.
      assert (Hdf' : Z.pos (digits2_pos mf) = 53) by (apply Hnf; lia).
      pose proof (pw_le (Z.pos (digits2_pos mg) + eg) (Z.pos (digits2_pos mf) - 1 + ef) ltac:(lia)).
      lra.
Qed.

(** *** What [binary_round_aux] returns *)

Lemma iter_pos_comm {A : Type} (f : A -> A) (n : positive) :
  forall x : A, f (SpecFloat.iter_pos f n x) = SpecFloat.iter_pos f n (f x).
Proof.
  induction n as [n IH|n IH|]; intros x; cbn [SpecFloat.iter_pos].
  - now rewrite !IH.
  - now rewrite !IH.
  - reflexivity.
Qed.

Lemma iter_pos_succ {A : Type} (f : A -> A) (n : positive) :
  forall x : A, SpecFloat.iter_pos f (Pos.succ n) x = f (SpecFloat.iter_pos f n x).
Proof.
  induction n as [n IH|n IH|]; intros x; cbn [SpecFloat.iter_pos Pos.succ].
  - rewrite !IH. now rewrite <- !iter_pos_comm.
  - now rewrite <- !iter_pos_comm.
  - reflexivity.
Qed.

Lemma shr_1_r (mrs : shr_record) :
  0 <= shr_m mrs -> shr_r (shr_1 mrs) = Z.odd (shr_m mrs).
Proof.
  destruct mrs as [m r s]. cbn [shr_m]. intros Hm.
  destruct m as [|[p|p|]|p]; try reflexivity; lia.
Qed.

Lemma odd_half (a : Z) : 0 <= a -> Z.odd a = true -> a / 2 * 2 < a.
Proof.
  intros Ha Ho. rewrite Zdiv.Zodd_mod in Ho. apply Z.eqb_eq in Ho.
  pose proof (Z.div_mod a 2 ltac:(lia)). lia.
Qed.

(** When the round bit is set after the shift, bits were lost. *)
Lemma shr_r_remainder (n : positive) (m : Z) :
  0 <= m ->
  shr_r (SpecFloat.iter_pos shr_1 n (shr_record_of_loc m loc_Exact)) = true ->
  m / 2 ^ Z.pos n * 2 ^ Z.pos n < m.
Proof.
  intros Hm.
  destruct (Pos.eq_dec n 1) as [->|Hn].
  - cbn [SpecFloat.iter_pos]. rewrite shr_1_r by (cbn; lia). cbn [shr_record_of_loc shr_m].
    intros Ho. change (2 ^ 1) with 2. now apply odd_half.
  - destruct (Pos.succ_pred_or n) as [|E]; [contradiction|].
    rewrite <- E at 1. rewrite iter_pos_succ.
    rewrite shr_1_r by (rewrite iter_pos_shr_1_m by (cbn; lia); apply Z.div_pos; cbn; lia).
    rewrite iter_pos_shr_1_m by (cbn; lia). cbn [shr_record_of_loc shr_m].
    set (k := Pos.pred n) in *.
    assert (Hk : Z.pos n = Z.pos k + 1) by lia.
    intros Ho. rewrite Hk, Z.pow_add_r by lia. change (2 ^ 1) with 2.
    assert (Hq0 : 0 <= m / 2 ^ Z.pos k) by (apply Z.div_pos; lia).
    pose proof (odd_half _ Hq0 Ho) as Hh.
    rewrite Z.div_div in Hh by lia.
    pose proof (Z.mul_div_le m (2 ^ Z.pos k) ltac:(lia)).
    assert (0 < 2 ^ Z.pos k) by lia.
    nia.
Qed.

Lemma round_up_has_remainder (mrs : shr_record) :
  round_nearest_even (shr_m mrs) (loc_of_shr_record mrs) <> shr_m mrs ->
  shr_r mrs = true.
Proof.
  destruct mrs as [m [|] [|]]; cbn; try reflexivity; intros H; now contradiction H.
Qed.

Lemma IZR_pw_shift (a n : Z) (e : Z) :
  0 <= n -> (IZR (a * 2 ^ n) * pw e = IZR a * pw (e + n))%R.
Proof.
  intros Hn. rewrite mult_IZR, pw_add, (pw_IZR n) by lia. ring.
Qed.

Lemma quotient_normal (m d p : Z) :
  0 < m -> d = Zdigits2 m -> p = d - 53 -> 0 < p -> 2 ^ 52 <= m / 2 ^ p.
Proof.
  intros Hm Hd Hp Hp0.
  assert (H1 : 2 ^ (d - 1) <= m).
  { destruct m as [|q|q]; try lia. cbn [Zdigits2] in Hd. subst d.
    apply digits_bounds. }
  apply Z.div_le_lower_bound; [lia|].
  rewrite <- Z.pow_add_r by lia. replace (p + 52) with (d - 1) by lia. exact H1.
Qed.

Lemma shr_fexp_eq (m e : Z) (l : location) :
  shr_fexp prec emax m e l
  = match fexp prec emax (Zdigits2 m + e) - e with
    | Z.pos p => (SpecFloat.iter_pos shr_1 p (shr_record_of_loc m l),
                  e + (fexp prec emax (Zdigits2 m + e) - e))
    | _ => (shr_record_of_loc m l, e)
    end.
Proof. unfold shr_fexp, shr. destruct (fexp prec emax (Zdigits2 m + e) - e); reflexivity. Qed.

(** The two cases of [binary_round_aux] on a positive mantissa: it fits the
    format as it is, or it is shifted right and rounded. *)
Lemma BRA_no_shift (m e : Z) :
  0 < m -> fexp prec emax (Zdigits2 m + e) - e <= 0 ->
  binary_round_aux prec emax false m e loc_Exact
  = if e <=? emax - prec then S754_finite false (Z.to_pos m) e
    else S754_infinity false.
Proof.
  intros Hm Hn. unfold binary_round_aux. rewrite shr_fexp_eq.
  destruct (fexp prec emax (Zdigits2 m + e) - e) as [|p|p] eqn:En; try lia;
    cbn [shr_record_of_loc loc_of_shr_record round_nearest_even shr_m];
    rewrite shr_fexp_eq, En; cbn [shr_record_of_loc shr_m];
    destruct m as [|q|q]; try lia; reflexivity.
Qed.

Lemma BRA_shift (m e : Z) (p : positive) :
  0 < m -> fexp prec emax (Zdigits2 m + e) - e = Z.pos p ->
  let mrs' := SpecFloat.iter_pos shr_1 p (shr_record_of_loc m loc_Exact) in
  let e' := e + Z.pos p in
  let m2 := round_nearest_even (shr_m mrs') (loc_of_shr_record mrs') in
  binary_round_aux prec emax false m e loc_Exact
  = match fexp prec emax (Zdigits2 m2 + e') - e' with
    | Z.pos p2 =>
        match shr_m (SpecFloat.iter_pos shr_1 p2 (shr_record_of_loc m2 loc_Exact)) with
        | 0 => S754_zero false
        | Z.pos q =>
            if e' + (fexp prec emax (Zdigits2 m2 + e') - e') <=? emax - prec
            then S754_finite false q (e' + (fexp prec emax (Zdigits2 m2 + e') - e'))
            else S754_infinity false
        | Z.neg _ => S754_nan
        end
    | _ =>
        match m2 with
        | 0 => S754_zero false
        | Z.pos q =>
            if e' <=? emax - prec then S754_finite false q e'
            else S754_infinity false
        | Z.neg _ => S754_nan
        end
    end.
Proof.
  intros Hm Hn. cbn zeta. unfold binary_round_aux. rewrite shr_fexp_eq, Hn.
  rewrite shr_fexp_eq.
  destruct (fexp prec emax _ - (e + Z.pos p)) as [|p2|p2];
    cbn [shr_record_of_loc shr_m]; reflexivity.
Qed.

(** The value [binary_round_aux] returns is the exact one, or one of the two
    neighbours [m1 * 2 ^ e'] and [(m1 + 1) * 2 ^ e'] of the exact value on
    the grid of the result's exponent; [m1] is normal unless [e'] is the
    smallest exponent. *)
Lemma BRA_value (m e : Z) :
  0 < m ->
  is_finite_sf (binary_round_aux prec emax false m e loc_Exact) ->
  nonneg_sf (binary_round_aux prec emax false m e loc_Exact)
  /\ (SF2R (binary_round_aux prec emax false m e loc_Exact) = (IZR m * pw e)%R
      \/ exists m1 e',
           0 <= m1
           /\ (IZR m1 * pw e' <= IZR m * pw e < IZR (m1 + 1) * pw e')%R
           /\ (SF2R (binary_round_aux prec emax false m e loc_Exact)
               = (IZR m1 * pw e')%R
               \/ (SF2R (binary_round_aux prec emax false m e loc_Exact)
                   = (IZR (m1 + 1) * pw e')%R
                   /\ (IZR m1 * pw e' < IZR m * pw e)%R))
           /\ -1074 <= e'
           /\ (-1074 < e' -> 2 ^ 52 <= m1)).
Proof.
  intros Hm.
  set (d := Zdigits2 m).
  assert (Hfexp : fexp prec emax (d + e) = Z.max (d + e - 53) (-1074)) by reflexivity.
  destruct (fexp prec emax (d + e) - e) as [|p|p] eqn:En.
  1,3: rewrite BRA_no_shift by (fold d; lia);
       destruct (e <=? emax - prec); cbn [is_finite_sf nonneg_sf SF2R];
       [|contradiction];
       intros _; (split; [reflexivity|]); left;
       rewrite Z2Pos.id by lia; ring.
  (* shift by p *)
  rewrite (BRA_shift m e p Hm En). cbn zeta.
  set (mrs' := SpecFloat.iter_pos shr_1 p (shr_record_of_loc m loc_Exact)).
  set (e' := e + Z.pos p).
  assert (He' : e' = fexp prec emax (d + e)) by (subst e'; lia).
  assert (Hm1 : shr_m mrs' = m / 2 ^ Z.pos p).
  { subst mrs'. rewrite iter_pos_shr_1_m by (cbn; lia). reflexivity. }
  set (m1 := shr_m mrs') in *.
  assert (Hm1pos : 0 <= m1) by (rewrite Hm1; apply Z.div_pos; lia).
  assert (Hlow : m1 * 2 ^ Z.pos p <= m).
  { rewrite Hm1, Z.mul_comm. apply Z.mul_div_le. lia. }
  assert (Hhigh : m < (m1 + 1) * 2 ^ Z.pos p).
  { rewrite Hm1. pose proof (Z.mul_succ_div_gt m (2 ^ Z.pos p) ltac:(lia)). lia. }
  assert (Hd1 : Zdigits2 m1 <= 53).
  { rewrite Hm1. pose proof (Zdigits2_shiftr m (Z.pos p) ltac:(lia) ltac:(lia)) as H.
    fold d in H. lia. }
  assert (Hm1lt : m1 < 2 ^ 53).
  { destruct m1 as [|q|q] eqn:Eq1; try lia.
    pose proof (digits_bounds q) as [_ Hq]. cbn [Zdigits2] in Hd1.
    pose proof (Z.pow_le_mono_r 2 (Z.pos (digits2_pos q)) 53 ltac:(lia) Hd1). lia. }
  set (m2 := round_nearest_even m1 (loc_of_shr_record mrs')).
  pose proof (round_nearest_even_bound m1 (loc_of_shr_record mrs') Hm1pos) as Hm2.
  fold m2 in Hm2.
  assert (Hrem : m2 <> m1 -> (IZR m1 * pw e' < IZR m * pw e)%R).
  { intros Hne. pose proof (round_up_has_remainder mrs' Hne) as Hr.
    pose proof (shr_r_remainder p m ltac:(lia) Hr) as Hlt.
    rewrite <- Hm1 in Hlt.
    unfold e'. rewrite <- IZR_pw_shift by lia.
    apply Rmult_lt_compat_r; [apply pw_pos | now apply IZR_lt]. }
  assert (Hbnd : (IZR m1 * pw e' <= IZR m * pw e < IZR (m1 + 1) * pw e')%R).
  { unfold e'. rewrite <- !IZR_pw_shift by lia. pose proof (pw_pos e). split.
    - apply Rmult_le_compat_r; [lra | now apply IZR_le].
    - apply Rmult_lt_compat_r; [lra | now apply IZR_lt]. }
  assert (Hnorm : -1074 < e' -> 2 ^ 52 <= m1).
  { intros Hgt. rewrite Hm1. apply (quotient_normal m d (Z.pos p)); try lia; reflexivity. }
  assert (Hd2 : Zdigits2 m2 <= 54).
  { destruct (Z.eq_dec m2 m1) as [->|Hne]; [lia|].
    replace m2 with (m1 + 1) by lia.
    pose proof (Zdigits2_succ m1 Hm1pos). lia. }
  assert (Hfexp2 : fexp prec emax (Zdigits2 m2 + e')
                   = Z.max (Zdigits2 m2 + e' - 53) (-1074)) by reflexivity.
  destruct (fexp prec emax (Zdigits2 m2 + e') - e') as [|p2|p2] eqn:En2.
  - (* the rounded mantissa fits *)
    destruct m2 as [|q|q] eqn:Eq2; try lia.
    + cbn [is_finite_sf nonneg_sf SF2R]. intros _. split; [exact I|].
      right. exists m1, e'. repeat split; try lia; try apply Hbnd.
      left. replace m1 with 0 by lia. lra.
    + destruct (e' <=? emax - prec); cbn [is_finite_sf nonneg_sf SF2R];
        [|contradiction].
      intros _. split; [reflexivity|].
      right. exists m1, e'. repeat split; try lia; try apply Hbnd.
      destruct (Z.eq_dec (Z.pos q) m1) as [E|E].
      * left. rewrite E. ring.
      * right. replace (m1 + 1) with (Z.pos q) by lia. split; [ring|].
        apply Hrem. lia.
  - (* the rounded mantissa is 2^53 *)
    assert (Hm2eq : m2 = 2 ^ 53).
    { assert (H54 : Zdigits2 m2 = 54) by lia.
      destruct m2 as [|q|q] eqn:Eq2; try (cbn in *; lia).
      pose proof (digits_bounds q) as [Hq _]. cbn [Zdigits2] in H54.
      rewrite H54 in Hq. change (54 - 1) with 53 in Hq. lia. }
    assert (Hp2 : Z.pos p2 = 1) by lia.
    injection Hp2 as ->.
    cbn [SpecFloat.iter_pos]. rewrite shr_1_m by (cbn; lia).
    cbn [shr_record_of_loc shr_m]. rewrite Hm2eq.
    change (2 ^ 53 / 2) with (Z.pos 4503599627370496).
    destruct (e' + 1 <=? emax - prec); cbn [is_finite_sf nonneg_sf SF2R];
      [|contradiction].
    intros _. split; [reflexivity|].
    right. exists m1, e'. repeat split; try lia; try apply Hbnd.
    right. split; [|apply Hrem; lia].
    replace (m1 + 1) with (2 ^ 53) by lia.
    rewrite pw_add. replace (pw 1) with 2%R by (rewrite (pw_IZR 1) by lia; reflexivity).
    change (2 ^ 53) with (Z.pos 4503599627370496 * 2).
    rewrite mult_IZR. ring.
  - (* impossible: a normal mantissa has 53 digits *)
    exfalso.
    assert (Hgt : -1074 < e') by lia.
    specialize (Hnorm Hgt).
    pose proof (Zdigits2_le (2 ^ 52) m2 ltac:(lia)) as Hdig.
    change (Zdigits2 (2 ^ 52)) with 53 in Hdig. lia.
Qed.

(** *** Rounding is monotone *)

(**     No valid float lies strictly between two neighbours of the grid, so a
    valid float on one side of the exact value is on the same side of the
    rounded one. *)
Lemma IZR_grid_lt (a b : Z) (e : Z) :
  (IZR a * pw e < IZR b * pw e)%R -> a < b.
Proof.
  intros H. apply lt_IZR. pose proof (pw_pos e).
  apply Rmult_lt_reg_r with (r := pw e); assumption.
Qed.

Lemma grid_below (mv : positive) (ev : Z) (m1 e' : Z) :
  SpecFloat.bounded prec emax mv ev = true ->
  ev < e' -> 2 ^ 52 <= m1 ->
  (IZR (Z.pos mv) * pw ev < IZR m1 * pw e')%R.
Proof.
  intros Hv Hlt Hm1.
  apply canonical_digits in Hv as (Hd & _ & _).
  pose proof (value_bounds mv ev) as [_ Hup].
  pose proof (pw_le (Z.pos (digits2_pos mv) + ev) (52 + e') ltac:(lia)) as Hle.
  rewrite (pw_add 52 e'), (pw_IZR 52) in Hle by lia.
  pose proof (pw_pos e'). apply IZR_le in Hm1.
  assert (IZR (2 ^ 52) * pw e' <= IZR m1 * pw e')%R
    by (apply Rmult_le_compat_r; lra).
  lra.
Qed.

Lemma grid_on (mv : positive) (ev e' : Z) :
  e' <= ev ->
  (IZR (Z.pos mv) * pw ev = IZR (Z.pos mv * 2 ^ (ev - e')) * pw e')%R.
Proof.
  intros Hle. rewrite IZR_pw_shift by lia. f_equal. f_equal. lia.
Qed.

Lemma BRA_rounds (m e : Z) :
  0 < m ->
  is_finite_sf (binary_round_aux prec emax false m e loc_Exact) ->
  rounds (IZR m * pw e) (binary_round_aux prec emax false m e loc_Exact).
Proof.
  intros Hm Hfin. destruct (BRA_value m e Hm Hfin) as [Hnn Hval].
  set (r := binary_round_aux prec emax false m e loc_Exact) in *.
  set (x := (IZR m * pw e)%R) in *.
  split; [exact Hnn|]. intros V HV NV.
  destruct Hval as [-> | (m1 & e' & Hm1 & [Hlo Hhi] & Hr & He' & Hnorm)];
    [split; auto|].
  assert (HL : (0 <= IZR m1 * pw e')%R).
  { pose proof (pw_pos e'). apply IZR_le in Hm1. nra. }
  assert (Hup1 : (IZR m1 * pw e' <= IZR (m1 + 1) * pw e')%R).
  { pose proof (pw_pos e'). rewrite plus_IZR. nra. }
  destruct V as [sv|sv| |sv mv ev]; cbn [nonneg_sf] in NV; try contradiction.
  - (* the anchor is zero *)
    cbn [SF2R]. split.
    + intros Hx. destruct Hr as [-> | [-> Hlt]]; lra.
    + intros _. destruct Hr as [-> | [-> Hlt]]; lra.
  - subst sv. cbn [valid_binary] in HV. cbn [SF2R].
    replace (1 * IZR (Z.pos mv) * pw ev)%R with (IZR (Z.pos mv) * pw ev)%R by ring.
    destruct (Z_lt_le_dec ev e') as [Hev|Hev].
    + (* a finer anchor lies below the grid point *)
      pose proof (grid_below mv ev m1 e' HV Hev (Hnorm ltac:(apply canonical_digits in HV; lia))).
      split.
      * intros Hx. destruct Hr as [-> | [-> Hlt]]; lra.
      * intros _. destruct Hr as [-> | [-> Hlt]]; lra.
    + (* the anchor is on the grid *)
      rewrite (grid_on mv ev e' Hev).
      set (k := Z.pos mv * 2 ^ (ev - e')).
      fold k in Hlo, Hhi |- *.
      split.
      * intros Hx. destruct Hr as [-> | [-> Hlt]]; [lra|].
        assert (Hk : m1 < k) by (apply (IZR_grid_lt m1 k e'); lra).
        pose proof (pw_pos e'). apply Rmult_le_compat_r; [lra|].
        apply IZR_le. lia.
      * intros Hx.
        assert (Hk : k < m1 + 1) by (apply (IZR_grid_lt k (m1 + 1) e'); lra).
        assert (IZR k * pw e' <= IZR m1 * pw e')%R.
        { pose proof (pw_pos e'). apply Rmult_le_compat_r; [lra|].
          apply IZR_le. lia. }
        destruct Hr as [-> | [-> Hlt]]; lra.
Qed.

Lemma rounds_exact (r : spec_float) (x : R) :
  nonneg_sf r -> SF2R r = x -> rounds x r.
Proof. intros Hr <-. split; [exact Hr|]. intros V _ _. split; auto. Qed.

(** The product and the sum of two non-negative floats are roundings of the
    exact product and sum. *)
Lemma SFmul_rounds (fx fy : spec_float) :
  nonneg_sf fx -> nonneg_sf fy ->
  is_finite_sf (SFmul prec emax fx fy) ->
  rounds (SF2R fx * SF2R fy) (SFmul prec emax fx fy).
Proof.
  intros Hx Hy.
  destruct fx as [sx|sx| |sx mx ex]; destruct fy as [sy|sy| |sy my ey];
    cbn [nonneg_sf] in *; try contradiction; subst; cbn [SFmul xorb].
  - intros _. apply rounds_exact; [exact I | cbn; ring].
  - intros _. apply rounds_exact; [exact I | cbn; ring].
  - intros _. apply rounds_exact; [exact I | cbn; ring].
  - intros Hfin.
    replace (SF2R (S754_finite false mx ex) * SF2R (S754_finite false my ey))%R
      with (IZR (Z.pos (mx * my)) * pw (ex + ey))%R.
    + apply BRA_rounds; [lia | exact Hfin].
    + cbn [SF2R]. rewrite Pos2Z.inj_mul, mult_IZR, pw_add. ring.
Qed.

Lemma shl_align_value (m : positive) (e e0 : Z) :
  (IZR (Z.pos (fst (shl_align m e e0))) * pw (snd (shl_align m e e0))
   = IZR (Z.pos m) * pw e)%R.
Proof.
  unfold shl_align. destruct (e0 - e) as [|d|d] eqn:Ed; cbn [fst snd]; try reflexivity.
  rewrite pos_iter_xO. rewrite IZR_pw_shift by lia. f_equal. f_equal. lia.
Qed.

Lemma shl_align_min_snd (m : positive) (e e0 : Z) :
  e0 <= e -> snd (shl_align m e e0) = e0.
Proof.
  intros Hle. unfold shl_align. destruct (e0 - e) eqn:E; cbn [snd]; lia.
Qed.

Lemma binary_round_rounds (p : positive) (e : Z) :
  is_finite_sf (binary_round prec emax false p e) ->
  rounds (IZR (Z.pos p) * pw e) (binary_round prec emax false p e).
Proof.
  unfold binary_round.
  pose proof (shl_align_value p e (fexp prec emax (Z.pos (digits2_pos p) + e))) as Hv.
  destruct (shl_align p e _) as [mz ez]. cbn [fst snd] in Hv.
  intros Hfin. rewrite <- Hv. apply BRA_rounds; [lia | exact Hfin].
Qed.

Lemma SFadd_rounds (fx fy : spec_float) :
  nonneg_sf fx -> nonneg_sf fy ->
  is_finite_sf (SFadd prec emax fx fy) ->
  rounds (SF2R fx + SF2R fy) (SFadd prec emax fx fy).
Proof.
  intros Hx Hy.
  destruct fx as [sx|sx| |sx mx ex]; destruct fy as [sy|sy| |sy my ey];
    cbn [nonneg_sf] in *; try contradiction; subst; cbn [SFadd].
  - intros _. destruct sx, sy; apply rounds_exact; cbn; try exact I; ring.
  - intros _. apply rounds_exact; [reflexivity | cbn; ring].
  - intros _. apply rounds_exact; [reflexivity | cbn; ring].
  - cbn [cond_Zopp].
    pose proof (shl_align_value mx ex (Z.min ex ey)) as Hvx.
    pose proof (shl_align_value my ey (Z.min ex ey)) as Hvy.
    rewrite shl_align_min_snd in Hvx, Hvy by lia.
    set (a := fst (shl_align mx ex (Z.min ex ey))) in *.
    set (b := fst (shl_align my ey (Z.min ex ey))) in *.
    change (Z.pos a + Z.pos b) with (Z.pos (a + b)).
    cbn [binary_normalize]. intros Hfin.
    replace (SF2R (S754_finite false mx ex) + SF2R (S754_finite false my ey))%R
      with (IZR (Z.pos (a + b)) * pw (Z.min ex ey))%R.
    + apply binary_round_rounds. exact Hfin.
    + cbn [SF2R]. rewrite Pos2Z.inj_add, plus_IZR. lra.
Qed.

(** *** On primitive floats *)

Lemma mag_le_finite (B : Z) (f : spec_float) : mag_le B f -> is_finite_sf f.
Proof. destruct f; cbn; auto. Qed.

Lemma fmul_rounds (B : Z) (a b : float) :
  fnonneg a -> fnonneg b -> fmag B (a * b)%float ->
  rounds (fval a * fval b) (Prim2SF (a * b)%float).
Proof.
  unfold fnonneg, fmag, fval. rewrite mul_spec. intros Ha Hb Hm.
  apply SFmul_rounds; try assumption. exact (mag_le_finite B _ Hm).
Qed.

Lemma fadd_rounds (B : Z) (a b : float) :
  fnonneg a -> fnonneg b -> fmag B (a + b)%float ->
  rounds (fval a + fval b) (Prim2SF (a + b)%float).
Proof.
  unfold fnonneg, fmag, fval. rewrite add_spec. intros Ha Hb Hm.
  apply SFadd_rounds; try assumption. exact (mag_le_finite B _ Hm).
Qed.

(** A rounding stays on the same side of any non-negative float as the
    exact value. *)
Lemma rounds_upper (x : R) (r c : float) :
  rounds x (Prim2SF r) -> fnonneg c -> (x <= fval c)%R -> (fval r <= fval c)%R.
Proof. intros [_ H] Hc. apply (H (Prim2SF c) (Prim2SF_valid c) Hc). Qed.

Lemma rounds_lower (x : R) (r c : float) :
  rounds x (Prim2SF r) -> fnonneg c -> (fval c <= x)%R -> (fval c <= fval r)%R.
Proof. intros [_ H] Hc. apply (H (Prim2SF c) (Prim2SF_valid c) Hc). Qed.

(** The comparison of binary64 is the comparison of the values. *)
Lemma fle_value (a b : float) :
  fnonneg a -> fnonneg b ->
  ((a <=? b)%float = true <-> (fval a <= fval b)%R).
Proof.
  intros Ha Hb. rewrite leb_spec.
  apply SFleb_value; auto using Prim2SF_valid.
Qed.

(** The value of a float whose mantissa is an integer shifted left. *)
Lemma fval_int (c : float) (k : Z) (m : positive) (e : Z) :
  Prim2SF c = S754_finite false m e -> e <= 0 -> Z.pos m = k * 2 ^ (- e) ->
  fval c = IZR k.
Proof.
  intros Hc He Hm. unfold fval. rewrite Hc. cbn [SF2R]. rewrite Hm.
  rewrite Rmult_1_l, IZR_pw_shift by lia.
  replace (e + - e) with 0 by lia. unfold pw. cbn. ring.
Qed.

Lemma unit_value (x : float) :
  in_unit x -> fnonneg x /\ (0 <= fval x <= 1)%R.
Proof.
  intros [H0 H1].
  assert (Hnn : fnonneg x).
  { unfold fnonneg. rewrite leb_spec in H0, H1.
    change (Prim2SF 0) with (S754_zero false) in H0.
    change (Prim2SF 1) with (S754_finite false 4503599627370496 (-52)) in H1.
    destruct (Prim2SF x) as [s|s| |s m e]; cbn [nonneg_sf];
      cbn [SFleb SFcompare] in H0, H1; try exact I; try discriminate.
    - destruct s; discriminate.
    - destruct s; [discriminate | reflexivity]. }
  split; [exact Hnn|]. split.
  - apply SF2R_nonneg. exact Hnn.
  - apply (fle_value x 1 Hnn eq_refl) in H1.
    rewrite (fval_int 1 1 4503599627370496 (-52) eq_refl ltac:(lia) eq_refl) in H1.
    exact H1.
Qed.

Lemma rounds_nonneg (x : R) (r : float) : rounds x (Prim2SF r) -> fnonneg r.
Proof. intros [H _]. exact H. Qed.

(** [m + c * y] for [y] between 0 and 1 stays between [m] and [m + c]. *)
Lemma float_affine_range (m c M y : float) :
  fnonneg m -> fnonneg c -> fnonneg M -> fmag 12 m -> fmag 12 c ->
  (fval m + fval c = fval M)%R -> in_unit y ->
  fnonneg (m + c * y)%float
  /\ (fval m <= fval (m + c * y)%float <= fval M)%R.
Proof.
  intros Hm Hc HM Bm Bc Hsum Hy.
  destruct (unit_value y Hy) as (Hny & Hy0 & Hy1).
  apply fmag_unit in Hy.
  fm (m + c * y)%float.
  match goal with H : fmag ?B (c * y)%float |- _ =>
    pose proof (fmul_rounds B c y Hc Hny H) as Rp end.
  pose proof (rounds_nonneg _ _ Rp) as Hnp.
  pose proof (SF2R_nonneg _ Hc) as Hc0. fold (fval c) in Hc0.
  pose proof (SF2R_nonneg _ Hnp) as Hp0. fold (fval (c * y)%float) in Hp0.
  assert (Hp1 : (fval (c * y)%float <= fval c)%R) by (apply (rounds_upper _ _ _ Rp Hc); nra).
  match goal with H : fmag ?B (m + c * y)%float |- _ =>
    pose proof (fadd_rounds B m (c * y)%float Hm Hnp H) as RF end.
  split; [exact (rounds_nonneg _ _ RF)|]. split.
  - apply (rounds_lower _ _ _ RF Hm). lra.
  - apply (rounds_upper _ _ _ RF HM). lra.
Qed.

(** [int_const] of a constant, by evaluation. *)
Ltac int_const_tac :=
  split; [vm_compute; reflexivity
         | split; [apply fmag_const; vm_compute; reflexivity
                  | eapply fval_int;
                    [vm_compute; reflexivity | lia
                    | vm_compute; reflexivity]]].

(** *** The two low formants *)

(**     The bounds of the seven tables are integers below [2 ^ 12], so are the
    widths of the ranges, and the first range ends where the second begins
    or below. *)
Lemma float_profile_facts (name : string) :
  let prof := get_profile_params (num := float) name in
  exists k1 K1 k2 K2 : Z,
    int_const (F1_min prof) k1 /\ int_const (F1_max prof) K1
    /\ int_const (F1_max prof - F1_min prof)%float (K1 - k1)
    /\ int_const (F2_min prof) k2 /\ int_const (F2_max prof) K2
    /\ int_const (F2_max prof - F2_min prof)%float (K2 - k2)
    /\ K1 <= k2.
Proof.
  cbn zeta. pose proof (float_profile_cases name) as Hin.
  cbn [map profiles] in Hin.
  repeat (destruct Hin as [<- | Hin];
          [ match goal with
            | |- context [F1_min (get_profile_params ?n)] =>
                let a := eval vm_compute in (float_round (F1_min (get_profile_params (num := float) n))) in
                let b := eval vm_compute in (float_round (F1_max (get_profile_params (num := float) n))) in
                let c := eval vm_compute in (float_round (F2_min (get_profile_params (num := float) n))) in
                let d := eval vm_compute in (float_round (F2_max (get_profile_params (num := float) n))) in
                match constr:((a, b, c, d)) with
                | (Ok ?k1, Ok ?K1, Ok ?k2, Ok ?K2) => exists k1, K1, k2, K2
                end
            end;
            do 6 (split; [int_const_tac|]); lia | ]).
  contradiction.
Qed.

(** The two low formants as the mapping computes them. *)
Lemma float_map_formants (name : string) (x y b r : float) (p : VoiceParams float) :
  map_xy_to_formants x y name b r = Ok p ->
  let prof := get_profile_params (num := float) name in
  F1 p = (F1_min prof + (F1_max prof - F1_min prof) * y)%float
  /\ F2 p = (F2_min prof + (F2_max prof - F2_min prof) * y)%float.
Proof.
  unfold map_xy_to_formants. intros Hp.
  destruct (py_round _) as [l3|] in Hp; [|discriminate].
  destruct (py_round _) as [l4|] in Hp; [|discriminate].
  destruct (py_round _) as [er|] in Hp; [|discriminate].
  cbn [rbind] in Hp. injection Hp as <-. split; reflexivity.
Qed.

(** The computed [F1] and [F2] stay inside their ranges, whatever the
    rounding of the product and of the sum: the bounds of the ranges are
    floats, and rounding does not cross a float. *)
Lemma float_formants_within_ranges (name : string) (x y b r : float) :
  in_unit x -> in_unit y -> in_unit b -> in_unit r ->
  let prof := get_profile_params (num := float) name in
  exists p : VoiceParams float,
    map_xy_to_formants x y name b r = Ok p
    /\ (F1 p <=? F2 p)%float = true
    /\ (F1_min prof <=? F1 p)%float = true /\ (F1 p <=? F1_max prof)%float = true
    /\ (F2_min prof <=? F2 p)%float = true /\ (F2 p <=? F2_max prof)%float = true
    /\ R1 p = R2 p /\ R2 p = R3 p /\ R3 p = R4 p
    /\ (3 <= R1 p <= 7)%Z.
Proof.
  intros Hx Hy Hb Hr prof.
  destruct (float_map_returns name x y b r Hx Hy Hb Hr) as (p & Hp & HR).
  exists p. split; [exact Hp|].
  destruct (float_map_formants name x y b r p Hp) as [HF1 HF2]. fold prof in HF1, HF2.
  destruct (float_profile_facts name)
    as (k1 & K1 & k2 & K2 & (N1 & B1 & V1) & (N1' & B1' & V1') & (Nc1 & Bc1 & Vc1)
        & (N2 & B2 & V2) & (N2' & B2' & V2') & (Nc2 & Bc2 & Vc2) & Hk).
  fold prof in N1, B1, V1, N1', B1', V1', Nc1, Bc1, Vc1,
               N2, B2, V2, N2', B2', V2', Nc2, Bc2, Vc2.
  destruct (float_affine_range (F1_min prof) (F1_max prof - F1_min prof)%float
              (F1_max prof) y N1 Nc1 N1' B1 Bc1
              ltac:(rewrite V1, Vc1, V1', <- plus_IZR; f_equal; lia) Hy)
    as (NF1 & L1 & U1).
  destruct (float_affine_range (F2_min prof) (F2_max prof - F2_min prof)%float
              (F2_max prof) y N2 Nc2 N2' B2 Bc2
              ltac:(rewrite V2, Vc2, V2', <- plus_IZR; f_equal; lia) Hy)
    as (NF2 & L2 & U2).
  rewrite <- HF1 in NF1, L1, U1. rewrite <- HF2 in NF2, L2, U2.
  apply IZR_le in Hk.
  repeat split; try apply HR.
  - apply fle_value; [assumption | assumption | lra].
  - apply fle_value; assumption.
  - apply fle_value; assumption.
  - apply fle_value; assumption.
  - apply fle_value; assumption.
Qed.

(** ** Binary64: roundings at any position, quotients and the knob scale *)

(** *** Rounding to an integer *)

(** An integer on one side of [m * 2 ^ e] is on the same side of the
    rounded value. *)
Lemma round_half_even_bounds (m e a b : Z) :
  0 <= m ->
  (IZR a <= IZR m * pw e)%R -> (IZR m * pw e <= IZR b)%R ->
  a <= round_half_even m e <= b.
Proof.
  intros Hm Ha Hb. unfold round_half_even.
  destruct (Z.leb_spec 0 e) as [He|He].
  - rewrite (pw_IZR e He), <- mult_IZR in Ha, Hb.
    apply le_IZR in Ha, Hb. lia.
  - set (d := 2 ^ (- e)).
    assert (Hd : 0 < d) by (apply Z.pow_pos_nonneg; lia).
    assert (Hpw : (pw e * IZR d = 1)%R).
    { unfold d. rewrite <- (pw_IZR (- e)) by lia. rewrite <- pw_add.
      replace (e + - e) with 0 by lia. reflexivity. }
    assert (Ha' : a * d <= m).
    { apply le_IZR. rewrite mult_IZR.
      assert (0 < IZR d)%R by (apply IZR_lt; lia).
      replace (IZR m) with (IZR m * pw e * IZR d)%R by (rewrite Rmult_assoc, Hpw; ring).
      apply Rmult_le_compat_r; lra. }
    assert (Hb' : m <= b * d).
    { apply le_IZR. rewrite mult_IZR.
      assert (0 < IZR d)%R by (apply IZR_lt; lia).
      replace (IZR m) with (IZR m * pw e * IZR d)%R by (rewrite Rmult_assoc, Hpw; ring).
      apply Rmult_le_compat_r; lra. }
    pose proof (Z.div_mod m d ltac:(lia)) as Hdm.
    pose proof (Z.mod_pos_bound m d Hd) as Hr.
    set (q := m / d) in *. set (r := m mod d) in *.
    assert (Hq : a <= q) by (apply Z.div_le_lower_bound; lia).
    assert (Hq1 : q <= b) by nia.
    assert (Hq2 : 0 < r -> q + 1 <= b) by (intros; nia).
    destruct (Z.compare_spec (2 * r) d); [destruct (Z.even q)| |]; lia.
Qed.

Lemma float_round_bounds (B : Z) (v : float) (a b : Z) :
  fnonneg v -> fmag B v -> (IZR a <= fval v <= IZR b)%R ->
  exists k, float_round v = Ok k /\ a <= k <= b.
Proof.
  unfold fnonneg, fmag, fval, float_round.
  destruct (Prim2SF v) as [s|s| |s m e]; cbn [nonneg_sf mag_le SF2R];
    try contradiction.
  - intros _ _ [Ha Hb]. exists 0. split; [reflexivity|].
    apply le_IZR in Ha, Hb. lia.
  - intros -> _ [Ha Hb]. eexists. split; [reflexivity|].
    apply round_half_even_bounds; [lia | lra | lra].
Qed.

(** *** Differences *)

Lemma SFsub_rounds (fx fy : spec_float) :
  nonneg_sf fx -> nonneg_sf fy -> (SF2R fy <= SF2R fx)%R ->
  is_finite_sf (SFsub prec emax fx fy) ->
  rounds (SF2R fx - SF2R fy) (SFsub prec emax fx fy).
Proof.
  intros Hx Hy.
  destruct fx as [sx|sx| |sx mx ex]; destruct fy as [sy|sy| |sy my ey];
    cbn [nonneg_sf] in *; try contradiction; subst; cbn [SFsub].
  - intros _ _. destruct sx, sy; apply rounds_exact; cbn; try exact I; ring.
  - cbn [SF2R]. intros Hle. exfalso.
    pose proof (pw_pos ey). assert (0 < IZR (Z.pos my))%R by (apply IZR_lt; lia).
    nra.
  - intros _ _. apply rounds_exact; [reflexivity | cbn; ring].
  - cbn [cond_Zopp].
    pose proof (shl_align_value mx ex (Z.min ex ey)) as Hvx.
    pose proof (shl_align_value my ey (Z.min ex ey)) as Hvy.
    rewrite shl_align_min_snd in Hvx, Hvy by lia.
    set (a := fst (shl_align mx ex (Z.min ex ey))) in *.
    set (b := fst (shl_align my ey (Z.min ex ey))) in *.
    cbn [SF2R]. intros Hle.
    assert (Hba : Z.pos b <= Z.pos a).
    { destruct (Z_lt_le_dec (Z.pos a) (Z.pos b)) as [Hlt|]; [|assumption].
      exfalso. apply IZR_lt in Hlt. pose proof (pw_pos (Z.min ex ey)). nra. }
    replace (1 * IZR (Z.pos mx) * pw ex - 1 * IZR (Z.pos my) * pw ey)%R
      with (IZR (Z.pos a - Z.pos b) * pw (Z.min ex ey))%R
      by (rewrite minus_IZR; lra).
    destruct (Z.pos a - Z.pos b) as [|p|p] eqn:Ed; try lia; cbn [binary_normalize].
    + intros _. apply rounds_exact; [exact I | cbn; ring].
    + apply binary_round_rounds.
Qed.

Lemma fsub_rounds (B : Z) (a b : float) :
  fnonneg a -> fnonneg b -> (fval b <= fval a)%R -> fmag B (a - b)%float ->
  rounds (fval a - fval b) (Prim2SF (a - b)%float).
Proof.
  unfold fnonneg, fmag, fval. rewrite sub_spec. intros Ha Hb Hle Hm.
  apply SFsub_rounds; try assumption. exact (mag_le_finite B _ Hm).
Qed.

(** *** Quotients

    [SFdiv] hands [binary_round_aux] a truncated quotient and the position
    of the exact one above it. *)

Lemma shr_r_lost (n : positive) (m : Z) (l : location) :
  0 <= m ->
  shr_r (SpecFloat.iter_pos shr_1 n (shr_record_of_loc m l)) = true ->
  m / 2 ^ Z.pos n * 2 ^ Z.pos n < m.
Proof.
  intros Hm.
  destruct (Pos.eq_dec n 1) as [->|Hn].
  - cbn [SpecFloat.iter_pos].
    rewrite shr_1_r by (rewrite shr_record_of_loc_m; lia).
    rewrite shr_record_of_loc_m.
    intros Ho. change (2 ^ 1) with 2. now apply odd_half.
  - destruct (Pos.succ_pred_or n) as [|E]; [contradiction|].
    rewrite <- E at 1. rewrite iter_pos_succ.
    rewrite shr_1_r
      by (rewrite iter_pos_shr_1_m by (rewrite shr_record_of_loc_m; lia);
          apply Z.div_pos; rewrite ?shr_record_of_loc_m; lia).
    rewrite iter_pos_shr_1_m by (rewrite shr_record_of_loc_m; lia).
    rewrite shr_record_of_loc_m.
    set (k := Pos.pred n) in *.
    assert (Hk : Z.pos n = Z.pos k + 1) by lia.
    intros Ho. rewrite Hk, Z.pow_add_r by lia. change (2 ^ 1) with 2.
    assert (Hq0 : 0 <= m / 2 ^ Z.pos k) by (apply Z.div_pos; lia).
    pose proof (odd_half _ Hq0 Ho) as Hh.
    rewrite Z.div_div in Hh by lia.
    pose proof (Z.mul_div_le m (2 ^ Z.pos k) ltac:(lia)).
    assert (0 < 2 ^ Z.pos k) by lia.
    nia.
Qed.

(** [binary_round_aux] in two steps: the mantissa is shifted and rounded,
    then the rounded mantissa is fitted again. *)
Lemma BRA_steps (m e : Z) (l : location) :
  let mrs' := match fexp prec emax (Zdigits2 m + e) - e with
              | Z.pos p => SpecFloat.iter_pos shr_1 p (shr_record_of_loc m l)
              | _ => shr_record_of_loc m l
              end in
  let e' := match fexp prec emax (Zdigits2 m + e) - e with
            | Z.pos p => e + Z.pos p
            | _ => e
            end in
  let m2 := round_nearest_even (shr_m mrs') (loc_of_shr_record mrs') in
  binary_round_aux prec emax false m e l
  = match fexp prec emax (Zdigits2 m2 + e') - e' with
    | Z.pos p2 =>
        match shr_m (SpecFloat.iter_pos shr_1 p2 (shr_record_of_loc m2 loc_Exact)) with
        | 0 => S754_zero false
        | Z.pos q =>
            if e' + (fexp prec emax (Zdigits2 m2 + e') - e') <=? emax - prec
            then S754_finite false q (e' + (fexp prec emax (Zdigits2 m2 + e') - e'))
            else S754_infinity false
        | Z.neg _ => S754_nan
        end
    | _ =>
        match m2 with
        | 0 => S754_zero false
        | Z.pos q =>
            if e' <=? emax - prec then S754_finite false q e'
            else S754_infinity false
        | Z.neg _ => S754_nan
        end
    end.
Proof.
  cbn zeta. unfold binary_round_aux. rewrite shr_fexp_eq.
  destruct (fexp prec emax (Zdigits2 m + e) - e) as [|p|p];
    rewrite shr_fexp_eq;
    match goal with
    | |- context [fexp prec emax (Zdigits2 ?a + ?b) - ?b] =>
        destruct (fexp prec emax (Zdigits2 a + b) - b)
    end; cbn [shr_record_of_loc shr_m]; reflexivity.
Qed.

(** The second step: the rounded mantissa [m2] is [m1] or its successor,
    and the result has the value of [m2] on the grid of [e']. *)
Lemma BRA_fit (m1 m2 e' : Z) (x : R) :
  0 <= m1 -> Zdigits2 m1 <= 53 -> -1074 <= e' ->
  (-1074 < e' -> 2 ^ 52 <= m1) ->
  m1 <= m2 <= m1 + 1 ->
  (IZR m1 * pw e' <= x < IZR (m1 + 1) * pw e')%R ->
  (m2 <> m1 -> (IZR m1 * pw e' < x)%R) ->
  forall r : spec_float,
    r = match fexp prec emax (Zdigits2 m2 + e') - e' with
        | Z.pos p2 =>
            match shr_m (SpecFloat.iter_pos shr_1 p2 (shr_record_of_loc m2 loc_Exact)) with
            | 0 => S754_zero false
            | Z.pos q =>
                if e' + (fexp prec emax (Zdigits2 m2 + e') - e') <=? emax - prec
                then S754_finite false q (e' + (fexp prec emax (Zdigits2 m2 + e') - e'))
                else S754_infinity false
            | Z.neg _ => S754_nan
            end
        | _ =>
            match m2 with
            | 0 => S754_zero false
            | Z.pos q =>
                if e' <=? emax - prec then S754_finite false q e'
                else S754_infinity false
            | Z.neg _ => S754_nan
            end
        end ->
    is_finite_sf r ->
    nonneg_sf r
    /\ exists m1' e'',
         0 <= m1'
         /\ (IZR m1' * pw e'' <= x < IZR (m1' + 1) * pw e'')%R
         /\ (SF2R r = (IZR m1' * pw e'')%R
             \/ (SF2R r = (IZR (m1' + 1) * pw e'')%R
                 /\ (IZR m1' * pw e'' < x)%R))
         /\ -1074 <= e''
         /\ (-1074 < e'' -> 2 ^ 52 <= m1').
Proof.
  intros Hm1pos Hd1 He' Hnorm Hm2 Hbnd Hrem r ->.
  assert (Hd2 : Zdigits2 m2 <= 54).
  { destruct (Z.eq_dec m2 m1) as [->|Hne]; [lia|].
    replace m2 with (m1 + 1) by lia.
    pose proof (Zdigits2_succ m1 Hm1pos). lia. }
  assert (Hfexp2 : fexp prec emax (Zdigits2 m2 + e')
                   = Z.max (Zdigits2 m2 + e' - 53) (-1074)) by reflexivity.
  destruct (fexp prec emax (Zdigits2 m2 + e') - e') as [|p2|p2] eqn:En2.
  - (* the rounded mantissa fits *)
    destruct m2 as [|q|q] eqn:Eq2; try lia.
    + cbn [is_finite_sf nonneg_sf SF2R]. intros _. split; [exact I|].
      exists m1, e'. repeat split; try lia; try apply Hbnd.
      left. replace m1 with 0 by lia. lra.
    + destruct (e' <=? emax - prec); cbn [is_finite_sf nonneg_sf SF2R];
        [|contradiction].
      intros _. split; [reflexivity|].
      exists m1, e'. repeat split; try lia; try apply Hbnd.
      destruct (Z.eq_dec (Z.pos q) m1) as [E|E].
      * left. rewrite E. ring.
      * right. replace (m1 + 1) with (Z.pos q) by lia. split; [ring|].
        apply Hrem. lia.
  - (* the rounded mantissa is 2^53 *)
    assert (Hm1lt : m1 < 2 ^ 53).
    { destruct m1 as [|q|q] eqn:Eq1; try lia.
      pose proof (digits_bounds q) as [_ Hq]. cbn [Zdigits2] in Hd1.
      pose proof (Z.pow_le_mono_r 2 (Z.pos (digits2_pos q)) 53 ltac:(lia) Hd1). lia. }
    assert (Hm2eq : m2 = 2 ^ 53).
    { assert (H54 : Zdigits2 m2 = 54) by lia.
      destruct m2 as [|q|q] eqn:Eq2; try (cbn in *; lia).
      pose proof (digits_bounds q) as [Hq _]. cbn [Zdigits2] in H54.
      rewrite H54 in Hq. change (54 - 1) with 53 in Hq. lia. }
    assert (Hp2 : Z.pos p2 = 1) by lia.
    injection Hp2 as ->.
    cbn [SpecFloat.iter_pos]. rewrite shr_1_m by (cbn; lia).
    cbn [shr_record_of_loc shr_m]. rewrite Hm2eq.
    change (2 ^ 53 / 2) with (Z.pos 4503599627370496).
    destruct (e' + 1 <=? emax - prec); cbn [is_finite_sf nonneg_sf SF2R];
      [|contradiction].
    intros _. split; [reflexivity|].
    exists m1, e'. repeat split; try lia; try apply Hbnd.
    right. split; [|apply Hrem; lia].
    replace (m1 + 1) with (2 ^ 53) by lia.
    rewrite pw_add. replace (pw 1) with 2%R by (rewrite (pw_IZR 1) by lia; reflexivity).
    change (2 ^ 53) with (Z.pos 4503599627370496 * 2).
    rewrite mult_IZR. ring.
  - (* impossible: a normal mantissa has 53 digits *)
    exfalso.
    assert (Hgt : -1074 < e') by lia.
    specialize (Hnorm Hgt).
    pose proof (Zdigits2_le (2 ^ 52) m2 ltac:(lia)) as Hdig.
    change (Zdigits2 (2 ^ 52)) with 53 in Hdig. lia.
Qed.

(** A float of this shape is a rounding of [x]. *)
Lemma grid_rounds (x : R) (r : spec_float) :
  nonneg_sf r ->
  (exists m1 e',
      0 <= m1
      /\ (IZR m1 * pw e' <= x < IZR (m1 + 1) * pw e')%R
      /\ (SF2R r = (IZR m1 * pw e')%R
          \/ (SF2R r = (IZR (m1 + 1) * pw e')%R /\ (IZR m1 * pw e' < x)%R))
      /\ -1074 <= e'
      /\ (-1074 < e' -> 2 ^ 52 <= m1)) ->
  rounds x r.
Proof.
  intros Hnn (m1 & e' & Hm1 & [Hlo Hhi] & Hr & He' & Hnorm).
  split; [exact Hnn|]. intros V HV NV.
  assert (HL : (0 <= IZR m1 * pw e')%R).
  { pose proof (pw_pos e'). apply IZR_le in Hm1. nra. }
  assert (Hup1 : (IZR m1 * pw e' <= IZR (m1 + 1) * pw e')%R).
  { pose proof (pw_pos e'). rewrite plus_IZR. nra. }
  destruct V as [sv|sv| |sv mv ev]; cbn [nonneg_sf] in NV; try contradiction.
  - cbn [SF2R]. split.
    + intros Hx. destruct Hr as [-> | [-> Hlt]]; lra.
    + intros _. destruct Hr as [-> | [-> Hlt]]; lra.
  - subst sv. cbn [valid_binary] in HV. cbn [SF2R].
    replace (1 * IZR (Z.pos mv) * pw ev)%R with (IZR (Z.pos mv) * pw ev)%R by ring.
    destruct (Z_lt_le_dec ev e') as [Hev|Hev].
    + pose proof (grid_below mv ev m1 e' HV Hev
                    (Hnorm ltac:(apply canonical_digits in HV; lia))).
      split.
      * intros Hx. destruct Hr as [-> | [-> Hlt]]; lra.
      * intros _. destruct Hr as [-> | [-> Hlt]]; lra.
    + rewrite (grid_on mv ev e' Hev).
      set (k := Z.pos mv * 2 ^ (ev - e')).
      split.
      * intros Hx. destruct Hr as [-> | [-> Hlt]]; [lra|].
        assert (Hk : m1 < k) by (apply (IZR_grid_lt m1 k e'); lra).
        pose proof (pw_pos e'). apply Rmult_le_compat_r; [lra|].
        apply IZR_le. lia.
      * intros Hx.
        assert (Hk : k < m1 + 1) by (apply (IZR_grid_lt k (m1 + 1) e'); lra).
        assert (IZR k * pw e' <= IZR m1 * pw e')%R.
        { pose proof (pw_pos e'). apply Rmult_le_compat_r; [lra|].
          apply IZR_le. lia. }
        destruct Hr as [-> | [-> Hlt]]; lra.
Qed.

(** A truncated mantissa [m] with the position [l] of the exact value [x]
    above it, not yet shifted as far as the format asks: the result is a
    rounding of [x]. *)
Lemma BRA_loc_rounds (m e : Z) (l : location) (x : R) :
  0 <= m ->
  (IZR m * pw e <= x < IZR (m + 1) * pw e)%R ->
  (l <> loc_Exact -> (IZR m * pw e < x)%R) ->
  0 <= fexp prec emax (Zdigits2 m + e) - e ->
  is_finite_sf (binary_round_aux prec emax false m e l) ->
  rounds x (binary_round_aux prec emax false m e l).
Proof.
  intros Hm Hx Hl Hshift Hfin.
  pose proof (BRA_steps m e l) as Hsteps. cbn zeta in Hsteps.
  set (d := Zdigits2 m) in *.
  assert (Hfexp : fexp prec emax (d + e) = Z.max (d + e - 53) (-1074)) by reflexivity.
  set (mrs' := match fexp prec emax (d + e) - e with
               | Z.pos p => SpecFloat.iter_pos shr_1 p (shr_record_of_loc m l)
               | _ => shr_record_of_loc m l
               end) in *.
  set (e' := match fexp prec emax (d + e) - e with
             | Z.pos p => e + Z.pos p
             | _ => e
             end) in *.
  set (m1 := shr_m mrs') in *.
  assert (He' : e' = fexp prec emax (d + e)).
  { subst e'. destruct (fexp prec emax (d + e) - e) eqn:E; lia. }
  assert (Hfacts :
    0 <= m1 /\ Zdigits2 m1 <= 53
    /\ (-1074 < e' -> 2 ^ 52 <= m1)
    /\ (IZR m1 * pw e' <= x < IZR (m1 + 1) * pw e')%R
    /\ (shr_r mrs' = true -> (IZR m1 * pw e' < x)%R)).
  { subst m1 mrs'. destruct (fexp prec emax (d + e) - e) as [|p|p] eqn:En; try lia.
    - (* no shift *)
      rewrite shr_record_of_loc_m. subst e'.
      assert (Hd : d <= 53) by lia.
      repeat split; try lia; try apply Hx.
      + intros Hgt. assert (Hd53 : d = 53) by lia.
        destruct m as [|q|q]; try (cbn in Hd53; lia).
        pose proof (digits_bounds q) as [Hq _]. subst d. cbn [Zdigits2] in Hd53.
        rewrite Hd53 in Hq. exact Hq.
      + intros Hr. apply Hl. intros ->. discriminate.
    - (* shift by p *)
      rewrite iter_pos_shr_1_m by (rewrite shr_record_of_loc_m; lia).
      rewrite shr_record_of_loc_m.
      assert (Hq0 : 0 <= m / 2 ^ Z.pos p) by (apply Z.div_pos; lia).
      assert (Hlow : m / 2 ^ Z.pos p * 2 ^ Z.pos p <= m).
      { rewrite Z.mul_comm. apply Z.mul_div_le. lia. }
      assert (Hhigh : m + 1 <= (m / 2 ^ Z.pos p + 1) * 2 ^ Z.pos p).
      { pose proof (Z.mul_succ_div_gt m (2 ^ Z.pos p) ltac:(lia)). lia. }
      assert (Hee : e' = e + Z.pos p) by (subst e'; reflexivity).
      pose proof (pw_pos e) as Hpe.
      split; [exact Hq0|]. split; [|split; [|split; [split|]]].
      + pose proof (Zdigits2_shiftr m (Z.pos p) ltac:(lia) ltac:(lia)) as H.
        fold d in H. lia.
      + intros Hgt. destruct (Z.eq_dec m 0) as [->|Hm0].
        * exfalso. subst d. cbn [Zdigits2] in *. lia.
        * apply (quotient_normal m d (Z.pos p)); try lia; reflexivity.
      + rewrite Hee, <- IZR_pw_shift by lia.
        apply Rle_trans with (IZR m * pw e)%R; [|apply Hx].
        apply Rmult_le_compat_r; [lra | now apply IZR_le].
      + rewrite Hee, <- IZR_pw_shift by lia.
        apply Rlt_le_trans with (IZR (m + 1) * pw e)%R; [apply Hx|].
        apply Rmult_le_compat_r; [lra | now apply IZR_le].
      + intros Hr. pose proof (shr_r_lost p m l Hm Hr) as Hlt.
        rewrite Hee, <- IZR_pw_shift by lia.
        apply Rlt_le_trans with (IZR m * pw e)%R; [|apply Hx].
        apply Rmult_lt_compat_r; [lra | now apply IZR_lt]. }
  destruct Hfacts as (Hm1pos & Hd1 & Hnorm & Hbnd & Hinex).
  set (m2 := round_nearest_even m1 (loc_of_shr_record mrs')) in *.
  pose proof (round_nearest_even_bound m1 (loc_of_shr_record mrs') Hm1pos) as Hm2.
  fold m2 in Hm2.
  assert (Hrem : m2 <> m1 -> (IZR m1 * pw e' < x)%R).
  { intros Hne. apply Hinex. apply round_up_has_remainder. exact Hne. }
  destruct (BRA_fit m1 m2 e' x Hm1pos Hd1 ltac:(lia) Hnorm Hm2 Hbnd Hrem _ Hsteps Hfin)
    as [Hnn Hshape].
  apply grid_rounds; assumption.
Qed.

Lemma new_location_exact (n k : Z) : new_location n k <> loc_Exact -> k <> 0.
Proof.
  intros H ->. apply H. unfold new_location, new_location_even, new_location_odd.
  destruct (Z.even n); reflexivity.
Qed.

Lemma Zdigits2_pow2 (n : Z) : 0 <= n -> Zdigits2 (2 ^ n) = n + 1.
Proof.
  intros Hn. rewrite Zdigits2_log2 by (apply Z.pow_pos_nonneg; lia).
  rewrite Z.log2_pow2 by lia. reflexivity.
Qed.

(** The quotient of a non-negative float by a positive one is a rounding of
    the exact quotient. *)
Lemma SFdiv_rounds (fx : spec_float) (my : positive) (ey : Z) :
  nonneg_sf fx ->
  is_finite_sf (SFdiv prec emax fx (S754_finite false my ey)) ->
  rounds (SF2R fx / SF2R (S754_finite false my ey))
         (SFdiv prec emax fx (S754_finite false my ey)).
Proof.
  intros Hx.
  assert (Hy0 : (0 < SF2R (S754_finite false my ey))%R).
  { cbn [SF2R]. pose proof (pw_pos ey).
    assert (0 < IZR (Z.pos my))%R by (apply IZR_lt; lia). nra. }
  destruct fx as [sx|sx| |sx mx ex]; cbn [nonneg_sf] in Hx; try contradiction.
  - cbn [SFdiv]. intros _. apply rounds_exact; [destruct sx; exact I|].
    cbn [SF2R]. unfold Rdiv. ring.
  - subst sx. cbn [SFdiv xorb]. unfold SFdiv_core_binary. cbn [Zdigits2].
    set (d1 := Z.pos (digits2_pos mx)) in *. set (d2 := Z.pos (digits2_pos my)) in *.
    set (E := d1 + ex - (d2 + ey)).
    set (e' := Z.min (fexp prec emax E) (ex - ey)).
    assert (He' : e' <= ex - ey) by (subst e'; lia).
    assert (He'' : e' <= fexp prec emax E) by (subst e'; lia).
    assert (HfE : fexp prec emax E = Z.max (E - 53) (-1074)) by reflexivity.
    set (s := ex - ey - e') in *.
    set (m' := match s with
               | 0 => Z.pos mx
               | Z.pos _ => Z.shiftl (Z.pos mx) s
               | Z.neg _ => 0
               end).
    assert (Hm' : m' = Z.pos mx * 2 ^ s).
    { subst m'. destruct s as [|p|p] eqn:Es; [cbn; lia | | lia].
      rewrite Z.shiftl_mul_pow2 by lia. reflexivity. }
    pose proof (Z.div_mod m' (Z.pos my) ltac:(lia)) as Hdm.
    pose proof (Z.mod_pos_bound m' (Z.pos my) ltac:(lia)) as Hr.
    assert (Hq0 : 0 <= m' / Z.pos my) by (apply Z.div_pos; lia).
    unfold Z.div, Z.modulo in Hdm, Hr, Hq0.
    destruct (Z.div_eucl m' (Z.pos my)) as [q r] eqn:Edm.
    assert (Hs : 0 <= s) by (subst s; lia).
    (* the exact quotient on the grid of e' *)
    assert (Hxq : (SF2R (S754_finite false mx ex) / SF2R (S754_finite false my ey)
                   = (IZR q + IZR r / IZR (Z.pos my)) * pw e')%R).
    { cbn [SF2R].
      assert (Hmy : (0 < IZR (Z.pos my))%R) by (apply IZR_lt; lia).
      pose proof (pw_pos ey). pose proof (pw_pos e').
      assert (Hex : pw ex = (pw s * pw ey * pw e')%R).
      { rewrite <- !pw_add. f_equal. subst s. lia. }
      assert (Hm'R : (IZR (Z.pos mx) * pw s = IZR (Z.pos my) * IZR q + IZR r)%R).
      { rewrite (pw_IZR s Hs), <- mult_IZR, <- Hm', Hdm, plus_IZR, mult_IZR.
        reflexivity. }
      rewrite Hex. field_simplify_eq; [|lra].
      replace (IZR (Z.pos mx) * pw s * pw ey * pw e')%R
        with ((IZR (Z.pos mx) * pw s) * (pw ey * pw e'))%R by ring.
      rewrite Hm'R. ring. }
    rewrite Hxq.
    assert (Hmy : (0 < IZR (Z.pos my))%R) by (apply IZR_lt; lia).
    assert (Hfrac : (0 <= IZR r / IZR (Z.pos my) < 1)%R).
    { destruct Hr as [Hr0 Hr1]. apply IZR_le in Hr0. apply IZR_lt in Hr1. split.
      - apply Rmult_le_pos; [lra | left; now apply Rinv_0_lt_compat].
      - apply Rmult_lt_reg_r with (r := IZR (Z.pos my)); [lra|].
        unfold Rdiv. rewrite Rmult_assoc, Rinv_l by lra. lra. }
    apply BRA_loc_rounds.
    + exact Hq0.
    + pose proof (pw_pos e'). rewrite plus_IZR. split; nra.
    + intros Hl. apply new_location_exact in Hl.
      assert (0 < IZR r)%R by (apply IZR_lt; lia).
      assert (0 < IZR r / IZR (Z.pos my))%R
        by (apply Rmult_lt_0_compat; [lra | now apply Rinv_0_lt_compat]).
      pose proof (pw_pos e'). nra.
    + (* the quotient has at least the digits the format keeps *)
      assert (Hf : fexp prec emax (Zdigits2 q + e')
                   = Z.max (Zdigits2 q + e' - 53) (-1074)) by reflexivity.
      destruct (Z_le_gt_dec e' (-1074)) as [Hsub|Hnorm]; [lia|].
      assert (HE : e' <= E - 53) by lia.
      set (n := E - e').
      assert (Hn : 53 <= n) by (subst n; lia).
      assert (Hq : 2 ^ (n - 1) <= q).
      { assert (Hmx : 2 ^ (d1 - 1) <= Z.pos mx) by apply digits_bounds.
        assert (Hmyb : Z.pos my < 2 ^ d2) by apply digits_bounds.
        assert (Hpow : 2 ^ (n - 1) * 2 ^ d2 = 2 ^ (d1 - 1) * 2 ^ s).
        { rewrite <- !Z.pow_add_r by (subst d1 d2 s n E; lia).
          f_equal. subst n E s. lia. }
        assert (0 < 2 ^ (n - 1)) by (apply Z.pow_pos_nonneg; lia).
        assert (0 < 2 ^ s) by (apply Z.pow_pos_nonneg; lia).
        assert (Hlow : 2 ^ (n - 1) * Z.pos my < m') by nia.
        destruct (Z_lt_le_dec q (2 ^ (n - 1))) as [Hlt|]; [|assumption].
        exfalso. nia. }
      pose proof (Zdigits2_le (2 ^ (n - 1)) q
                    ltac:(split; [apply Z.pow_nonneg; lia | exact Hq])) as Hd.
      rewrite Zdigits2_pow2 in Hd by lia. subst n. lia.
Qed.

Lemma fdiv_rounds (B : Z) (a c : float) (mc : positive) (ec : Z) :
  Prim2SF c = S754_finite false mc ec ->
  fnonneg a -> fmag B (a / c)%float ->
  rounds (fval a / fval c) (Prim2SF (a / c)%float).
Proof.
  unfold fnonneg, fmag, fval. rewrite div_spec. intros Hc Ha Hm. rewrite Hc in *.
  apply SFdiv_rounds; [assumption | exact (mag_le_finite B _ Hm)].
Qed.

(** *** Ranges of the values sent to the device *)

Lemma SFmul_comm (fx fy : spec_float) :
  SFmul prec emax fx fy = SFmul prec emax fy fx.
Proof.
  destruct fx as [sx|sx| |sx mx ex]; destruct fy as [sy|sy| |sy my ey];
    cbn [SFmul]; try reflexivity; try (now rewrite xorb_comm).
  rewrite xorb_comm, Pos.mul_comm, Z.add_comm. reflexivity.
Qed.

Lemma float_mul_comm (a b : float) : (a * b = b * a)%float.
Proof. apply Prim2SF_inj. rewrite !mul_spec. apply SFmul_comm. Qed.

(** A float between a non-negative float and a finite one is non-negative. *)
Lemma fnonneg_between (x lo hi : float) (mh : positive) (eh : Z) :
  fnonneg lo -> Prim2SF hi = S754_finite false mh eh ->
  (lo <=? x)%float = true -> (x <=? hi)%float = true -> fnonneg x.
Proof.
  unfold fnonneg. rewrite !leb_spec. intros Hlo Hhi. rewrite Hhi.
  destruct (Prim2SF lo) as [sl|sl| |sl ml el]; cbn [nonneg_sf] in Hlo;
    try contradiction; subst;
    destruct (Prim2SF x) as [s|s| |s m e]; cbn; try easy;
    destruct s; easy.
Qed.

Lemma fval_0 : fval 0 = 0%R.
Proof. reflexivity. Qed.

Lemma in_unit_of_value (t : float) :
  fnonneg t -> (fval t <= 1)%R -> in_unit t.
Proof.
  intros Hn H1. split.
  - apply fle_value; [exact I | exact Hn |]. rewrite fval_0.
    apply SF2R_nonneg. exact Hn.
  - apply fle_value; [exact Hn | reflexivity |].
    rewrite (fval_int 1 1 4503599627370496 (-52) eq_refl ltac:(lia) eq_refl).
    exact H1.
Qed.

(** [m + c * x * y] for [x] and [y] between 0 and 1 stays between [m] and
    [m + c], and so does its rounding to an integer. *)
Lemma float_affine2_round (m c M x y : float) (km kc kM : Z) :
  int_const m km -> int_const c kc -> int_const M kM -> km + kc = kM ->
  in_unit x -> in_unit y ->
  exists k, float_round (m + c * x * y)%float = Ok k /\ km <= k <= kM.
Proof.
  intros (Nm & Bm & Vm) (Nc & Bc & Vc) (NM & BM & VM) Hsum Hx Hy.
  destruct (unit_value x Hx) as (Nx & Hx0 & Hx1).
  destruct (unit_value y Hy) as (Ny & Hy0 & Hy1).
  apply fmag_unit in Hx, Hy.
  fm (m + c * x * y)%float.
  pose proof (SF2R_nonneg _ Nc) as Hc0. fold (fval c) in Hc0.
  match goal with H : fmag ?B (c * x)%float |- _ =>
    pose proof (fmul_rounds B c x Nc Nx H) as R1 end.
  pose proof (rounds_nonneg _ _ R1) as N1.
  pose proof (SF2R_nonneg _ N1) as H10. fold (fval (c * x)%float) in H10.
  assert (H11 : (fval (c * x)%float <= fval c)%R)
    by (apply (rounds_upper _ _ _ R1 Nc); nra).
  match goal with H : fmag ?B (c * x * y)%float |- _ =>
    pose proof (fmul_rounds B (c * x)%float y N1 Ny H) as R2 end.
  pose proof (rounds_nonneg _ _ R2) as N2.
  pose proof (SF2R_nonneg _ N2) as H20. fold (fval (c * x * y)%float) in H20.
  assert (H21 : (fval (c * x * y)%float <= fval c)%R)
    by (apply (rounds_upper _ _ _ R2 Nc); nra).
  assert (HVM : (fval m + fval c = fval M)%R)
    by (rewrite Vm, Vc, VM, <- plus_IZR; f_equal; exact Hsum).
  match goal with H : fmag ?B (m + c * x * y)%float |- _ =>
    pose proof (fadd_rounds B m (c * x * y)%float Nm N2 H) as R3;
    apply (float_round_bounds B)
  end; try assumption.
  - exact (rounds_nonneg _ _ R3).
  - split.
    + rewrite <- Vm. apply (rounds_lower _ _ _ R3 Nm). lra.
    + rewrite <- VM. apply (rounds_upper _ _ _ R3 NM). lra.
Qed.

Lemma int_const_value (c : float) (k : Z) : int_const c k -> fval c = IZR k.
Proof. intros (_ & _ & H). exact H. Qed.

(** The two levels that follow the brightness. *)
Lemma float_levels (xc b : float) :
  in_unit xc -> in_unit b ->
  (exists l3, float_round (25 + 15 * xc * b)%float = Ok l3 /\ 25 <= l3 <= 40)
  /\ (exists l4, float_round (20 + 10 * xc * b)%float = Ok l4 /\ 20 <= l4 <= 30).
Proof.
  intros Hx Hb. split.
  - apply (float_affine2_round 25 15 40 xc b 25 15 40); try assumption;
      try int_const_tac; reflexivity.
  - apply (float_affine2_round 20 10 30 xc b 20 10 30); try assumption;
      try int_const_tac; reflexivity.
Qed.

(** The two factors of the tilt. *)
Lemma float_one_minus (x : float) : in_unit x -> in_unit (1 - x)%float.
Proof.
  intros Hx. destruct (unit_value x Hx) as (Nx & Hx0 & Hx1).
  apply fmag_unit in Hx. fm (1 - x)%float.
  assert (V1 : fval 1 = 1%R)
    by exact (fval_int 1 1 4503599627370496 (-52) eq_refl ltac:(lia) eq_refl).
  match goal with H : fmag ?B (1 - x)%float |- _ =>
    pose proof (fsub_rounds B 1 x eq_refl Nx ltac:(rewrite V1; lra) H) as R end.
  apply in_unit_of_value; [exact (rounds_nonneg _ _ R)|].
  apply Rle_trans with (fval 1); [|rewrite V1; lra].
  apply (rounds_upper _ _ 1%float R eq_refl). rewrite V1. lra.
Qed.

Lemma float_half_plus (b : float) : in_unit b -> in_unit (0.5 + 0.5 * b)%float.
Proof.
  intros Hb.
  assert (Vh : (fval 0.5 + fval 0.5 = fval 1)%R).
  { rewrite (fval_int 1 1 4503599627370496 (-52) eq_refl ltac:(lia) eq_refl).
    unfold fval. change (Prim2SF 0.5) with (S754_finite false 4503599627370496 (-53)).
    cbn [SF2R]. unfold pw.
    replace (powerRZ 2 (-53)) with (/ IZR (2 ^ 53))%R.
    - change (2 ^ 53) with (2 * 4503599627370496). rewrite mult_IZR. field.
    - rewrite <- (pw_IZR 53) by lia. unfold pw.
      change (-53) with (- (53)). rewrite powerRZ_neg'. reflexivity. }
  destruct (float_affine_range 0.5 0.5 1 b eq_refl eq_refl eq_refl
              ltac:(apply fmag_const; vm_compute; reflexivity)
              ltac:(apply fmag_const; vm_compute; reflexivity) Vh Hb)
    as (N & _ & U).
  apply in_unit_of_value; [exact N|].
  rewrite (fval_int 1 1 4503599627370496 (-52) eq_refl ltac:(lia) eq_refl) in U.
  exact U.
Qed.

Lemma float_tilt_range (x b : float) :
  in_unit x -> in_unit b ->
  (exists bass, float_round (5 + 3 * (1 - x) * (0.5 + 0.5 * b))%float = Ok bass
                /\ 5 <= bass <= 8)
  /\ (exists treb, float_round (4 + 4 * x * (0.5 + 0.5 * b))%float = Ok treb
                   /\ 4 <= treb <= 8).
Proof.
  intros Hx Hb.
  pose proof (float_one_minus x Hx) as Hu.
  pose proof (float_half_plus b Hb) as Hv.
  split.
  - apply (float_affine2_round 5 3 8 _ _ 5 3 8); try assumption;
      try int_const_tac; reflexivity.
  - apply (float_affine2_round 4 4 8 _ _ 4 4 8); try assumption;
      try int_const_tac; reflexivity.
Qed.

(** [hz_to_knob_value] on a frequency already clamped. *)
Lemma float_hz_of_clamped (c : float) :
  (200 <=? c)%float = true -> (c <=? 4000)%float = true ->
  exists k, float_round (100 + (c - 200) / 3800 * 3400)%float = Ok k
            /\ 100 <= k <= 3500.
Proof.
  intros Hlo Hhi.
  assert (Nc : fnonneg c)
    by exact (fnonneg_between c 200 4000 8796093022208000 (-41) eq_refl eq_refl Hlo Hhi).
  assert (Bc : fmag 12 c).
  { exact (fmag_between_pos c 200 4000 7036874417766400 8796093022208000 (-45) (-41)
             eq_refl eq_refl eq_refl Hlo Hhi). }
  assert (V200 : int_const 200 200) by int_const_tac.
  assert (V4000 : int_const 4000 4000) by int_const_tac.
  assert (V3800 : int_const 3800 3800) by int_const_tac.
  apply fle_value in Hlo; [|apply V200 | exact Nc].
  apply fle_value in Hhi; [|exact Nc | apply V4000].
  rewrite (int_const_value _ _ V200) in Hlo.
  rewrite (int_const_value _ _ V4000) in Hhi.
  (* the difference *)
  fm (c - 200)%float.
  match goal with H : fmag ?B (c - 200)%float |- _ =>
    pose proof (fsub_rounds B c 200 Nc ltac:(apply V200)
                  ltac:(rewrite (int_const_value _ _ V200); exact Hlo) H) as Rd;
    pose proof (fmag_div B (c - 200)%float 3800 false 8356288371097600 (-41)
                  eq_refl H ltac:(cbn; lia) ltac:(cbn; lia)) as Bq
  end.
  cbn in Bq.
  rewrite (int_const_value _ _ V200) in Rd.
  pose proof (rounds_nonneg _ _ Rd) as Nd.
  assert (Ud : (fval (c - 200)%float <= 3800)%R).
  { rewrite <- (int_const_value _ _ V3800).
    apply (rounds_upper _ _ 3800%float Rd ltac:(apply V3800)).
    rewrite (int_const_value _ _ V3800). lra. }
  pose proof (SF2R_nonneg _ Nd) as Ld. fold (fval (c - 200)%float) in Ld.
  (* the quotient *)
  pose proof (fdiv_rounds _ (c - 200)%float 3800 8356288371097600 (-41)
                eq_refl Nd Bq) as Rq.
  rewrite (int_const_value _ _ V3800) in Rq.
  pose proof (rounds_nonneg _ _ Rq) as Nq.
  assert (Uq : (fval ((c - 200) / 3800)%float <= 1)%R).
  { rewrite <- (fval_int 1 1 4503599627370496 (-52) eq_refl ltac:(lia) eq_refl).
    apply (rounds_upper _ _ 1%float Rq eq_refl).
    rewrite (fval_int 1 1 4503599627370496 (-52) eq_refl ltac:(lia) eq_refl).
    apply Rmult_le_reg_r with (r := 3800%R); [lra|].
    unfold Rdiv. rewrite Rmult_assoc, Rinv_l by lra. lra. }
  pose proof (in_unit_of_value _ Nq Uq) as Ht.
  (* the knob value *)
  rewrite (float_mul_comm ((c - 200) / 3800) 3400).
  assert (V100 : int_const 100 100) by int_const_tac.
  assert (V3400 : int_const 3400 3400) by int_const_tac.
  assert (V3500 : int_const 3500 3500) by int_const_tac.
  destruct (float_affine_range 100 3400 3500 ((c - 200) / 3800)%float
              ltac:(apply V100) ltac:(apply V3400) ltac:(apply V3500)
              ltac:(apply V100) ltac:(apply V3400)
              ltac:(rewrite (int_const_value _ _ V100), (int_const_value _ _ V3400),
                      (int_const_value _ _ V3500); lra) Ht)
    as (Nv & Lv & Uv).
  rewrite (int_const_value _ _ V100) in Lv.
  rewrite (int_const_value _ _ V3500) in Uv.
  apply fmag_unit in Ht. fm (100 + 3400 * ((c - 200) / 3800))%float.
  match goal with H : fmag ?B (100 + 3400 * ((c - 200) / 3800))%float |- _ =>
    apply (float_round_bounds B) end; try assumption.
  split; assumption.
Qed.

Lemma float_hz_unfold (f : float) :
  hz_to_knob_value f
  = float_round (100 + (clamp f 200 4000 - 200) / 3800 * 3400)%float.
Proof.
  unfold hz_to_knob_value, hz_to_knob_value_gen.
  change (of_int 200) with 200%float. change (of_int 4000) with 4000%float.
  unfold py_div. cbn [feqb fsub fdiv fadd fmul float_num].
  change ((4000 - 200 =? of_int 0)%float) with false. cbn iota.
  change (4000 - 200)%float with 3800%float.
  cbn [rbind py_round float_num]. reflexivity.
Qed.

(** Whatever the frequency, the knob value lies between 100 and 3500. *)
Lemma float_hz_range (f : float) :
  exists k, hz_to_knob_value f = Ok k /\ 100 <= k <= 3500.
Proof.
  rewrite float_hz_unfold.
  pose proof (float_clamp_range f 200 4000 eq_refl eq_refl eq_refl) as [Hlo Hhi].
  now apply float_hz_of_clamped.
Qed.

(** *** The order of binary64 *)

Lemma SFcompare_antisym (f g : spec_float) :
  SFcompare g f = match SFcompare f g with
                  | Some c => Some (CompOpp c)
                  | None => None
                  end.
Proof.
  destruct f as [s|s| |s m e]; destruct g as [s'|s'| |s' m' e'];
    cbn [SFcompare]; try reflexivity;
    try (destruct s; reflexivity); try (destruct s'; reflexivity);
    try (destruct s, s'; reflexivity).
  destruct s, s'; try reflexivity;
    rewrite (Z.compare_antisym e e'); destruct (e ?= e'); cbn [CompOpp];
    try reflexivity;
    rewrite (Pos.compare_cont_antisym m m' Eq); cbn [CompOpp];
    destruct (Pos.compare_cont Eq m m'); reflexivity.
Qed.

Lemma leb_not_ltb (a b : float) :
  (a <=? b)%float = true -> (b <? a)%float = false.
Proof.
  rewrite leb_spec, ltb_spec. unfold SFleb, SFltb.
  rewrite (SFcompare_antisym (Prim2SF a) (Prim2SF b)).
  destruct (SFcompare (Prim2SF a) (Prim2SF b)) as [[| |]|]; easy.
Qed.

(** A float below a positive float is below every float with a larger
    exponent. *)
Lemma leb_ltb_exponent (f lo hi : float) (ml mh : positive) (el eh : Z) :
  Prim2SF lo = S754_finite false ml el ->
  Prim2SF hi = S754_finite false mh eh -> el < eh ->
  (f <=? lo)%float = true -> (f <? hi)%float = true.
Proof.
  intros Hlo Hhi Hlt. rewrite leb_spec, ltb_spec, Hlo, Hhi.
  unfold SFleb, SFltb.
  destruct (Prim2SF f) as [s|s| |s m e]; cbn [SFcompare]; try easy.
  - destruct s; easy.
  - destruct s; [easy|].
    destruct (Z.compare_spec e el); destruct (Z.compare_spec e eh);
      try lia; try easy.
Qed.

Lemma ltb_is_nan (f c : float) :
  Prim2SF f = S754_nan -> (f <? c)%float = false /\ (c <? f)%float = false.
Proof.
  intros Hf. rewrite !ltb_spec, Hf. unfold SFltb.
  split; [reflexivity|]. destruct (Prim2SF c); reflexivity.
Qed.

(** *** The ends of the knob scale *)

Lemma float_hz_low (f : float) :
  (f <=? 200)%float = true -> hz_to_knob_value f = Ok 100.
Proof.
  intros Hf. rewrite float_hz_unfold.
  unfold clamp, py_max, py_min. cbn [py_lt ord_num flt float_num].
  rewrite (leb_ltb_exponent f 200 4000 7036874417766400 8796093022208000 (-45) (-41)
             eq_refl eq_refl ltac:(lia) Hf).
  rewrite (leb_not_ltb f 200 Hf). reflexivity.
Qed.

Lemma float_hz_high (f : float) :
  (4000 <=? f)%float = true -> hz_to_knob_value f = Ok 3500.
Proof.
  intros Hf. rewrite float_hz_unfold.
  unfold clamp, py_max, py_min. cbn [py_lt ord_num flt float_num].
  rewrite (leb_not_ltb 4000 f Hf). reflexivity.
Qed.

Lemma float_hz_nan (f : float) :
  Prim2SF f = S754_nan -> hz_to_knob_value f = Ok 3500.
Proof.
  intros Hf. rewrite float_hz_unfold.
  unfold clamp, py_max, py_min. cbn [py_lt ord_num flt float_num].
  destruct (ltb_is_nan f 4000 Hf) as [-> _]. reflexivity.
Qed.

(** *** [clamp] *)

Lemma leb_refl_of_leb (a b : float) :
  (a <=? b)%float = true -> (a <=? a)%float = true /\ (b <=? b)%float = true.
Proof.
  rewrite !leb_spec. unfold SFleb.
  destruct (Prim2SF a) as [s|s| |s m e]; destruct (Prim2SF b) as [s'|s'| |s' m' e'];
    cbn [SFcompare]; try easy; repeat split;
    try (destruct s; reflexivity); try (destruct s'; reflexivity);
    try (destruct s; rewrite Z.compare_refl, Pos.compare_cont_refl; reflexivity);
    try (destruct s'; rewrite Z.compare_refl, Pos.compare_cont_refl; reflexivity).
Qed.

Lemma float_clamp_inside (v lo hi : float) :
  (lo <? v)%float = true -> (v <? hi)%float = true -> clamp v lo hi = v.
Proof.
  intros H0 H1. unfold clamp, py_max, py_min. cbn [py_lt ord_num flt float_num].
  rewrite H1, H0. reflexivity.
Qed.

Lemma float_clamp_nan (v lo hi : float) :
  Prim2SF v = S754_nan -> (lo <? hi)%float = true -> clamp v lo hi = hi.
Proof.
  intros Hv Hlh. unfold clamp, py_max, py_min. cbn [py_lt ord_num flt float_num].
  destruct (ltb_is_nan v hi Hv) as [-> _]. rewrite Hlh. reflexivity.
Qed.

Lemma float_clamp_below (v lo hi : float) :
  (lo <=? hi)%float = true -> (v <=? lo)%float = true ->
  (clamp v lo hi =? lo)%float = true.
Proof.
  intros Hlh Hv. unfold clamp, py_max, py_min. cbn [py_lt ord_num flt float_num].
  destruct (leb_refl_of_leb lo hi Hlh) as [Hll Hhh].
  assert (Eqll : (lo =? lo)%float = true).
  { rewrite eqb_spec. rewrite leb_spec in Hll. unfold SFeqb, SFleb in *.
    pose proof (SFcompare_antisym (Prim2SF lo) (Prim2SF lo)) as Ha.
    destruct (SFcompare (Prim2SF lo) (Prim2SF lo)) as [[| |]|]; try easy. }
  destruct (v <? hi)%float eqn:E1.
  - rewrite (leb_not_ltb v lo Hv). exact Eqll.
  - destruct (lo <? hi)%float eqn:E2; [|exact Eqll].
    (* v <= lo < hi contradicts not (v < hi) *)
    exfalso. revert Hv E1 E2. rewrite !ltb_spec, leb_spec. unfold SFltb, SFleb.
    destruct (Prim2SF v) as [s|s| |s m e]; destruct (Prim2SF lo) as [sl|sl| |sl ml el];
      destruct (Prim2SF hi) as [sh|sh| |sh mh eh]; cbn [SFcompare];
      try easy;
      try (destruct s; easy); try (destruct sl; easy); try (destruct sh; easy);
      try (destruct s, sl; easy); try (destruct s, sh; easy);
      try (destruct sl, sh; easy).
    all: destruct s, sl, sh; try easy;
      destruct (Z.compare_spec e el); destruct (Z.compare_spec el eh);
      destruct (Z.compare_spec e eh); try lia; try easy; subst;
      rewrite ?Pos.compare_cont_spec; cbn [Pos.switch_Eq];
      destruct (Pos.compare_spec m ml); destruct (Pos.compare_spec ml mh);
      destruct (Pos.compare_spec m mh); cbn [CompOpp]; try lia; try easy.
Qed.

Lemma eqb_of_leb_not_ltb (a b : float) :
  (a <=? b)%float = true -> (a <? b)%float = false -> (a =? b)%float = true.
Proof.
  rewrite leb_spec, ltb_spec, eqb_spec. unfold SFleb, SFltb, SFeqb.
  destruct (SFcompare (Prim2SF a) (Prim2SF b)) as [[| |]|]; easy.
Qed.

Lemma eqb_refl_of_leb (a : float) : (a <=? a)%float = true -> (a =? a)%float = true.
Proof.
  intros H. apply eqb_of_leb_not_ltb; [exact H | now apply leb_not_ltb].
Qed.

Lemma float_clamp_above (v lo hi : float) :
  (lo <=? hi)%float = true -> (hi <=? v)%float = true ->
  (clamp v lo hi =? hi)%float = true.
Proof.
  intros Hlh Hv. unfold clamp, py_max, py_min. cbn [py_lt ord_num flt float_num].
  rewrite (leb_not_ltb hi v Hv).
  destruct (leb_refl_of_leb lo hi Hlh) as [_ Hhh].
  destruct (lo <? hi)%float eqn:E.
  - now apply eqb_refl_of_leb.
  - now apply eqb_of_leb_not_ltb.
Qed.

Lemma float_clamp_of_nan (v lo hi : float) :
  (lo <=? hi)%float = true -> Prim2SF v = S754_nan ->
  (clamp v lo hi =? hi)%float = true.
Proof.
  intros Hlh Hv. unfold clamp, py_max, py_min. cbn [py_lt ord_num flt float_num].
  destruct (ltb_is_nan v hi Hv) as [-> _].
  destruct (leb_refl_of_leb lo hi Hlh) as [_ Hhh].
  destruct (lo <? hi)%float eqn:E.
  - now apply eqb_refl_of_leb.
  - now apply eqb_of_leb_not_ltb.
Qed.

(** The table of every name: integers below [2 ^ 12], the high ranges
    included. *)
Lemma float_profile_high (name : string) :
  let prof := get_profile_params (num := float) name in
  exists k3 K3 k4 K4 : Z,
    int_const (F3_min prof) k3 /\ int_const (F3_max prof) K3
    /\ int_const (F3_max prof - F3_min prof)%float (K3 - k3)
    /\ int_const (F4_min prof) k4 /\ int_const (F4_max prof) K4
    /\ int_const (F4_max prof - F4_min prof)%float (K4 - k4).
Proof.
  cbn zeta. pose proof (float_profile_cases name) as Hin.
  cbn [map profiles] in Hin.
  repeat (destruct Hin as [<- | Hin];
          [ match goal with
            | |- context [F3_min (get_profile_params ?n)] =>
                let a := eval vm_compute in (float_round (F3_min (get_profile_params (num := float) n))) in
                let b := eval vm_compute in (float_round (F3_max (get_profile_params (num := float) n))) in
                let c := eval vm_compute in (float_round (F4_min (get_profile_params (num := float) n))) in
                let d := eval vm_compute in (float_round (F4_max (get_profile_params (num := float) n))) in
                match constr:((a, b, c, d)) with
                | (Ok ?k3, Ok ?K3, Ok ?k4, Ok ?K4) => exists k3, K3, k4, K4
                end
            end;
            do 5 (split; [int_const_tac|]); int_const_tac | ]).
  contradiction.
Qed.

(** What the mapping returns, field by field. *)
Lemma float_map_fields (name : string) (x y b r : float) (p : VoiceParams float) :
  map_xy_to_formants x y name b r = Ok p ->
  let prof := get_profile_params (num := float) name in
  let xc := clamp ((x - 0.5) * b + 0.5)%float 0%float 1%float in
  F3 p = (F3_min prof + (F3_max prof - F3_min prof) * xc)%float
  /\ F4 p = (F4_min prof + (F4_max prof - F4_min prof) * xc)%float
  /\ L1 p = 55 /\ L2 p = 45
  /\ float_round (25 + 15 * xc * b)%float = Ok (L3 p)
  /\ float_round (20 + 10 * xc * b)%float = Ok (L4 p).
Proof.
  unfold map_xy_to_formants. intros Hp. cbn zeta.
  change (lit 5 1) with 0.5%float in Hp.
  change (of_int 0) with 0%float in Hp. change (of_int 1) with 1%float in Hp.
  change (of_int 25) with 25%float in Hp. change (of_int 15) with 15%float in Hp.
  change (of_int 20) with 20%float in Hp. change (of_int 10) with 10%float in Hp.
  cbn [py_round float_num fadd fsub fmul] in Hp.
  destruct (float_round (25 + _)%float) as [l3|] in Hp |- *; [|discriminate].
  destruct (float_round (20 + _)%float) as [l4|] in Hp |- *; [|discriminate].
  destruct (float_round _) as [er|] in Hp; [|discriminate].
  cbn [rbind] in Hp. injection Hp as <-. repeat split; reflexivity.
Qed.

Lemma float_map_levels (name : string) (x y b r : float) :
  in_unit x -> in_unit y -> in_unit b -> in_unit r ->
  let prof := get_profile_params (num := float) name in
  exists p : VoiceParams float,
    map_xy_to_formants x y name b r = Ok p
    /\ L1 p = 55 /\ L2 p = 45 /\ 25 <= L3 p <= 40 /\ 20 <= L4 p <= 30
    /\ (F3_min prof <=? F3 p)%float = true /\ (F3 p <=? F3_max prof)%float = true
    /\ (F4_min prof <=? F4 p)%float = true /\ (F4 p <=? F4_max prof)%float = true.
Proof.
  intros Hx Hy Hb Hr prof.
  destruct (float_map_returns name x y b r Hx Hy Hb Hr) as (p & Hp & _).
  exists p. split; [exact Hp|].
  destruct (float_map_fields name x y b r p Hp) as (HF3 & HF4 & HL1 & HL2 & HL3 & HL4).
  fold prof in HF3, HF4.
  set (xc := clamp ((x - 0.5) * b + 0.5)%float 0%float 1%float) in *.
  assert (Hxc : in_unit xc) by apply float_clamp_unit.
  destruct (float_levels xc b Hxc Hb) as [(l3 & E3 & B3) (l4 & E4 & B4)].
  rewrite HL3 in E3. injection E3 as <-.
  rewrite HL4 in E4. injection E4 as <-.
  destruct (float_profile_high name)
    as (k3 & K3 & k4 & K4 & (N3 & B3m & V3) & (N3' & B3' & V3') & (Nc3 & Bc3 & Vc3)
        & (N4 & B4m & V4) & (N4' & B4' & V4') & (Nc4 & Bc4 & Vc4)).
  fold prof in N3, B3m, V3, N3', B3', V3', Nc3, Bc3, Vc3,
               N4, B4m, V4, N4', B4', V4', Nc4, Bc4, Vc4.
  destruct (float_affine_range (F3_min prof) (F3_max prof - F3_min prof)%float
              (F3_max prof) xc N3 Nc3 N3' B3m Bc3
              ltac:(rewrite V3, Vc3, V3', <- plus_IZR; f_equal; lia) Hxc)
    as (NF3 & L3' & U3).
  destruct (float_affine_range (F4_min prof) (F4_max prof - F4_min prof)%float
              (F4_max prof) xc N4 Nc4 N4' B4m Bc4
              ltac:(rewrite V4, Vc4, V4', <- plus_IZR; f_equal; lia) Hxc)
    as (NF4 & L4' & U4).
  rewrite <- HF3 in NF3, L3', U3. rewrite <- HF4 in NF4, L4', U4.
  repeat split; try assumption; try lia; apply fle_value; assumption.
Qed.

(** *** NaN *)

Lemma float_mul_nan_r (a b : float) :
  Prim2SF b = S754_nan -> Prim2SF (a * b)%float = S754_nan.
Proof. intros Hb. rewrite mul_spec, Hb. destruct (Prim2SF a); reflexivity. Qed.

Lemma float_add_nan (a b : float) :
  Prim2SF a = S754_nan \/ Prim2SF b = S754_nan -> Prim2SF (a + b)%float = S754_nan.
Proof.
  intros [Ha | Hb]; rewrite add_spec; [rewrite Ha | rewrite Hb];
    [|destruct (Prim2SF a)]; reflexivity.
Qed.

Lemma float_round_nan (v : float) :
  Prim2SF v = S754_nan -> float_round v = Raise ValueError.
Proof. intros Hv. unfold float_round. now rewrite Hv. Qed.

(** A coordinate that is not a number makes the mapping raise
    [ValueError]: the two levels are computed first, from the clamped
    coordinate, and the rounding of the resonance fails. *)
Lemma float_map_nan (name : string) (x y b r : float) :
  in_unit b ->
  Prim2SF x = S754_nan \/ Prim2SF y = S754_nan ->
  map_xy_to_formants x y name b r = Raise ValueError.
Proof.
  intros Hb Hnan. unfold map_xy_to_formants.
  change (lit 5 1) with 0.5%float.
  change (of_int 0) with 0%float. change (of_int 1) with 1%float.
  change (of_int 25) with 25%float. change (of_int 15) with 15%float.
  change (of_int 20) with 20%float. change (of_int 10) with 10%float.
  change (of_int 4) with 4%float.
  cbn [py_round float_num fadd fsub fmul].
  set (xc := clamp ((x - 0.5) * b + 0.5)%float 0%float 1%float).
  assert (Hxc : in_unit xc) by apply float_clamp_unit.
  destruct (float_levels xc b Hxc Hb) as [(l3 & -> & _) (l4 & -> & _)].
  cbn [rbind].
  rewrite float_round_nan; [reflexivity|].
  apply float_mul_nan_r. apply float_add_nan.
  destruct Hnan as [Hx | Hy]; [left | right]; now apply float_mul_nan_r.
Qed.

End Binary64.

(** ** The mapping and the tilt on binary64 *)

(** C6.  On binary64, for a coordinate in the unit square, any profile name
    and intensities in [0, 1], the mapping returns a parameter set with
    [F1 <= F2], both inside their ranges of the profile, and one resonance
    for the four formants, between 3 and 7; with resonance intensity 0 the
    resonance is 3. *)
Theorem formants_within_ranges (name : string) (x y b r : float) :
  in_unit x -> in_unit y -> in_unit b -> in_unit r ->
  let prof := get_profile_params (num := float) name in
  (exists p : VoiceParams float,
     map_xy_to_formants x y name b r = Ok p
     /\ (F1 p <=? F2 p)%float = true
     /\ (F1_min prof <=? F1 p)%float = true /\ (F1 p <=? F1_max prof)%float = true
     /\ (F2_min prof <=? F2 p)%float = true /\ (F2 p <=? F2_max prof)%float = true
     /\ R1 p = R2 p /\ R2 p = R3 p /\ R3 p = R4 p
     /\ (3 <= R1 p <= 7)%Z)
  /\ (exists p0 : VoiceParams float,
        map_xy_to_formants x y name b 0%float = Ok p0 /\ R1 p0 = 3%Z).
Proof.
  intros Hx Hy Hb Hr prof. split.
  - exact (float_formants_within_ranges name x y b r Hx Hy Hb Hr).
  - exact (float_zero_resonance name x y b Hx Hy Hb).
Qed.

Lemma formants_within_ranges_witness :
  (exists p : VoiceParams float,
     map_xy_to_formants 0.25%float 0.75%float "Tenor" 0.7%float 0.3%float = Ok p
     /\ (F1 p <=? F2 p)%float = true
     /\ (F1_min (get_profile_params "Tenor") <=? F1 p)%float = true
     /\ (F1 p <=? F1_max (get_profile_params "Tenor"))%float = true
     /\ (F2_min (get_profile_params "Tenor") <=? F2 p)%float = true
     /\ (F2 p <=? F2_max (get_profile_params "Tenor"))%float = true
     /\ R1 p = R2 p /\ R2 p = R3 p /\ R3 p = R4 p
     /\ (3 <= R1 p <= 7)%Z)
  /\ (exists p0 : VoiceParams float,
        map_xy_to_formants 0.25%float 0.75%float "Tenor" 0.7%float 0%float = Ok p0
        /\ R1 p0 = 3%Z).
Proof.
  apply (formants_within_ranges "Tenor" 0.25 0.75 0.7 0.3);
    split; reflexivity.
Defined.

(** C8.  On binary64, with brightness intensity 0 the two high formants sit
    at the midpoints [(min + max) / 2] of their ranges, whatever the
    coordinate in the unit square: the re-centred
    [x' = clamp ((x - 0.5) * 0 + 0.5) 0 1] is 0.5. *)
Theorem zero_brightness_pins_high_formants (name : string) (x y r : float) :
  in_unit x -> in_unit y -> in_unit r ->
  let prof := get_profile_params (num := float) name in
  (exists p : VoiceParams float,
     map_xy_to_formants x y name 0%float r = Ok p
     /\ F3 p = ((F3_min prof + F3_max prof) / 2)%float
     /\ F4 p = ((F4_min prof + F4_max prof) / 2)%float)
  /\ clamp ((x - 0.5) * 0 + 0.5)%float 0%float 1%float = 0.5%float.
Proof.
  intros Hx Hy Hr prof. split.
  - exact (float_brightness_zero name x y r Hx Hy Hr).
  - exact (float_x_centered_pinned x Hx).
Qed.

Lemma zero_brightness_pins_high_formants_witness :
  (exists p : VoiceParams float,
     map_xy_to_formants 0.3%float 0.5%float "Alto" 0%float 0.5%float = Ok p
     /\ F3 p = 2500%float /\ F4 p = 3050%float)
  /\ clamp ((0.3 - 0.5) * 0 + 0.5)%float 0%float 1%float = 0.5%float.
Proof.
  apply (zero_brightness_pins_high_formants "Alto" 0.3 0.5 0.5);
    split; reflexivity.
Defined.

(** C9.  On binary64, for a coordinate and intensities in [0, 1],
    [apply_voice_from_xy] returns and is a sequence of fourteen throttled
    updates of which the last two are the treble
    [round(4 + 4 x (0.5 + 0.5 b))] on knob [0o:1] and the bass
    [round(5 + 3 (1 - x) (0.5 + 0.5 b))] on knob [0o:3], [round] being
    Python's; at full brightness intensity these are (bass 8, treble 4) at
    [x = 0] and (bass 5, treble 8) at [x = 1]. *)
Theorem tilt_outputs (w : World float) (name : string) (x y b r : float)
    (st : State float) :
  in_unit x -> in_unit y -> in_unit b -> in_unit r ->
  (exists (first : list string) (bass treb : Z),
     List.length first = 12%nat
     /\ py_round (5 + 3 * (1 - x) * (0.5 + 0.5 * b))%float = Ok bass
     /\ py_round (4 + 4 * x * (0.5 + 0.5 * b))%float = Ok treb
     /\ apply_voice_from_xy w name x y b r st
        = (Ok tt,
           run_calls w
             (map Knob (first ++ [("0o:1:" ++ str_int treb)%string;
                                  ("0o:3:" ++ str_int bass)%string])) st))
  /\ (py_round (5 + 3 * (1 - 0) * (0.5 + 0.5 * 1))%float = Ok 8%Z
      /\ py_round (4 + 4 * 0 * (0.5 + 0.5 * 1))%float = Ok 4%Z)
  /\ (py_round (5 + 3 * (1 - 1) * (0.5 + 0.5 * 1))%float = Ok 5%Z
      /\ py_round (4 + 4 * 1 * (0.5 + 0.5 * 1))%float = Ok 8%Z).
Proof.
  intros Hx Hy Hb Hr. split; [|split].
  - exact (float_tilt_outputs w name x y b r st Hx Hy Hb Hr).
  - split; reflexivity.
  - split; reflexivity.
Qed.

Lemma tilt_outputs_witness :
  (exists (first : list string) (bass treb : Z),
     List.length first = 12%nat
     /\ py_round (5 + 3 * (1 - 0.25) * (0.5 + 0.5 * 0.7))%float = Ok bass
     /\ py_round (4 + 4 * 0.25 * (0.5 + 0.5 * 0.7))%float = Ok treb
     /\ apply_voice_from_xy slow_world "Tenor" 0.25%float 0.75%float 0.7%float
          0.3%float fresh_state
        = (Ok tt,
           run_calls slow_world
             (map Knob (first ++ [("0o:1:" ++ str_int treb)%string;
                                  ("0o:3:" ++ str_int bass)%string]))
             fresh_state))
  /\ (py_round (5 + 3 * (1 - 0) * (0.5 + 0.5 * 1))%float = Ok 8%Z
      /\ py_round (4 + 4 * 0 * (0.5 + 0.5 * 1))%float = Ok 4%Z)
  /\ (py_round (5 + 3 * (1 - 1) * (0.5 + 0.5 * 1))%float = Ok 5%Z
      /\ py_round (4 + 4 * 1 * (0.5 + 0.5 * 1))%float = Ok 8%Z).
Proof.
  apply (tilt_outputs slow_world "Tenor" 0.25 0.75 0.7 0.3 fresh_state);
    split; reflexivity.
Defined.

(** ** A failed transmission *)

(** C4 (as stated).  The first throttled update is accepted at clock
    reading 1000.0 and [subprocess.run] raises.  The timestamp has moved
    from 0.0 to 1000.0 all the same, and the update that comes 10 ms later is
    dropped; with the timestamp left at 0.0 that update would have been
    forwarded. *)
Lemma failed_send_moves_timestamp :
  let st1 := dispatch failing_world (Knob "0f:2:1205") fresh_state in
  subprocess_run failing_world (List.length (device_log fresh_state)) = Failed
  /\ forwarded failing_world (Knob "0f:2:1205") fresh_state = true
  /\ _last_update_time fresh_state = 0%float
  /\ _last_update_time st1 = 1000%float
  /\ forwarded failing_world (Knob "1f:2:1400") st1 = false
  /\ forwarded failing_world (Knob "1f:2:1400")
       {| _last_update_time := _last_update_time fresh_state;
          clock_reads := clock_reads st1;
          device_log := device_log st1 |} = true.
Proof. cbn zeta. repeat split; vm_compute; reflexivity. Qed.

(** ** Evaluations on binary64 *)

Example map_tenor_centre :
  map_xy_to_formants 0.5%float 0.5%float "Tenor" 0.7%float 0.5%float
  = Ok {| F1 := 565%float; F2 := 1200%float; F3 := 2250%float; F4 := 2900%float;
          L1 := 55; L2 := 45; L3 := 30; L4 := 24;
          R1 := 4; R2 := 4; R3 := 4; R4 := 4 |}.
Proof. vm_compute. reflexivity. Qed.

(** Readings 10 ms apart as binary64 numbers: [(1000.15 - 1000.0) * 1000]
    is 149.99999999997726, so after the first update the next one to pass
    is the seventeenth, not the sixteenth. *)
Example float_burst_fates :
  map snd (fates burst_world_float (map Knob (repeat "0f:2:1205" 18)) fresh_state)
  = [true; false; false; false; false; false; false; false; false;
     false; false; false; false; false; false; false; true; false].
Proof. vm_compute. reflexivity. Qed.

(** When every command takes 200 ms, the fourteen updates all pass. *)
Example float_apply_voice_slow :
  map (fun cmd => nth 4 cmd "")
      (device_log (snd (apply_voice_from_xy slow_world "Tenor" 0%float 0.5%float
                          1%float 0.5%float fresh_state)))
  = ["0f:2:427"; "1f:2:995"; "2f:2:1621"; "3f:2:2068";
     "0f:3:55"; "1f:3:45"; "2f:3:25"; "3f:3:20";
     "0f:6:3"; "1f:6:3"; "2f:6:3"; "3f:6:3"; "0o:1:4"; "0o:3:8"].
Proof. vm_compute. reflexivity. Qed.

(** When they take 10 ms, only the first one does. *)
Example float_apply_voice_fast :
  map (fun cmd => nth 4 cmd "")
      (device_log (snd (apply_voice_from_xy burst_world_float "Tenor" 0%float
                          0.5%float 1%float 0.5%float fresh_state)))
  = ["0f:2:427"].
Proof. vm_compute. reflexivity. Qed.

(** * The updates, the window and the analyzer: lemmas *)

Section VoiceCalls.

Context {num : Type} `{PyNum num}.
Variable w : World num.

(** A call of [apply_voice_from_xy] that raises nothing is the sequence of
    its fourteen throttled updates. *)
Lemma apply_voice_calls (name : string) (x y b r : num) (st : State num) :
  fst (apply_voice_from_xy w name x y b r st) = Ok tt ->
  exists (p : VoiceParams num) (kF1 kF2 kF3 kF4 treb bass : Z),
    map_xy_to_formants x y name b r = Ok p
    /\ hz_to_knob_value (F1 p) = Ok kF1 /\ hz_to_knob_value (F2 p) = Ok kF2
    /\ hz_to_knob_value (F3 p) = Ok kF3 /\ hz_to_knob_value (F4 p) = Ok kF4
    /\ py_round (fadd (of_int 5)
                   (fmul (fmul (of_int 3) (fsub (of_int 1) x))
                         (fadd (lit 5 1) (fmul (lit 5 1) b)))) = Ok bass
    /\ py_round (fadd (of_int 4)
                   (fmul (fmul (of_int 4) x)
                         (fadd (lit 5 1) (fmul (lit 5 1) b)))) = Ok treb
    /\ snd (apply_voice_from_xy w name x y b r st)
       = run_calls w (map Knob (voice_pkvs p kF1 kF2 kF3 kF4 treb bass)) st.
Proof.
  unfold apply_voice_from_xy, ebind, lift.
  destruct (map_xy_to_formants x y name b r) as [p|e] eqn:Ep; [|discriminate].
  destruct (hz_to_knob_value (F1 p)) as [kF1|e] eqn:E1; [|discriminate].
  destruct (hz_to_knob_value (F2 p)) as [kF2|e] eqn:E2; [|discriminate].
  destruct (hz_to_knob_value (F3 p)) as [kF3|e] eqn:E3; [|discriminate].
  destruct (hz_to_knob_value (F4 p)) as [kF4|e] eqn:E4; [|discriminate].
  rewrite !run_dlin_knob_ok.
  change (of_int (8 - 5)) with (of_int 3).
  change (of_int (8 - 4)) with (of_int 4).
  destruct (py_round (fadd (of_int 5) _)) as [bass|e] eqn:Eb; [|discriminate].
  destruct (py_round (fadd (of_int 4) _)) as [treb|e] eqn:Et; [|discriminate].
  rewrite !run_dlin_knob_ok. intros _.
  exists p, kF1, kF2, kF3, kF4, treb, bass.
  repeat split; try assumption; reflexivity.
Qed.

(** Updates that all come too soon after the stored timestamp leave the
    device alone. *)
Lemma knobs_all_dropped (pkvs : list string) :
  forall st : State num,
    (forall k, (k < List.length pkvs)%nat ->
               flt (fmul (fsub (time_time w (clock_reads st + k)) (_last_update_time st))
                         (of_int 1000)) (of_int UPDATE_INTERVAL_MS) = true) ->
    run_calls w (map Knob pkvs) st
    = {| _last_update_time := _last_update_time st;
         clock_reads := clock_reads st + List.length pkvs;
         device_log := device_log st |}.
Proof.
  induction pkvs as [|p pkvs IH]; intros st Hsoon.
  - cbn. rewrite Nat.add_0_r. destruct st; reflexivity.
  - cbn [map run_calls fold_left dispatch]. unfold run_dlin_knob.
    pose proof (Hsoon 0%nat ltac:(cbn; lia)) as H0. rewrite Nat.add_0_r in H0.
    rewrite H0. cbn [snd].
    change (fold_left (fun st0 c => dispatch w c st0) (map Knob pkvs) ?s)
      with (run_calls w (map Knob pkvs) s).
    rewrite IH.
    + cbn [_last_update_time clock_reads device_log List.length]. f_equal. lia.
    + intros k Hk. cbn [_last_update_time clock_reads].
      replace (S (clock_reads st) + k)%nat with (clock_reads st + S k)%nat by lia.
      apply Hsoon. cbn. lia.
Qed.

(** Updates of which none comes too soon after the one before are all
    handed to [subprocess.run], in their order. *)
Lemma knobs_all_sent (pkvs : list string) :
  forall st : State num,
    (pkvs <> [] ->
     flt (fmul (fsub (time_time w (clock_reads st)) (_last_update_time st))
               (of_int 1000)) (of_int UPDATE_INTERVAL_MS) = false) ->
    (forall k, (S k < List.length pkvs)%nat ->
               too_soon w (clock_reads st + k) (clock_reads st + S k) = false) ->
    device_log (run_calls w (map Knob pkvs) st)
    = device_log st ++ map (fun q => dlin_command w (knob_args q)) pkvs
    /\ clock_reads (run_calls w (map Knob pkvs) st)
       = (clock_reads st + List.length pkvs)%nat.
Proof.
  induction pkvs as [|p pkvs IH]; intros st Hfirst Hnext.
  - cbn. rewrite app_nil_r. split; [reflexivity | lia].
  - cbn [map run_calls fold_left dispatch]. unfold run_dlin_knob.
    rewrite (Hfirst ltac:(discriminate)). cbn [snd].
    change (fold_left (fun st0 c => dispatch w c st0) (map Knob pkvs) ?s)
      with (run_calls w (map Knob pkvs) s).
    match goal with |- context [run_calls w _ ?s] => destruct (IH s) as [Hlog Hclk] end.
    + intros Hne. cbn [_last_update_time clock_reads].
      destruct pkvs as [|q pkvs]; [contradiction|].
      pose proof (Hnext 0%nat ltac:(cbn; lia)) as H0.
      unfold too_soon in H0. rewrite Nat.add_0_r, Nat.add_1_r in H0. exact H0.
    + intros k Hk. cbn [clock_reads].
      replace (S (clock_reads st) + k)%nat with (clock_reads st + S k)%nat by lia.
      replace (S (clock_reads st) + S k)%nat with (clock_reads st + S (S k))%nat by lia.
      apply Hnext. cbn [List.length]. lia.
    + rewrite Hlog, Hclk. cbn [device_log clock_reads List.length map].
      rewrite <- app_assoc. split; [reflexivity | lia].
Qed.

End VoiceCalls.

(** ** Slot numbers *)

Lemma string_of_uint_decimal (d : Decimal.uint) :
  all_chars is_decimal (NilEmpty.string_of_uint d) = true.
Proof. induction d; cbn [NilEmpty.string_of_uint all_chars]; try rewrite IHd; reflexivity. Qed.

Lemma decimal_isdigit_char (c : ascii) : is_decimal c = true -> isdigit_char c = true.
Proof. intros Hc. unfold isdigit_char. now rewrite Hc. Qed.

Lemma decimal_not_space (c : ascii) : is_decimal c = true -> isspace c = false.
Proof.
  unfold is_decimal, isspace. set (n := nat_of_ascii c). intros Hn.
  apply andb_prop in Hn as [H1 H2]. apply Nat.leb_le in H1, H2.
  repeat match goal with
         | |- context [(?a <=? ?b)%nat] => destruct (Nat.leb_spec a b)
         | |- context [(?a =? ?b)%nat] => destruct (Nat.eqb_spec a b)
         end; try reflexivity; lia.
Qed.

Lemma all_chars_impl (p q : ascii -> bool) (s : string) :
  (forall c, p c = true -> q c = true) ->
  all_chars p s = true -> all_chars q s = true.
Proof.
  intros Hpq. induction s as [|c s IH]; cbn [all_chars]; [reflexivity|].
  intros Hs. apply andb_prop in Hs as [Hc Hs]. now rewrite (Hpq c Hc), IH.
Qed.

Lemma lstrip_decimal (s : string) : all_chars is_decimal s = true -> lstrip s = s.
Proof.
  destruct s as [|c s]; cbn [lstrip all_chars]; [reflexivity|].
  intros Hs. apply andb_prop in Hs as [Hc _]. now rewrite (decimal_not_space c Hc).
Qed.

Lemma rstrip_decimal (s : string) : all_chars is_decimal s = true -> rstrip s = s.
Proof.
  induction s as [|c s IH]; cbn [rstrip all_chars]; [reflexivity|].
  intros Hs. apply andb_prop in Hs as [Hc Hs]. rewrite (IH Hs).
  destruct s; [now rewrite (decimal_not_space c Hc) | reflexivity].
Qed.

Lemma strip_decimal (s : string) : all_chars is_decimal s = true -> strip s = s.
Proof. intros Hs. unfold strip. now rewrite (lstrip_decimal s Hs), rstrip_decimal. Qed.

(** [str(n)] of a natural number is a string of decimal digits that [int]
    reads back as [n]. *)
Lemma str_int_decimal (n : Z) :
  (0 <= n)%Z ->
  str_int n <> "" /\ all_chars is_decimal (str_int n) = true
  /\ py_int (str_int n) = Ok n.
Proof.
  intros Hn. destruct n as [|p|p]; [repeat split; easy | | lia].
  assert (Hne : NilEmpty.string_of_uint (Pos.to_uint p) <> "").
  { intros E. pose proof (NilEmpty.usu (Pos.to_uint p)) as Hu. rewrite E in Hu.
    cbn in Hu. injection Hu as Hu.
    pose proof (Unsigned.of_to p) as Hp. rewrite <- Hu in Hp. discriminate. }
  assert (Hs : str_int (Z.pos p) = NilEmpty.string_of_uint (Pos.to_uint p)).
  { unfold str_int, Z.to_int, NilZero.string_of_int, NilZero.string_of_uint.
    destruct (Pos.to_uint p) eqn:E; try reflexivity. now contradiction Hne. }
  rewrite Hs. split; [exact Hne|]. split; [apply string_of_uint_decimal|].
  unfold py_int. rewrite NilEmpty.usu.
  destruct (NilEmpty.string_of_uint (Pos.to_uint p)); [now contradiction Hne|].
  unfold Z.of_uint. rewrite Unsigned.of_to. reflexivity.
Qed.

Lemma isdigit_decimal (s : string) :
  s <> "" -> all_chars is_decimal s = true -> isdigit s = true.
Proof.
  intros Hne Hs. destruct s; [now contradiction Hne|]. unfold isdigit.
  exact (all_chars_impl _ _ _ decimal_isdigit_char Hs).
Qed.

(** [int] of a string of decimal digits returns a natural number. *)
Lemma py_int_decimal (s : string) :
  s <> "" -> all_chars is_decimal s = true ->
  exists n, py_int s = Ok n /\ (0 <= n)%Z.
Proof.
  intros Hne Hs. unfold py_int. destruct s as [|c s]; [now contradiction Hne|].
  assert (Hu : exists d, NilEmpty.uint_of_string (String c s) = Some d).
  { clear Hne. induction (String c s) as [|a t IH]; [eexists; reflexivity|].
    cbn [all_chars] in Hs. apply andb_prop in Hs as [Ha Ht].
    destruct (IH Ht) as [d Hd]. cbn [NilEmpty.uint_of_string]. rewrite Hd.
    unfold is_decimal in Ha. unfold uint_of_char.
    destruct a as [[|] [|] [|] [|] [|] [|] [|] [|]]; cbn in Ha |- *;
      try discriminate; eexists; reflexivity. }
  destruct Hu as [d ->]. eexists. split; [reflexivity|].
  unfold Z.of_uint. lia.
Qed.

(** A superscript digit passes [isdigit] and makes [int] raise. *)
Lemma py_int_superscript (s : string) :
  all_chars is_decimal s = false -> py_int s = Raise ValueError.
Proof.
  intros Hs. unfold py_int. destruct s as [|c s]; [reflexivity|].
  assert (Hu : NilEmpty.uint_of_string (String c s) = None).
  { induction (String c s) as [|a t IH]; [discriminate|].
    cbn [all_chars] in Hs. cbn [NilEmpty.uint_of_string].
    destruct (is_decimal a) eqn:Ha.
    - cbn in Hs. rewrite (IH Hs).
      unfold uint_of_char.
      destruct a as [[|] [|] [|] [|] [|] [|] [|] [|]]; reflexivity.
    - unfold is_decimal in Ha. unfold uint_of_char.
      destruct a as [[|] [|] [|] [|] [|] [|] [|] [|]]; cbn in Ha |- *;
        try discriminate; destruct (NilEmpty.uint_of_string t); reflexivity. }
  now rewrite Hu.
Qed.

Lemma lstrip_blanks (p s : string) :
  all_chars isspace p = true -> lstrip (p ++ s)%string = lstrip s.
Proof.
  induction p as [|c p IH]; cbn [append all_chars lstrip]; [reflexivity|].
  intros Hp. apply andb_prop in Hp as [Hc Hp]. rewrite Hc. exact (IH Hp).
Qed.

Lemma rstrip_blanks_only (q : string) : all_chars isspace q = true -> rstrip q = "".
Proof.
  induction q as [|c q IH]; cbn [all_chars rstrip]; [reflexivity|].
  intros Hq. apply andb_prop in Hq as [Hc Hq]. now rewrite (IH Hq), Hc.
Qed.

Lemma rstrip_blanks (s q : string) :
  all_chars isspace q = true -> rstrip (s ++ q)%string = rstrip s.
Proof.
  intros Hq. induction s as [|c s IH]; cbn [append rstrip].
  - apply rstrip_blanks_only, Hq.
  - now rewrite IH.
Qed.

(** Blanks around a string of decimal digits are stripped. *)
Lemma strip_padded (p s q : string) :
  all_chars isspace p = true -> all_chars isspace q = true ->
  all_chars is_decimal s = true ->
  strip (p ++ s ++ q)%string = s.
Proof.
  intros Hp Hq Hs. unfold strip. rewrite (lstrip_blanks p _ Hp).
  destruct s as [|c s].
  - cbn [append]. clear Hp. induction q as [|a q IH]; [reflexivity|].
    cbn [all_chars] in Hq. apply andb_prop in Hq as [Ha Hq].
    cbn [lstrip]. rewrite Ha. exact (IH Hq).
  - cbn [all_chars] in Hs. pose proof Hs as Hs'. apply andb_prop in Hs as [Hc _].
    cbn [append lstrip]. rewrite (decimal_not_space c Hc).
    change (String c (s ++ q)%string) with (String c s ++ q)%string.
    rewrite (rstrip_blanks _ q Hq). now apply rstrip_decimal.
Qed.

(** [str(n)] of a negative number starts with the sign, which [isdigit]
    refuses, with or without blanks around the text. *)
Lemma str_int_negative (n : Z) (p q : string) :
  (n < 0)%Z -> all_chars isspace p = true ->
  isdigit (strip (p ++ str_int n ++ q)%string) = false.
Proof.
  intros Hn Hp. destruct n as [|d|d]; try lia.
  assert (E : str_int (Z.neg d) = String "-" (NilEmpty.string_of_uint (Pos.to_uint d))).
  { unfold str_int, NilZero.string_of_int. cbn [Z.to_int].
    unfold NilZero.string_of_uint.
    destruct (Pos.to_uint d) eqn:Ed; try reflexivity.
    exfalso. pose proof (DecimalPos.Unsigned.of_to d) as Hof. rewrite Ed in Hof.
    discriminate. }
  rewrite E. unfold strip. rewrite (lstrip_blanks p _ Hp).
  cbn [append lstrip]. change (isspace "-") with false. cbv iota.
  assert (R : forall t, exists t', rstrip (String "-" t) = String "-" t').
  { intros t. cbn [rstrip]. destruct (rstrip t); [|eauto].
    change (isspace "-") with false. eauto. }
  destruct (R (NilEmpty.string_of_uint (Pos.to_uint d) ++ q)%string) as [t' ->].
  reflexivity.
Qed.

Section WindowFacts.

Context {num : Type} `{PyNum num} `{PyMath num}.
Variable w : World num.

Lemma apply_current_disabled (a : App num) (st : State num) :
  processing_enabled a = false -> apply_current w a st = (Ok tt, (a, st)).
Proof. intros Hd. unfold apply_current. now rewrite Hd. Qed.

(** [apply_current] changes no attribute of the window. *)
Lemma apply_current_app (a : App num) (st : State num) :
  fst (snd (apply_current w a st)) = a.
Proof.
  unfold apply_current. destruct (negb (processing_enabled a)); [reflexivity|].
  destruct (get_brightness_resonance a) as [[b r]|e]; [|reflexivity].
  destruct (apply_voice_from_xy _ _ _ _ _ _ _). reflexivity.
Qed.

Lemma move_point_disabled (x y : Z) (a : App num) (st : State num) :
  processing_enabled a = false ->
  snd (snd (move_point w x y a st)) = st
  /\ processing_enabled (fst (snd (move_point w x y a st))) = false.
Proof.
  intros Hd. unfold move_point.
  destruct (norm_from_coord _ _) as [[xn yn]|e]; [|split; [reflexivity | exact Hd]].
  rewrite apply_current_disabled.
  - split; [reflexivity|]. unfold update_point_position.
    destruct (coord_from_norm _ _). exact Hd.
  - unfold update_point_position. destruct (coord_from_norm _ _). exact Hd.
Qed.

(** With processing disabled, an event other than the toggle and the three
    preset buttons leaves the dispatcher's state as it is. *)
Lemma handle_disabled (e : Event) (a : App num) (st : State num) :
  processing_enabled a = false ->
  is_preset_click e = false -> is_toggle e = false ->
  snd (snd (handle w e a st)) = st
  /\ processing_enabled (fst (snd (handle w e a st))) = false.
Proof.
  intros Hd Hp Ht. destruct e; try discriminate; cbn [handle].
  - unfold on_press. now apply move_point_disabled.
  - unfold on_drag. destruct (dragging a); [now apply move_point_disabled|].
    split; [reflexivity | exact Hd].
  - unfold on_release. rewrite apply_current_disabled by exact Hd.
    split; [reflexivity | exact Hd].
  - unfold on_profile_change. rewrite apply_current_disabled by exact Hd.
    split; [reflexivity | exact Hd].
  - unfold on_slider_change. rewrite apply_current_disabled by exact Hd.
    split; [reflexivity | exact Hd].
  - unfold on_slider_change. rewrite apply_current_disabled by exact Hd.
    split; [reflexivity | exact Hd].
  - split; [reflexivity | exact Hd].
  - split; [reflexivity | exact Hd].
  - split; [reflexivity | exact Hd].
  - unfold load_wav_profile. destruct path; [split; [reflexivity | exact Hd]|].
    destruct file as [f|]; [|split; [reflexivity | exact Hd]].
    destruct (analyze_wav_profile _ _ _ _) as [p|]; [|split; [reflexivity | exact Hd]].
    split; [reflexivity|]. unfold update_wav_marker. cbn [wav_target set_wav].
    destruct (coord_from_norm _ _). exact Hd.
  - unfold snap_to_wav_profile. destruct (wav_target a) as [[x y]|];
      [|split; [reflexivity | exact Hd]].
    rewrite apply_current_disabled.
    + split; [reflexivity|]. unfold update_point_position.
      destruct (coord_from_norm _ _). exact Hd.
    + unfold update_point_position. destruct (coord_from_norm _ _). exact Hd.
Qed.

Lemma run_events_disabled (es : list Event) :
  forall (a : App num) (st : State num),
    processing_enabled a = false ->
    forallb (fun e => negb (is_preset_click e || is_toggle e)) es = true ->
    snd (snd (run_events w es a st)) = st
    /\ processing_enabled (fst (snd (run_events w es a st))) = false.
Proof.
  induction es as [|e es IH]; intros a st Hd Hes.
  - split; [reflexivity | exact Hd].
  - cbn [forallb] in Hes. apply andb_prop in Hes as [He Hes].
    apply negb_true_iff, orb_false_iff in He as [Hp Ht].
    destruct (handle_disabled e a st Hd Hp Ht) as [Hst Hen].
    cbn [run_events].
    destruct (handle w e a st) as [r [a' st']]. cbn [fst snd] in Hst, Hen. subst st'.
    destruct (IH a' st Hen Hes) as [Hst' Hen'].
    destruct (run_events w es a' st) as [rs fin]. exact (conj Hst' Hen').
Qed.

(** ** The preset buttons *)

Lemma run_dlin_appends (args : list string) (st : State num) :
  snd (run_dlin w args st)
  = {| _last_update_time := _last_update_time st;
       clock_reads := clock_reads st;
       device_log := device_log st ++ [dlin_command w args] |}.
Proof. apply run_dlin_state. Qed.

Lemma capture_base_invalid (a : App num) (st : State num) :
  isdigit (strip (slot_var a)) = false ->
  capture_base_from_slot w a st = (Ok tt, (a, st)).
Proof. intros Hd. unfold capture_base_from_slot. now rewrite Hd. Qed.

Lemma capture_base_valid (a : App num) (st : State num) (slot : Z) :
  isdigit (strip (slot_var a)) = true ->
  py_int (strip (slot_var a)) = Ok slot ->
  capture_base_from_slot w a st
  = (Ok tt,
     (set_base a (Some ("dpc_base_knobs_slot" ++ str_int slot)%string) true,
      {| _last_update_time := _last_update_time st;
         clock_reads := clock_reads st;
         device_log :=
           device_log st
           ++ [dlin_command w ["dump"; "-k"; "-f";
                               ("dpc_base_knobs_slot" ++ str_int slot)%string]] |})).
Proof.
  intros Hd Hi. unfold capture_base_from_slot. rewrite Hd, Hi. cbn [negb].
  now rewrite run_dlin_appends.
Qed.

Lemma copy_slot_valid (a : App num) (st : State num) (src dst : Z) :
  isdigit (strip (slot_var a)) = true ->
  isdigit (strip (target_slot_var a)) = true ->
  py_int (strip (slot_var a)) = Ok src ->
  py_int (strip (target_slot_var a)) = Ok dst ->
  copy_current_to_target_slot w a st
  = (Ok tt,
     (a, {| _last_update_time := _last_update_time st;
            clock_reads := clock_reads st;
            device_log :=
              device_log st
              ++ [dlin_command w ["dump"; "-s"; str_int src; "-f"; "_dpc_temp_copy"];
                  dlin_command w ["pump"; "-f"; "_dpc_temp_copy"; "-s"; str_int dst]] |})).
Proof.
  intros Hs Hd Hsi Hdi. unfold copy_current_to_target_slot.
  rewrite Hs, Hd, Hsi, Hdi. cbn [negb orb].
  rewrite !run_dlin_appends. cbn [_last_update_time clock_reads device_log].
  now rewrite <- app_assoc.
Qed.

Lemma copy_slot_invalid (a : App num) (st : State num) :
  isdigit (strip (slot_var a)) = false \/ isdigit (strip (target_slot_var a)) = false ->
  copy_current_to_target_slot w a st = (Ok tt, (a, st)).
Proof.
  intros Hd. unfold copy_current_to_target_slot.
  destruct Hd as [-> | ->]; cbn [negb orb]; [reflexivity|].
  now rewrite orb_true_r.
Qed.

Lemma save_dlp_valid (a : App num) (st : State num) (slot : Z) :
  isdigit (strip (slot_var a)) = true ->
  py_int (strip (slot_var a)) = Ok slot ->
  save_current_to_dlp w a st
  = (Ok tt,
     (a, {| _last_update_time := _last_update_time st;
            clock_reads := clock_reads st;
            device_log :=
              device_log st
              ++ [dlin_command w
                    ["dump"; "-s"; str_int slot; "-f";
                     if (strip (save_name_var a) =? "")%string then "dpc_preset"
                     else strip (save_name_var a)]] |})).
Proof.
  intros Hd Hi. unfold save_current_to_dlp. rewrite Hd, Hi. cbn [negb].
  rewrite run_dlin_appends. destruct (strip (save_name_var a)); reflexivity.
Qed.

(** A preset button whose slot field passes [isdigit] and holds a
    superscript raises [ValueError] and does nothing. *)
Lemma preset_click_superscript (e : Event) (a : App num) (st : State num) :
  is_preset_click e = true ->
  isdigit (strip (slot_var a)) = true ->
  isdigit (strip (target_slot_var a)) = true ->
  all_chars is_decimal (strip (slot_var a)) = false ->
  handle w e a st = (Raise ValueError, (a, st)).
Proof.
  intros He Hs Hd Hsup. pose proof (py_int_superscript _ Hsup) as Hi.
  destruct e; try discriminate; cbn [handle].
  - unfold capture_base_from_slot. now rewrite Hs, Hi.
  - unfold save_current_to_dlp. now rewrite Hs, Hi.
  - unfold copy_current_to_target_slot. now rewrite Hs, Hd, Hi.
Qed.

(** ** The processing toggle *)

Lemma toggle_off (a : App num) (st : State num) :
  processing_enabled a = false ->
  on_enable_toggle w a st
  = (Ok tt,
     (a,
      match base_knob_file a with
      | Some f =>
          if base_captured a && negb (f =? "")%string then
            {| _last_update_time := _last_update_time st;
               clock_reads := clock_reads st;
               device_log :=
                 device_log st ++ [dlin_command w ["pump"; "-k"; "-f"; f]] |}
          else st
      | None => st
      end)).
Proof.
  intros Hd. unfold on_enable_toggle. rewrite Hd. cbn [negb].
  destruct (base_knob_file a) as [f|]; [|reflexivity].
  destruct (base_captured a && negb (f =? "")%string); [|reflexivity].
  now rewrite run_dlin_appends.
Qed.

(** ** The WAV target *)

Lemma load_wav_effect (path : string) (file : option WavFile)
    (a : App num) (st : State num) :
  exists a' : App num,
    load_wav_profile path file a st = (Ok tt, (a', st))
    /\ self_x_norm a' = self_x_norm a /\ self_y_norm a' = self_y_norm a
    /\ point a' = point a
    /\ processing_enabled a' = processing_enabled a
    /\ match file with
       | Some f =>
           match analyze_wav_profile (nchannels f) (sampwidth f) (framerate f)
                   (frames_read f) with
           | Ok p =>
               if (path =? "")%string then a' = a
               else wav_target a' = Some (x_norm p, y_norm p)
                    /\ wav_marker a'
                       = Some (oval (fst (coord_from_norm (x_norm p) (y_norm p)))
                                    (snd (coord_from_norm (x_norm p) (y_norm p))) 6)
           | Raise _ => a' = a
           end
       | None => a' = a
       end.
Proof.
  unfold load_wav_profile. destruct path as [|c path].
  - exists a. repeat split; try reflexivity.
    destruct file as [f|]; [|reflexivity].
    destruct (analyze_wav_profile _ _ _ _); reflexivity.
  - destruct file as [f|]; [|exists a; repeat split; reflexivity].
    destruct (analyze_wav_profile _ _ _ _) as [p|e];
      [|exists a; repeat split; reflexivity].
    eexists. split; [reflexivity|].
    unfold update_wav_marker. cbn [wav_target set_wav].
    destruct (coord_from_norm (x_norm p) (y_norm p)) as [cx cy] eqn:Ec.
    cbn [fst snd self_x_norm self_y_norm point processing_enabled set_wav
         wav_target wav_marker String.eqb].
    repeat split; reflexivity.
Qed.

End WindowFacts.

(** The two coordinates the analyzer returns are clamped, whatever the
    arithmetic. *)
Lemma profile_clamped {num : Type} `{PyNum num} (freqs mag : list num) (p : Profile num) :
  profile_of_spectrum freqs mag = Ok p ->
  exists ex ey : num,
    x_norm p = clamp ex (of_int 0) (of_int 1)
    /\ y_norm p = clamp ey (of_int 0) (of_int 1).
Proof.
  unfold profile_of_spectrum.
  destruct (if fle _ _ then _ else _) as [c l].
  destruct (py_div (fsub c _) _) as [qx|]; [|discriminate]. cbn [rbind].
  destruct (py_div (fsub l _) _) as [qy|]; [|discriminate]. cbn [rbind].
  intros E. injection E as <-. cbn [x_norm y_norm]. eauto.
Qed.

Lemma analyze_clamped {num : Type} `{PyNum num} `{PyMath num}
    (nc sw fr : Z) (samples : list Z) (p : Profile num) :
  analyze_wav_profile nc sw fr samples = Ok p ->
  exists ex ey : num,
    x_norm p = clamp ex (of_int 0) (of_int 1)
    /\ y_norm p = clamp ey (of_int 0) (of_int 1).
Proof.
  unfold analyze_wav_profile, analyze_signal.
  destruct (decode_samples sw samples) as [data|]; [|discriminate]. cbn [rbind].
  destruct (downmix nc data) as [data'|]; [|discriminate]. cbn [rbind].
  destruct (List.length data' =? 0)%nat; [discriminate|].
  destruct (py_div _ _) as [d|]; [|discriminate]. cbn [rbind].
  destruct (np_rfftfreq _ d) as [freqs|]; [|discriminate]. cbn [rbind].
  apply profile_clamped.
Qed.

Section WindowFloat.

Context {M : PyMath float}.
Variable w : World float.

Lemma float_brightness_resonance (a : App float) :
  exists b r : float,
    get_brightness_resonance a = Ok (b, r) /\ in_unit b /\ in_unit r.
Proof.
  unfold get_brightness_resonance, py_div.
  change (feqb (of_int 100) (of_int 0)) with false. cbn [rbind].
  eexists _, _. split; [reflexivity|].
  split; apply float_clamp_unit.
Qed.

Lemma float_norm_from_coord (x y : Z) :
  exists xn yn : float,
    norm_from_coord x y = Ok (xn, yn) /\ in_unit xn /\ in_unit yn.
Proof.
  unfold norm_from_coord, py_div.
  change (feqb (of_int (margin + size - margin)) (of_int 0)) with false. cbn [rbind].
  eexists _, _. split; [reflexivity|].
  split; apply float_clamp_unit.
Qed.

(** On the pad [apply_current] raises nothing. *)
Lemma float_apply_current (a : App float) (st : State float) :
  in_unit (self_x_norm a) -> in_unit (self_y_norm a) ->
  fst (apply_current w a st) = Ok tt.
Proof.
  intros Hx Hy. unfold apply_current.
  destruct (negb (processing_enabled a)); [reflexivity|].
  destruct (float_brightness_resonance a) as (b & r & -> & Hb & Hr).
  pose proof (float_apply_voice_returns w (profile_var a) (self_x_norm a)
                (self_y_norm a) b r st Hx Hy Hb Hr) as Hok.
  destruct (apply_voice_from_xy _ _ _ _ _ _ _). exact Hok.
Qed.

Lemma in_pad_point (a : App float) : in_pad (update_point_position a) <-> in_pad a.
Proof. unfold update_point_position. destruct (coord_from_norm _ _). reflexivity. Qed.

Lemma float_move_point (x y : Z) (a : App float) (st : State float) :
  in_pad a ->
  fst (move_point w x y a st) = Ok tt
  /\ in_pad (fst (snd (move_point w x y a st))).
Proof.
  intros (_ & _ & Ht). unfold move_point.
  destruct (float_norm_from_coord (clamp x margin (margin + size)%Z)
              (clamp y margin (margin + size)%Z)) as (xn & yn & -> & Hx & Hy).
  assert (Hpad : in_pad (update_point_position (set_xy a xn yn))).
  { apply in_pad_point. unfold in_pad. cbn [self_x_norm self_y_norm wav_target set_xy].
    split; [exact Hx | split; [exact Hy | exact Ht]]. }
  split.
  - apply float_apply_current; apply Hpad.
  - rewrite apply_current_app. exact Hpad.
Qed.

(** An event keeps the point and the target on the pad; its handler
    returns, or it is a preset button whose [int] raised. *)
Lemma float_handle (e : Event) (a : App float) (st : State float) :
  in_pad a ->
  in_pad (fst (snd (handle w e a st)))
  /\ (fst (handle w e a st) = Ok tt
      \/ (is_preset_click e = true
          /\ handle w e a st = (Raise ValueError, (a, st)))).
Proof.
  intros Hpad. pose proof Hpad as (Hx & Hy & Ht).
  destruct e; cbn [handle].
  - unfold on_press.
    destruct (float_move_point x y (set_dragging a true) st Hpad) as [Hok Hp].
    split; [exact Hp | left; exact Hok].
  - unfold on_drag. destruct (dragging a).
    + destruct (float_move_point x y a st Hpad) as [Hok Hp].
      split; [exact Hp | left; exact Hok].
    + split; [exact Hpad | left; reflexivity].
  - unfold on_release. rewrite apply_current_app. split; [exact Hpad|].
    left. now apply float_apply_current.
  - unfold on_profile_change. rewrite apply_current_app. split; [exact Hpad|].
    left. now apply float_apply_current.
  - unfold on_enable_toggle. cbn [processing_enabled set_vars base_knob_file base_captured].
    destruct (negb (negb (processing_enabled a))).
    + destruct (base_knob_file a) as [f|]; [|split; [exact Hpad | left; reflexivity]].
      destruct (base_captured a && negb (f =? "")%string);
        split; try exact Hpad; left; reflexivity.
    + rewrite apply_current_app. split; [exact Hpad|].
      left. now apply float_apply_current.
  - unfold on_slider_change. rewrite apply_current_app. split; [exact Hpad|].
    left. now apply float_apply_current.
  - unfold on_slider_change. rewrite apply_current_app. split; [exact Hpad|].
    left. now apply float_apply_current.
  - split; [exact Hpad | left; reflexivity].
  - split; [exact Hpad | left; reflexivity].
  - split; [exact Hpad | left; reflexivity].
  - unfold capture_base_from_slot.
    destruct (negb (isdigit (strip (slot_var a)))); [split; [exact Hpad | left; reflexivity]|].
    destruct (py_int (strip (slot_var a))) as [slot|[| |]] eqn:Ei.
    + split; [exact Hpad | left; reflexivity].
    + split; [exact Hpad | right; split; reflexivity].
    + exfalso. revert Ei. unfold py_int.
      destruct (strip (slot_var a)); [discriminate|].
      destruct (NilEmpty.uint_of_string _); discriminate.
    + exfalso. revert Ei. unfold py_int.
      destruct (strip (slot_var a)); [discriminate|].
      destruct (NilEmpty.uint_of_string _); discriminate.
  - unfold save_current_to_dlp.
    destruct (negb (isdigit (strip (slot_var a)))); [split; [exact Hpad | left; reflexivity]|].
    destruct (py_int (strip (slot_var a))) as [slot|[| |]] eqn:Ei.
    + split; [exact Hpad | left; reflexivity].
    + split; [exact Hpad | right; split; reflexivity].
    + exfalso. revert Ei. unfold py_int.
      destruct (strip (slot_var a)); [discriminate|].
      destruct (NilEmpty.uint_of_string _); discriminate.
    + exfalso. revert Ei. unfold py_int.
      destruct (strip (slot_var a)); [discriminate|].
      destruct (NilEmpty.uint_of_string _); discriminate.
  - unfold copy_current_to_target_slot.
    destruct (negb (isdigit (strip (slot_var a))) || negb (isdigit (strip (target_slot_var a))));
      [split; [exact Hpad | left; reflexivity]|].
    assert (Hexc : forall s e, py_int s = Raise e -> e = ValueError).
    { intros s e. unfold py_int. destruct s; [now intros [= <-]|].
      destruct (NilEmpty.uint_of_string _); [discriminate | now intros [= <-]]. }
    destruct (py_int (strip (slot_var a))) as [src|e1] eqn:E1.
    + destruct (py_int (strip (target_slot_var a))) as [dst|e2] eqn:E2.
      * split; [exact Hpad | left; reflexivity].
      * rewrite (Hexc _ _ E2). split; [exact Hpad | right; split; reflexivity].
    + rewrite (Hexc _ _ E1). split; [exact Hpad | right; split; reflexivity].
  - destruct (load_wav_effect path file a st)
      as (a' & -> & Hx' & Hy' & _ & _ & Hfile).
    cbn [fst snd]. split; [|left; reflexivity].
    destruct file as [f|]; [|subst a'; exact Hpad].
    destruct (analyze_wav_profile _ _ _ _) as [p|] eqn:Ep; [|subst a'; exact Hpad].
    destruct (path =? "")%string; [subst a'; exact Hpad|].
    destruct Hfile as [Htgt _].
    unfold in_pad. rewrite Hx', Hy', Htgt.
    split; [exact Hx | split; [exact Hy|]].
    destruct (analyze_clamped _ _ _ _ p Ep) as (ex & ey & -> & ->).
    split; apply float_clamp_unit.
  - unfold snap_to_wav_profile. destruct (wav_target a) as [[tx ty]|] eqn:Et;
      [|split; [exact Hpad | left; reflexivity]].
    destruct Ht as [Htx Hty].
    assert (Hp : in_pad (update_point_position (set_xy a tx ty))).
    { apply in_pad_point. unfold in_pad. cbn [self_x_norm self_y_norm wav_target set_xy].
      rewrite Et. split; [exact Htx | split; [exact Hty | split; assumption]]. }
    rewrite apply_current_app. split; [exact Hp|].
    left. apply float_apply_current; apply Hp.
Qed.

End WindowFloat.

Lemma clamp_Z_range (v lo hi : Z) :
  (lo <= hi)%Z -> (lo <= clamp v lo hi <= hi)%Z.
Proof.
  intros Hlh. unfold clamp, py_max, py_min. cbn [py_lt ord_Z].
  destruct (Z.ltb_spec v hi);
    [destruct (Z.ltb_spec lo v) | destruct (Z.ltb_spec lo hi)]; lia.
Qed.

Lemma clamp_Z_inside (v lo hi : Z) :
  (lo <= v <= hi)%Z -> clamp v lo hi = v.
Proof.
  intros Hv. unfold clamp, py_max, py_min. cbn [py_lt ord_Z].
  destruct (Z.ltb_spec v hi);
    [destruct (Z.ltb_spec lo v) | destruct (Z.ltb_spec lo hi)]; lia.
Qed.

(** For each of the 401 pixels of one side of the pad: the normalised
    coordinate is the quotient, and the pixel is the nearest integer of the
    coordinate found again from it. *)
Lemma pad_pixels_checked :
  forallb
    (fun n =>
       let c := (margin + Z.of_nat n)%Z in
       let q := clamp (fdiv (of_int (c - margin)) (of_int (margin + size - margin)))
                      (of_int 0) (of_int 1) in
       let x := (of_int margin + q * of_int (margin + size - margin))%float in
       Leibniz.eqb q (fdiv (of_int (c - margin)) (of_int size))
       && match float_round (x - of_int point_radius)%float,
                float_round (x + of_int point_radius)%float with
          | Ok lo, Ok hi => (lo =? c - point_radius)%Z && (hi =? c + point_radius)%Z
          | _, _ => false
          end)
    (seq 0 401) = true.
Proof. vm_compute. reflexivity. Qed.

Lemma pad_pixel (c : Z) :
  (margin <= c <= margin + size)%Z ->
  let q := clamp (fdiv (of_int (c - margin)) (of_int (margin + size - margin)))
                 (of_int 0) (of_int 1) in
  let x := (of_int margin + q * of_int (margin + size - margin))%float in
  q = fdiv (of_int (c - margin)) (of_int size)
  /\ float_round (x - of_int point_radius)%float = Ok (c - point_radius)%Z
  /\ float_round (x + of_int point_radius)%float = Ok (c + point_radius)%Z.
Proof.
  intros Hc. cbn zeta.
  pose proof pad_pixels_checked as Hall. rewrite forallb_forall in Hall.
  specialize (Hall (Z.to_nat (c - margin))).
  assert (Hin : In (Z.to_nat (c - margin)) (seq 0 401)).
  { apply in_seq. unfold margin, size in *. lia. }
  specialize (Hall Hin). cbn zeta in Hall.
  replace (margin + Z.of_nat (Z.to_nat (c - margin)))%Z with c in Hall
    by (unfold margin in *; lia).
  apply andb_prop in Hall as [H1 H2].
  apply Leibniz.eqb_spec in H1. split; [exact H1|].
  destruct (float_round (_ - _)%float) as [lo|]; [|discriminate].
  destruct (float_round (_ + _)%float) as [hi|]; [|discriminate].
  apply andb_prop in H2 as [Hlo Hhi]. apply Z.eqb_eq in Hlo, Hhi.
  now subst.
Qed.

Section PointPosition.

Context {M : PyMath float}.
Variable w : World float.

(** After [move_point] the coordinate is the quotient of the clamped pixel,
    and the corners of the point, rounded to pixels, are those of the
    square of radius 8 around that pixel. *)
Lemma float_move_point_position (x y : Z) (a : App float) (st : State float) :
  let cx := clamp x margin (margin + size)%Z in
  let cy := clamp y margin (margin + size)%Z in
  let a' := fst (snd (move_point w x y a st)) in
  self_x_norm a' = fdiv (of_int (cx - margin)) (of_int size)
  /\ self_y_norm a' = fdiv (of_int (cy - margin)) (of_int size)
  /\ (let '(x0, y0, x1, y1) := point a' in
      float_round x0 = Ok (cx - point_radius)%Z
      /\ float_round y0 = Ok (cy - point_radius)%Z
      /\ float_round x1 = Ok (cx + point_radius)%Z
      /\ float_round y1 = Ok (cy + point_radius)%Z).
Proof.
  cbn zeta.
  pose proof (clamp_Z_range x margin (margin + size) ltac:(unfold margin, size; lia)) as Hx.
  pose proof (clamp_Z_range y margin (margin + size) ltac:(unfold margin, size; lia)) as Hy.
  set (cx := clamp x margin (margin + size)%Z) in *.
  set (cy := clamp y margin (margin + size)%Z) in *.
  destruct (pad_pixel cx Hx) as (Hqx & Hx1 & Hx2).
  destruct (pad_pixel cy Hy) as (Hqy & Hy1 & Hy2).
  unfold move_point. fold cx cy.
  unfold norm_from_coord, py_div.
  change (feqb (of_int (margin + size - margin)) (of_int 0)) with false. cbn [rbind].
  rewrite apply_current_app.
  unfold update_point_position. cbn [self_x_norm self_y_norm set_xy].
  unfold coord_from_norm, oval. cbn [point set_point self_x_norm self_y_norm set_xy].
  cbn [fadd fsub fmul float_num].
  split; [exact Hqx|]. split; [exact Hqy|].
  repeat split; assumption.
Qed.

End PointPosition.

Section Session.

Context {M : PyMath float}.
Variable w : World float.

Lemma float_init (st : State float) :
  fst (init w st) = Ok tt /\ in_pad (fst (snd (init w st))).
Proof.
  unfold init, initial_app.
  match goal with |- context [apply_current w ?a st] =>
    assert (Hpad : in_pad a) end.
  { apply in_pad_point. unfold in_pad. cbn [self_x_norm self_y_norm wav_target].
    repeat split; reflexivity. }
  split.
  - apply float_apply_current; apply Hpad.
  - rewrite apply_current_app. exact Hpad.
Qed.

Lemma float_run_events (es : list Event) :
  forall (a : App float) (st : State float),
    in_pad a ->
    in_pad (fst (snd (run_events w es a st)))
    /\ Forall2 (fun e r => r = Ok tt
                           \/ (is_preset_click e = true /\ r = Raise ValueError))
               es (fst (run_events w es a st)).
Proof.
  induction es as [|e es IH]; intros a st Hpad.
  - split; [exact Hpad | constructor].
  - cbn [run_events].
    destruct (float_handle w e a st Hpad) as [Hp Hr].
    destruct (handle w e a st) as [r [a' st']] eqn:Eh. cbn [fst snd] in Hp, Hr.
    destruct (IH a' st' Hp) as [Hp' Hrs].
    destruct (run_events w es a' st') as [rs fin]. cbn [fst snd] in *.
    split; [exact Hp'|]. constructor; [|exact Hrs].
    destruct Hr as [-> | [Hc Heq]]; [now left|].
    right. split; [exact Hc|]. now injection Heq as -> _ _.
Qed.

End Session.

(** ** The analyzer: what it refuses *)

Section AnalyzerErrors.

Context {num : Type} `{PyNum num} `{PyMath num}.

Lemma decode_samples_width (sw : Z) (samples : list Z) :
  (sw = 1 \/ sw = 2 \/ sw = 4)%Z ->
  exists data : list num,
    decode_samples sw samples = Ok data /\ List.length data = List.length samples.
Proof.
  intros [-> | [-> | ->]]; unfold decode_samples; cbn [Z.eqb Pos.eqb];
    eexists; (split; [reflexivity | now rewrite length_map]).
Qed.

Lemma decode_samples_other (sw : Z) (samples : list Z) :
  sw <> 1%Z -> sw <> 2%Z -> sw <> 4%Z ->
  decode_samples (num := num) sw samples = Raise ValueError.
Proof.
  intros H1 H2 H4. unfold decode_samples.
  destruct (Z.eqb_spec sw 1); [contradiction|].
  destruct (Z.eqb_spec sw 2); [contradiction|].
  destruct (Z.eqb_spec sw 4); [contradiction|]. reflexivity.
Qed.

Lemma reshape2_even (data : list num) :
  Nat.even (List.length data) = true ->
  exists rows, reshape2 data = Ok rows
               /\ (2 * List.length rows = List.length data)%nat.
Proof.
  induction data as [|a|a b t IH] using list_pair_ind; intros Hev.
  - exists []. split; reflexivity.
  - discriminate Hev.
  - destruct (IH Hev) as (rows & Hr & Hl). cbn [reshape2]. rewrite Hr.
    eexists. split; [reflexivity|]. cbn [List.length]. lia.
Qed.

Lemma downmix_length (nc : Z) (data : list num) :
  (nc = 2%Z -> Nat.even (List.length data) = true) ->
  exists data', downmix nc data = Ok data'
                /\ (List.length data = 0%nat <-> List.length data' = 0%nat).
Proof.
  intros Hev. unfold downmix. destruct (Z.eqb_spec nc 2) as [E|E].
  - destruct (reshape2_even data (Hev E)) as (rows & -> & Hl). cbn [rbind].
    eexists. split; [reflexivity|]. unfold mean_axis1. rewrite length_map. lia.
  - exists data. split; [reflexivity | tauto].
Qed.

(** An unsupported sample width, a file without samples and a stereo file
    with an odd number of samples are refused with [ValueError]. *)
Lemma analyze_refuses (nc sw fr : Z) (samples : list Z) :
  ((sw <> 1 /\ sw <> 2 /\ sw <> 4)%Z
   \/ samples = []
   \/ (nc = 2%Z /\ Nat.even (List.length samples) = false)) ->
  analyze_wav_profile (num := num) nc sw fr samples = Raise ValueError.
Proof.
  intros Hcase. unfold analyze_wav_profile.
  assert (Hsw : (sw = 1 \/ sw = 2 \/ sw = 4)%Z \/ (sw <> 1 /\ sw <> 2 /\ sw <> 4)%Z) by lia.
  destruct Hsw as [Hsw | (H1 & H2 & H4)];
    [|now rewrite decode_samples_other].
  destruct (decode_samples_width sw samples Hsw) as (data & -> & Hlen).
  cbn [rbind]. unfold analyze_signal.
  destruct Hcase as [Hw | [-> | [-> Hodd]]].
  - lia.
  - destruct data; [|discriminate Hlen].
    destruct (downmix_length nc [] ltac:(reflexivity)) as (d' & -> & Hz).
    cbn [rbind]. destruct Hz as [Hz _]. rewrite (Hz eq_refl). reflexivity.
  - unfold downmix. cbn [Z.eqb Pos.eqb].
    rewrite reshape2_odd by (rewrite Hlen; exact Hodd). reflexivity.
Qed.

End AnalyzerErrors.

(** ** The analyzer over the reals: the ranges of what it returns *)

Lemma fold_Rplus_acc (l : list R) (a : R) :
  fold_left Rplus l a = (a + fold_left Rplus l 0)%R.
Proof.
  revert a. induction l as [|v l IH]; intros a; cbn [fold_left].
  - lra.
  - rewrite (IH (a + v)%R), (IH (0 + v)%R). lra.
Qed.

Lemma real_np_sum_cons (v : R) (l : list R) :
  np_sum (v :: l) = (v + np_sum l)%R.
Proof.
  unfold np_sum. cbn [fold_left fadd of_int real_num].
  rewrite fold_Rplus_acc. lra.
Qed.

Lemma real_np_sum_nil : np_sum (@nil R) = 0%R.
Proof. reflexivity. Qed.

Lemma real_np_sum_nonneg (l : list R) :
  Forall (fun v => (0 <= v)%R) l -> (0 <= np_sum l)%R.
Proof.
  induction 1 as [|v l Hv _ IH]; [rewrite real_np_sum_nil; lra|].
  rewrite real_np_sum_cons. lra.
Qed.

(** A weighted sum with weights between 0 and [F]. *)
Lemma real_weighted_sum (F : R) (freqs mag : list R) :
  (0 <= F)%R ->
  Forall (fun f => (0 <= f <= F)%R) freqs ->
  Forall (fun v => (0 <= v)%R) mag ->
  (0 <= np_sum (zip_with Rmult freqs mag) <= F * np_sum mag)%R.
Proof.
  intros HF Hf. revert mag. induction Hf as [|f freqs Hf0 _ IH]; intros mag Hm.
  - destruct mag; cbn [zip_with]; rewrite real_np_sum_nil.
    + lra.
    + pose proof (real_np_sum_nonneg _ Hm). nra.
  - destruct Hm as [|v mag Hv Hm]; cbn [zip_with].
    + rewrite !real_np_sum_nil. lra.
    + rewrite !real_np_sum_cons. specialize (IH mag Hm). nra.
Qed.

(** The sum over a mask is a part of the whole sum. *)
Lemma real_masked_sum (mask : list bool) (mag : list R) :
  Forall (fun v => (0 <= v)%R) mag ->
  (0 <= np_sum (map snd (filter fst (combine mask mag))) <= np_sum mag)%R.
Proof.
  revert mag. induction mask as [|b mask IH]; intros mag Hm.
  - cbn [combine filter map]. rewrite real_np_sum_nil.
    pose proof (real_np_sum_nonneg _ Hm). lra.
  - destruct Hm as [|v mag Hv Hm]; cbn [combine filter map].
    + rewrite real_np_sum_nil. lra.
    + specialize (IH mag Hm). rewrite (real_np_sum_cons v mag).
      destruct b; cbn [fst filter map snd]; [rewrite real_np_sum_cons|]; lra.
Qed.

(** From a spectrum with magnitudes that are not negative and frequencies
    between 0 and [F]: a centroid between 0 and [F], a low ratio and two
    coordinates between 0 and 1. *)
Lemma real_profile_ranges (F : R) (freqs mag : list R) :
  (0 <= F)%R ->
  Forall (fun f => (0 <= f <= F)%R) freqs ->
  Forall (fun v => (0 <= v)%R) mag ->
  exists p : Profile R,
    profile_of_spectrum freqs mag = Ok p
    /\ (0 <= x_norm p <= 1)%R /\ (0 <= y_norm p <= 1)%R
    /\ (0 <= centroid p <= F)%R /\ (0 <= low_ratio p <= 1)%R.
Proof.
  intros HF Hf Hm. unfold profile_of_spectrum.
  pose proof (real_weighted_sum F freqs mag HF Hf Hm) as Hw.
  pose proof (real_masked_sum (map (fun f => flt f (of_int 1000)) freqs) mag Hm) as Hl.
  pose proof (real_np_sum_nonneg _ Hm) as Ht.
  set (total := np_sum mag) in *.
  set (c_l := if fle total (of_int 0) then _ else _).
  assert (Hcl : (0 <= fst c_l <= F)%R /\ (0 <= snd c_l <= 1)%R).
  { subst c_l. cbn [fle flt fdiv fmul of_int real_num] in Hw, Hl |- *. unfold Rleb.
    destruct (Rle_dec total 0) as [Hle|Hgt]; cbn [fst snd].
    - unfold lit. cbn [fdiv of_int real_num]. split; [lra|].
      replace (IZR 5 / IZR (10 ^ Z.of_nat 1))%R with (1 / 2)%R by (cbn; lra). lra.
    - assert (Hpos : (0 < total)%R) by lra.
      split; split.
      + apply Rmult_le_pos; [apply Hw | left; now apply Rinv_0_lt_compat].
      + apply Rmult_le_reg_r with (r := total); [exact Hpos|].
        unfold Rdiv. rewrite Rmult_assoc, Rinv_l by lra. lra.
      + apply Rmult_le_pos; [apply Hl | left; now apply Rinv_0_lt_compat].
      + apply Rmult_le_reg_r with (r := total); [exact Hpos|].
        unfold Rdiv. rewrite Rmult_assoc, Rinv_l by lra. lra. }
  destruct c_l as [c l]. cbn [fst snd] in Hcl.
  rewrite real_py_div by (cbn; lra). cbn [rbind].
  rewrite real_py_div
    by (unfold lit; cbn [fsub fdiv of_int real_num];
        replace (IZR (10 ^ Z.of_nat 1)) with 10%R by (cbn; lra); lra).
  cbn [rbind]. eexists. split; [reflexivity|].
  cbn [x_norm y_norm centroid low_ratio].
  split; [apply real_clamp_bounds; cbn; lra|].
  split; [apply real_clamp_bounds; cbn; lra|].
  exact Hcl.
Qed.

Lemma real_rfftfreq_range (n : nat) (fr : Z) :
  (0 < n)%nat -> (0 < fr)%Z ->
  exists d freqs,
    py_div (of_int 1) (of_int fr) = Ok d
    /\ np_rfftfreq n d = Ok freqs
    /\ Forall (fun f => (0 <= f <= IZR fr / 2)%R) freqs.
Proof.
  intros Hn Hfr.
  assert (HfrR : (0 < IZR fr)%R) by (apply IZR_lt; lia).
  assert (HnR : (0 < IZR (Z.of_nat n))%R) by (apply IZR_lt; lia).
  rewrite real_py_div by (cbn; lra).
  eexists. unfold np_rfftfreq.
  assert (Hd : (IZR (Z.of_nat n) * (IZR 1 / IZR fr) <> 0)%R).
  { apply Rmult_integral_contrapositive_currified; [lra|].
    unfold Rdiv. apply Rmult_integral_contrapositive_currified; [lra|].
    apply Rinv_neq_0_compat. lra. }
  rewrite real_py_div by exact Hd. cbn [rbind].
  eexists. split; [reflexivity|]. split; [reflexivity|].
  apply Forall_forall. intros f Hin. apply in_map_iff in Hin as (k & <- & Hk).
  apply in_seq in Hk.
  assert (Hk2 : (2 * k <= n)%nat).
  { pose proof (Nat.div_mod_eq n 2). pose proof (Nat.mod_upper_bound n 2). lia. }
  assert (HkR : (0 <= IZR (Z.of_nat k))%R) by (apply IZR_le; lia).
  assert (Hk2R : (2 * IZR (Z.of_nat k) <= IZR (Z.of_nat n))%R).
  { rewrite <- mult_IZR. apply IZR_le. lia. }
  cbn [fmul of_int real_num].
  replace (IZR 1 / (IZR (Z.of_nat n) * (IZR 1 / IZR fr)))%R
    with (IZR fr / IZR (Z.of_nat n))%R by (field; lra).
  split.
  - apply Rmult_le_pos; [lra|]. apply Rmult_le_pos; [lra|].
    left. now apply Rinv_0_lt_compat.
  - apply Rmult_le_reg_r with (r := (2 * IZR (Z.of_nat n))%R); [lra|].
    replace (IZR (Z.of_nat k) * (IZR fr / IZR (Z.of_nat n)) * (2 * IZR (Z.of_nat n)))%R
      with (2 * IZR (Z.of_nat k) * IZR fr)%R by (field; lra).
    replace (IZR fr / 2 * (2 * IZR (Z.of_nat n)))%R
      with (IZR (Z.of_nat n) * IZR fr)%R by field.
    apply Rmult_le_compat_r; lra.
Qed.

(** Over the reals the analyzer returns on every file with a supported
    sample width, a positive frame rate and at least one frame; the centroid
    lies between 0 and half the frame rate, the low ratio and the two
    coordinates between 0 and 1. *)
Lemma real_analyze_ranges (nc sw fr : Z) (samples : list Z) :
  (sw = 1 \/ sw = 2 \/ sw = 4)%Z -> (0 < fr)%Z -> samples <> [] ->
  (nc = 2%Z -> Nat.even (List.length samples) = true) ->
  exists p : Profile R,
    analyze_wav_profile nc sw fr samples = Ok p
    /\ (0 <= x_norm p <= 1)%R /\ (0 <= y_norm p <= 1)%R
    /\ (0 <= centroid p <= IZR fr / 2)%R /\ (0 <= low_ratio p <= 1)%R.
Proof.
  intros Hsw Hfr Hne Hev. unfold analyze_wav_profile.
  destruct (decode_samples_width (num := R) sw samples Hsw) as (data & -> & Hlen).
  cbn [rbind]. unfold analyze_signal.
  destruct (downmix_length nc data ltac:(rewrite Hlen; exact Hev)) as (data' & -> & Hz).
  cbn [rbind].
  assert (Hn : (0 < List.length data')%nat).
  { destruct samples; [contradiction|]. cbn [List.length] in Hlen.
    destruct (List.length data') eqn:E; [|lia].
    destruct Hz as [_ Hz]. specialize (Hz eq_refl). lia. }
  destruct (Nat.eqb_spec (List.length data') 0); [lia|].
  destruct (real_rfftfreq_range (List.length data') fr Hn Hfr)
    as (d & freqs & Hd & Hfq & Hf).
  rewrite Hd. cbn [rbind]. rewrite Hfq. cbn [rbind].
  apply real_profile_ranges.
  - assert (0 < IZR fr)%R by (apply IZR_lt; lia). lra.
  - exact Hf.
  - apply Forall_forall. intros v Hin. apply in_map_iff in Hin as (c & <- & _).
    unfold np_abs. cbn [fsqrt real_math]. apply sqrt_pos.
Qed.

(** ** The analyzer over the reals: the gain of the signal *)

Lemma real_np_sum_scale (a : R) (l : list R) :
  np_sum (map (Rmult a) l) = (a * np_sum l)%R.
Proof.
  induction l as [|v l IH]; cbn [map].
  - rewrite real_np_sum_nil. lra.
  - rewrite !real_np_sum_cons, IH. lra.
Qed.

Lemma zip_with_scale_l (a : R) (l l' : list R) :
  zip_with Rmult (map (Rmult a) l) l' = map (Rmult a) (zip_with Rmult l l').
Proof.
  revert l'. induction l as [|v l IH]; intros [|v' l']; cbn [map zip_with];
    try reflexivity.
  rewrite IH. f_equal. lra.
Qed.

Lemma zip_with_scale_r (a : R) (l l' : list R) :
  zip_with Rmult l (map (Rmult a) l') = map (Rmult a) (zip_with Rmult l l').
Proof.
  revert l'. induction l as [|v l IH]; intros [|v' l']; cbn [map zip_with];
    try reflexivity.
  rewrite IH. f_equal. lra.
Qed.

Lemma masked_scale (a : R) (mask : list bool) (l : list R) :
  map snd (filter fst (combine mask (map (Rmult a) l)))
  = map (Rmult a) (map snd (filter fst (combine mask l))).
Proof.
  revert l. induction mask as [|b mask IH]; intros [|v l]; cbn [map combine filter];
    try reflexivity.
  destruct b; cbn [fst filter map snd]; now rewrite IH.
Qed.

Lemma reshape2_scale (g : R) (data : list R) :
  reshape2 (map (Rmult g) data)
  = match reshape2 data with
    | Ok rows => Ok (map (fun r => (g * fst r, g * snd r)%R) rows)
    | Raise e => Raise e
    end.
Proof.
  induction data as [|a|a b t IH] using list_pair_ind; try reflexivity.
  cbn [map reshape2]. rewrite IH. destruct (reshape2 t); reflexivity.
Qed.

Lemma downmix_scale (nc : Z) (g : R) (data : list R) :
  downmix nc (map (Rmult g) data)
  = match downmix nc data with
    | Ok d => Ok (map (Rmult g) d)
    | Raise e => Raise e
    end.
Proof.
  unfold downmix. destruct (nc =? 2)%Z; [|reflexivity].
  rewrite reshape2_scale. destruct (reshape2 data) as [rows|]; [|reflexivity].
  cbn [rbind]. f_equal. unfold mean_axis1. rewrite !map_map.
  apply map_ext. intros [a b]. cbn [fst snd f32 fadd fdiv of_int real_num]. field.
Qed.

(** A bin of the transform is linear in the signal. *)
Lemma dft_fold_scale (g : R) (k n : nat) (x : list R) :
  forall (idx : list nat) (acc : R * R),
    fold_left
      (fun acc mx =>
         let theta := fdiv (fmul (fmul (of_int 2) fpi) (of_int (Z.of_nat (fst mx * k))))
                           (of_int (Z.of_nat n)) in
         (fadd (fst acc) (fmul (snd mx) (fcos theta)),
          fsub (snd acc) (fmul (snd mx) (fsin theta))))
      (combine idx (map (Rmult g) x)) ((g * fst acc)%R, (g * snd acc)%R)
    = let r := fold_left
                 (fun acc mx =>
                    let theta := fdiv (fmul (fmul (of_int 2) fpi)
                                            (of_int (Z.of_nat (fst mx * k))))
                                      (of_int (Z.of_nat n)) in
                    (fadd (fst acc) (fmul (snd mx) (fcos theta)),
                     fsub (snd acc) (fmul (snd mx) (fsin theta))))
                 (combine idx x) acc in
      ((g * fst r)%R, (g * snd r)%R).
Proof.
  induction x as [|v x IH]; intros idx acc.
  - destruct idx; reflexivity.
  - destruct idx as [|i idx]; [reflexivity|].
    cbn [map combine fold_left].
    match goal with
    | |- fold_left ?f _ ?a0 = _ =>
        replace a0 with ((g * fst (f acc (i, v)))%R, (g * snd (f acc (i, v)))%R)
    end.
    + apply IH.
    + cbn [fst snd fadd fsub fmul real_num]. f_equal; ring.
Qed.

Lemma dft_bin_scale (g : R) (x : list R) (k : nat) :
  dft_bin (map (Rmult g) x) k
  = ((g * fst (dft_bin x k))%R, (g * snd (dft_bin x k))%R).
Proof.
  unfold dft_bin. rewrite length_map.
  pose proof (dft_fold_scale g k (List.length x) x (seq 0 (List.length x))
                (of_int 0, of_int 0)) as Hs.
  cbn zeta in Hs. rewrite <- Hs. f_equal.
  cbn [fst snd of_int real_num]. f_equal; ring.
Qed.

Lemma np_abs_scale (g : R) (c : R * R) :
  np_abs ((g * fst c)%R, (g * snd c)%R) = (Rabs g * np_abs c)%R.
Proof.
  unfold np_abs. cbn [fst snd fsqrt fadd fmul real_math real_num].
  replace (g * fst c * (g * fst c) + g * snd c * (g * snd c))%R
    with (g * g * (fst c * fst c + snd c * snd c))%R by ring.
  rewrite sqrt_mult; [| nra | nra].
  f_equal. change (g * g)%R with (Rsqr g). apply sqrt_Rsqr_abs.
Qed.

(** A positive factor on the magnitudes does not change the profile. *)
Lemma real_profile_scale (a : R) (freqs mag : list R) :
  (0 < a)%R ->
  profile_of_spectrum freqs (map (Rmult a) mag) = profile_of_spectrum freqs mag.
Proof.
  intros Ha. unfold profile_of_spectrum.
  rewrite real_np_sum_scale.
  change (zip_with fmul freqs (map (Rmult a) mag))
    with (zip_with Rmult freqs (map (Rmult a) mag)).
  rewrite zip_with_scale_r, masked_scale, !real_np_sum_scale.
  set (total := np_sum mag).
  assert (Epair :
    (if fle (a * total)%R (of_int 0) then (of_int 0, lit 5 1)
     else (fdiv (a * np_sum (zip_with Rmult freqs mag))%R (a * total)%R,
           fdiv (a * np_sum (map snd (filter fst
                   (combine (map (fun f => flt f (of_int 1000)) freqs) mag))))%R
                (a * total)%R))
    = (if fle total (of_int 0) then (of_int 0, lit 5 1)
       else (fdiv (np_sum (zip_with fmul freqs mag)) total,
             fdiv (np_sum (map snd (filter fst
                     (combine (map (fun f => flt f (of_int 1000)) freqs) mag))))
                  total))).
  { change (zip_with fmul freqs mag) with (zip_with Rmult freqs mag).
    cbn [fle fdiv of_int real_num]. unfold Rleb.
    destruct (Rle_dec (a * total) 0) as [H1|H1];
      destruct (Rle_dec total 0) as [H2|H2]; try reflexivity; try nra.
    f_equal; field; lra. }
  rewrite Epair. reflexivity.
Qed.

(** Multiplying the samples by a non-zero factor does not change what the
    analyzer returns. *)
Lemma real_analyze_gain (nc fr : Z) (g : R) (data : list R) :
  g <> 0%R ->
  analyze_signal nc fr (map (Rmult g) data) = analyze_signal nc fr data.
Proof.
  intros Hg. unfold analyze_signal. rewrite downmix_scale.
  destruct (downmix nc data) as [d|]; [|reflexivity]. cbn [rbind].
  rewrite length_map. destruct (List.length d =? 0)%nat; [reflexivity|].
  destruct (py_div _ _) as [dd|]; [|reflexivity]. cbn [rbind].
  destruct (np_rfftfreq _ dd) as [freqs|]; [|reflexivity]. cbn [rbind].
  change (zip_with fmul (map (Rmult g) d)) with (zip_with Rmult (map (Rmult g) d)).
  rewrite zip_with_scale_l.
  set (x := zip_with Rmult d (np_hanning (List.length d))).
  assert (Hmag : map np_abs (np_rfft (map (Rmult g) x))
                 = map (Rmult (Rabs g)) (map np_abs (np_rfft x))).
  { unfold np_rfft. rewrite length_map, !map_map. apply map_ext. intros k.
    rewrite dft_bin_scale. apply np_abs_scale. }
  rewrite Hmag. apply real_profile_scale. now apply Rabs_pos_lt.
Qed.

(** A frame rate of zero is a division by zero. *)
Lemma real_analyze_zero_rate (nc sw : Z) (samples : list Z) :
  (sw = 1 \/ sw = 2 \/ sw = 4)%Z -> samples <> [] ->
  (nc = 2%Z -> Nat.even (List.length samples) = true) ->
  analyze_wav_profile (num := R) nc sw 0 samples = Raise ZeroDivisionError.
Proof.
  intros Hsw Hne Hev. unfold analyze_wav_profile.
  destruct (decode_samples_width (num := R) sw samples Hsw) as (data & -> & Hlen).
  cbn [rbind]. unfold analyze_signal.
  destruct (downmix_length nc data ltac:(rewrite Hlen; exact Hev)) as (data' & -> & Hz).
  cbn [rbind].
  destruct (Nat.eqb_spec (List.length data') 0) as [E|E].
  - exfalso. destruct samples; [contradiction|]. cbn [List.length] in Hlen.
    destruct Hz as [_ Hz]. specialize (Hz E). lia.
  - unfold py_div. cbn [feqb of_int real_num]. unfold Reqb.
    destruct (Req_dec_T 0 0); [reflexivity | contradiction].
Qed.

Lemma zrange_In (n : nat) :
  forall lo s : Z, (lo <= s < lo + Z.of_nat n)%Z -> In s (zrange lo n).
Proof.
  induction n as [|n IH]; intros lo s Hs; [lia|].
  cbn [zrange]. destruct (Z.eq_dec lo s) as [->|Hne]; [now left|].
  right. apply IH. lia.
Qed.

(** The 65536 samples of width 2: the decoded value times 32768 is the
    sample, and it lies in [-1, 1). *)
Lemma decode_16_checked :
  forallb
    (fun s =>
       match decode_samples (num := float) 2 [s] with
       | Ok [v] =>
           Leibniz.eqb (v * 32768)%float (of_int s)
           && (-1 <=? v)%float && (v <? 1)%float
       | _ => false
       end)
    (zrange (-32768) (2 ^ 16)) = true.
Proof. vm_compute. reflexivity. Qed.

(** The 256 samples of width 1. *)
Lemma decode_8_checked :
  forallb
    (fun s =>
       match decode_samples (num := float) 1 [s] with
       | Ok [v] =>
           Leibniz.eqb (v * 128)%float (of_int (s - 128))
           && (-1 <=? v)%float && (v <? 1)%float
       | _ => false
       end)
    (zrange 0 (2 ^ 8)) = true.
Proof. vm_compute. reflexivity. Qed.

(** * Further properties of the code *)

(** ** [clamp] and the knob scale *)

(** X1.  On binary64, for bounds [lo <= hi], [clamp v lo hi] lies between
    the bounds whatever [v] is, infinities and NaN included; it is [v]
    strictly inside the bounds, compares equal to [lo] for [v <= lo] and to
    [hi] for [v >= hi], and a NaN comes out as [hi]. *)
Theorem clamp_stays_in_range (v lo hi : float) :
  (lo <=? hi)%float = true ->
  ((lo <=? clamp v lo hi)%float = true /\ (clamp v lo hi <=? hi)%float = true)
  /\ ((lo <? v)%float = true -> (v <? hi)%float = true -> clamp v lo hi = v)
  /\ ((v <=? lo)%float = true -> (clamp v lo hi =? lo)%float = true)
  /\ ((hi <=? v)%float = true -> (clamp v lo hi =? hi)%float = true)
  /\ (Prim2SF v = S754_nan -> (clamp v lo hi =? hi)%float = true).
Proof.
  intros Hlh. destruct (leb_refl_of_leb lo hi Hlh) as [Hll Hhh].
  split; [exact (float_clamp_range v lo hi Hll Hlh Hhh)|].
  split; [apply float_clamp_inside|].
  split; [apply float_clamp_below; exact Hlh|].
  split; [apply float_clamp_above; exact Hlh|].
  apply float_clamp_of_nan; exact Hlh.
Qed.

Lemma clamp_stays_in_range_witness :
  ((0 <=? clamp nan 0 1)%float = true /\ (clamp nan 0 1 <=? 1)%float = true)
  /\ (clamp nan 0 1 =? 1)%float = true.
Proof.
  destruct (clamp_stays_in_range nan 0 1 eq_refl) as (Hr & _ & _ & _ & Hn).
  split; [exact Hr | exact (Hn eq_refl)].
Defined.

(** X2.  On binary64, [hz_to_knob_value] returns for every float, infinities
    and NaN included, a knob value between 100 and 3500: 100 for every
    frequency up to 200 Hz, 3500 for every frequency from 4000 Hz on, and
    3500 for a NaN. *)
Theorem knob_value_range (f : float) :
  (exists k : Z, hz_to_knob_value f = Ok k /\ (100 <= k <= 3500)%Z)
  /\ ((f <=? 200)%float = true -> hz_to_knob_value f = Ok 100%Z)
  /\ ((4000 <=? f)%float = true -> hz_to_knob_value f = Ok 3500%Z)
  /\ (Prim2SF f = S754_nan -> hz_to_knob_value f = Ok 3500%Z).
Proof.
  split; [apply float_hz_range|].
  split; [apply float_hz_low|].
  split; [apply float_hz_high | apply float_hz_nan].
Qed.

Lemma knob_value_range_witness :
  hz_to_knob_value 150%float = Ok 100%Z
  /\ hz_to_knob_value infinity = Ok 3500%Z
  /\ hz_to_knob_value nan = Ok 3500%Z.
Proof.
  split; [|split].
  - exact (proj1 (proj2 (knob_value_range 150)) eq_refl).
  - exact (proj1 (proj2 (proj2 (knob_value_range infinity))) eq_refl).
  - exact (proj2 (proj2 (proj2 (knob_value_range nan))) eq_refl).
Defined.

(** ** The values sent to the device *)

(** X3.  On binary64, for a coordinate and intensities in [0, 1] and any
    profile name, the mapping returns the levels [L1 = 55], [L2 = 45],
    [25 <= L3 <= 40] and [20 <= L4 <= 30], and [F3] and [F4] inside their
    ranges of the profile. *)
Theorem levels_and_high_formants (name : string) (x y b r : float) :
  in_unit x -> in_unit y -> in_unit b -> in_unit r ->
  let prof := get_profile_params (num := float) name in
  exists p : VoiceParams float,
    map_xy_to_formants x y name b r = Ok p
    /\ L1 p = 55%Z /\ L2 p = 45%Z
    /\ (25 <= L3 p <= 40)%Z /\ (20 <= L4 p <= 30)%Z
    /\ (F3_min prof <=? F3 p)%float = true /\ (F3 p <=? F3_max prof)%float = true
    /\ (F4_min prof <=? F4 p)%float = true /\ (F4 p <=? F4_max prof)%float = true.
Proof. apply float_map_levels. Qed.

Lemma levels_and_high_formants_witness :
  exists p : VoiceParams float,
    map_xy_to_formants 0.25%float 0.75%float "Tenor" 0.7%float 0.3%float = Ok p
    /\ L1 p = 55%Z /\ L2 p = 45%Z
    /\ (25 <= L3 p <= 40)%Z /\ (20 <= L4 p <= 30)%Z
    /\ (F3_min (get_profile_params "Tenor") <=? F3 p)%float = true
    /\ (F3 p <=? F3_max (get_profile_params "Tenor"))%float = true
    /\ (F4_min (get_profile_params "Tenor") <=? F4 p)%float = true
    /\ (F4 p <=? F4_max (get_profile_params "Tenor"))%float = true.
Proof.
  apply (levels_and_high_formants "Tenor" 0.25 0.75 0.7 0.3); split; reflexivity.
Defined.

(** X4.  On binary64, for a coordinate and intensities in [0, 1],
    [apply_voice_from_xy] raises nothing and is the sequence of its fourteen
    throttled updates, whose values are all bounded: the four frequency
    knobs between 100 and 3500, the levels 55, 45, 25..40 and 20..30, the
    resonance between 3 and 7, the treble between 4 and 8 and the bass
    between 5 and 8. *)
Theorem voice_updates_bounded (w : World float) (name : string)
    (x y b r : float) (st : State float) :
  in_unit x -> in_unit y -> in_unit b -> in_unit r ->
  exists (p : VoiceParams float) (kF1 kF2 kF3 kF4 treb bass : Z),
    apply_voice_from_xy w name x y b r st
    = (Ok tt, run_calls w (map Knob (voice_pkvs p kF1 kF2 kF3 kF4 treb bass)) st)
    /\ (100 <= kF1 <= 3500)%Z /\ (100 <= kF2 <= 3500)%Z
    /\ (100 <= kF3 <= 3500)%Z /\ (100 <= kF4 <= 3500)%Z
    /\ L1 p = 55%Z /\ L2 p = 45%Z
    /\ (25 <= L3 p <= 40)%Z /\ (20 <= L4 p <= 30)%Z
    /\ (3 <= R1 p <= 7)%Z /\ R2 p = R1 p /\ R3 p = R1 p /\ R4 p = R1 p
    /\ (4 <= treb <= 8)%Z /\ (5 <= bass <= 8)%Z.
Proof.
  intros Hx Hy Hb Hr.
  pose proof (float_apply_voice_returns w name x y b r st Hx Hy Hb Hr) as Hok.
  destruct (apply_voice_calls w name x y b r st Hok)
    as (p & kF1 & kF2 & kF3 & kF4 & treb & bass
        & Hp & H1 & H2 & H3 & H4 & Hbass & Htreb & Hst).
  exists p, kF1, kF2, kF3, kF4, treb, bass.
  split.
  { rewrite (surjective_pairing (apply_voice_from_xy w name x y b r st)).
    now rewrite Hok, Hst. }
  destruct (float_hz_range (F1 p)) as (k1 & E1 & B1).
  destruct (float_hz_range (F2 p)) as (k2 & E2 & B2).
  destruct (float_hz_range (F3 p)) as (k3 & E3 & B3).
  destruct (float_hz_range (F4 p)) as (k4 & E4 & B4).
  rewrite H1 in E1. rewrite H2 in E2. rewrite H3 in E3. rewrite H4 in E4.
  injection E1 as <-. injection E2 as <-. injection E3 as <-. injection E4 as <-.
  destruct (float_map_levels name x y b r Hx Hy Hb Hr)
    as (p' & Hp' & HL1 & HL2 & HL3 & HL4 & _).
  rewrite Hp in Hp'. injection Hp' as <-.
  destruct (float_map_returns name x y b r Hx Hy Hb Hr)
    as (p' & Hp' & HR12 & HR23 & HR34 & HR).
  rewrite Hp in Hp'. injection Hp' as <-.
  destruct (float_tilt_range x b Hx Hb) as [(bass' & Eb & Bb) (treb' & Et & Bt)].
  change (py_round (5 + 3 * (1 - x) * (0.5 + 0.5 * b))%float = Ok bass) in Hbass.
  change (py_round (4 + 4 * x * (0.5 + 0.5 * b))%float = Ok treb) in Htreb.
  cbn [py_round float_num] in Hbass, Htreb.
  rewrite Hbass in Eb. rewrite Htreb in Et.
  injection Eb as <-. injection Et as <-.
  repeat split; try assumption; try lia; congruence.
Qed.

Lemma voice_updates_bounded_witness :
  exists (p : VoiceParams float) (kF1 kF2 kF3 kF4 treb bass : Z),
    apply_voice_from_xy slow_world "Tenor" 0.25%float 0.75%float 0.7%float
      0.3%float fresh_state
    = (Ok tt,
       run_calls slow_world (map Knob (voice_pkvs p kF1 kF2 kF3 kF4 treb bass))
         fresh_state)
    /\ (100 <= kF1 <= 3500)%Z /\ (100 <= kF2 <= 3500)%Z
    /\ (100 <= kF3 <= 3500)%Z /\ (100 <= kF4 <= 3500)%Z
    /\ L1 p = 55%Z /\ L2 p = 45%Z
    /\ (25 <= L3 p <= 40)%Z /\ (20 <= L4 p <= 30)%Z
    /\ (3 <= R1 p <= 7)%Z /\ R2 p = R1 p /\ R3 p = R1 p /\ R4 p = R1 p
    /\ (4 <= treb <= 8)%Z /\ (5 <= bass <= 8)%Z.
Proof.
  apply (voice_updates_bounded slow_world "Tenor" 0.25 0.75 0.7 0.3 fresh_state);
    split; reflexivity.
Defined.

(** ** One call of [apply_voice_from_xy] and the throttle *)

Lemma run_calls_cons {num : Type} `{PyNum num} (w : World num)
    (c : Call) (cs : list Call) (st : State num) :
  run_calls w (c :: cs) st = run_calls w cs (dispatch w c st).
Proof. reflexivity. Qed.

(** X5.  For every arithmetic: when a call of [apply_voice_from_xy] raises
    nothing, its first update passes the throttle and the thirteen
    following clock readings are all less than 150 ms after the first one,
    the device receives the first update only, the frequency of the first
    formant; the twelve other formant settings and the tilt are dropped.
    The timestamp is the first clock reading. *)
Theorem fast_call_sends_first_update_only {num : Type} `{PyNum num}
    (w : World num) (name : string) (x y b r : num) (st : State num) :
  fst (apply_voice_from_xy w name x y b r st) = Ok tt ->
  flt (fmul (fsub (time_time w (clock_reads st)) (_last_update_time st))
            (of_int 1000)) (of_int UPDATE_INTERVAL_MS) = false ->
  (forall k, (1 <= k < 14)%nat ->
             too_soon w (clock_reads st) (clock_reads st + k) = true) ->
  exists (p : VoiceParams num) (kF1 : Z),
    map_xy_to_formants x y name b r = Ok p
    /\ hz_to_knob_value (F1 p) = Ok kF1
    /\ snd (apply_voice_from_xy w name x y b r st)
       = {| _last_update_time := time_time w (clock_reads st);
            clock_reads := clock_reads st + 14;
            device_log :=
              device_log st
              ++ [dlin_command w (knob_args ("0f:2:" ++ str_int kF1)%string)] |}.
Proof.
  intros Hok Hfirst Hsoon.
  destruct (apply_voice_calls w name x y b r st Hok)
    as (p & kF1 & kF2 & kF3 & kF4 & treb & bass
        & Hp & H1 & _ & _ & _ & _ & _ & Hst).
  exists p, kF1. split; [exact Hp|]. split; [exact H1|].
  rewrite Hst. unfold voice_pkvs. cbn [map].
  rewrite run_calls_cons. cbn [dispatch]. unfold run_dlin_knob at 1.
  rewrite Hfirst. cbn [snd].
  match goal with
  | |- run_calls w ?cs _ = _ =>
      match cs with
      | Knob ?a :: Knob ?b :: Knob ?c :: Knob ?d :: Knob ?e :: Knob ?f
        :: Knob ?g :: Knob ?h :: Knob ?i :: Knob ?j :: Knob ?k :: Knob ?l
        :: Knob ?m :: [] =>
          change cs with (map Knob [a; b; c; d; e; f; g; h; i; j; k; l; m])
      end
  end.
  rewrite knobs_all_dropped.
  - cbn [_last_update_time clock_reads device_log List.length]. f_equal. lia.
  - intros k Hk. cbn [List.length] in Hk. cbn [_last_update_time clock_reads].
    pose proof (Hsoon (S k) ltac:(lia)) as Hs. unfold too_soon in Hs.
    replace (S (clock_reads st) + k)%nat with (clock_reads st + S k)%nat by lia.
    exact Hs.
Qed.

Lemma fast_call_sends_first_update_only_witness :
  exists (p : VoiceParams float) (kF1 : Z),
    map_xy_to_formants 0%float 0.5%float "Tenor" 1%float 0.5%float = Ok p
    /\ hz_to_knob_value (F1 p) = Ok kF1
    /\ snd (apply_voice_from_xy burst_world_float "Tenor" 0%float 0.5%float
              1%float 0.5%float fresh_state)
       = {| _last_update_time := time_time burst_world_float (clock_reads fresh_state);
            clock_reads := clock_reads fresh_state + 14;
            device_log :=
              device_log fresh_state
              ++ [dlin_command burst_world_float
                    (knob_args ("0f:2:" ++ str_int kF1)%string)] |}.
Proof.
  apply (fast_call_sends_first_update_only burst_world_float "Tenor"
           0%float 0.5%float 1%float 0.5%float fresh_state).
  - vm_compute. reflexivity.
  - vm_compute. reflexivity.
  - intros k Hk.
    do 14 (destruct k as [|k]; [first [lia | vm_compute; reflexivity]|]). lia.
Defined.

(** X6.  For every arithmetic: when a call of [apply_voice_from_xy] raises
    nothing, its first update passes the throttle and each of the following
    clock readings is at least 150 ms after the one before, the device
    receives the fourteen updates, in the order of the source: four
    frequencies, four levels, four resonances, treble, bass. *)
Theorem slow_call_sends_all_updates {num : Type} `{PyNum num}
    (w : World num) (name : string) (x y b r : num) (st : State num) :
  fst (apply_voice_from_xy w name x y b r st) = Ok tt ->
  flt (fmul (fsub (time_time w (clock_reads st)) (_last_update_time st))
            (of_int 1000)) (of_int UPDATE_INTERVAL_MS) = false ->
  (forall k, (k < 13)%nat ->
             too_soon w (clock_reads st + k) (clock_reads st + S k) = false) ->
  exists (p : VoiceParams num) (kF1 kF2 kF3 kF4 treb bass : Z),
    map_xy_to_formants x y name b r = Ok p
    /\ hz_to_knob_value (F1 p) = Ok kF1 /\ hz_to_knob_value (F2 p) = Ok kF2
    /\ hz_to_knob_value (F3 p) = Ok kF3 /\ hz_to_knob_value (F4 p) = Ok kF4
    /\ device_log (snd (apply_voice_from_xy w name x y b r st))
       = device_log st
         ++ map (fun q => dlin_command w (knob_args q))
                (voice_pkvs p kF1 kF2 kF3 kF4 treb bass).
Proof.
  intros Hok Hfirst Hnext.
  destruct (apply_voice_calls w name x y b r st Hok)
    as (p & kF1 & kF2 & kF3 & kF4 & treb & bass
        & Hp & H1 & H2 & H3 & H4 & _ & _ & Hst).
  exists p, kF1, kF2, kF3, kF4, treb, bass.
  repeat (split; [assumption|]).
  rewrite Hst.
  apply (knobs_all_sent w (voice_pkvs p kF1 kF2 kF3 kF4 treb bass) st).
  - intros _. exact Hfirst.
  - intros k Hk. apply Hnext. cbn [voice_pkvs List.length] in Hk. lia.
Qed.

Lemma slow_call_sends_all_updates_witness :
  exists (p : VoiceParams float) (kF1 kF2 kF3 kF4 treb bass : Z),
    map_xy_to_formants 0%float 0.5%float "Tenor" 1%float 0.5%float = Ok p
    /\ hz_to_knob_value (F1 p) = Ok kF1 /\ hz_to_knob_value (F2 p) = Ok kF2
    /\ hz_to_knob_value (F3 p) = Ok kF3 /\ hz_to_knob_value (F4 p) = Ok kF4
    /\ device_log (snd (apply_voice_from_xy slow_world "Tenor" 0%float 0.5%float
                          1%float 0.5%float fresh_state))
       = device_log fresh_state
         ++ map (fun q => dlin_command slow_world (knob_args q))
                (voice_pkvs p kF1 kF2 kF3 kF4 treb bass).
Proof.
  apply (slow_call_sends_all_updates slow_world "Tenor"
           0%float 0.5%float 1%float 0.5%float fresh_state).
  - vm_compute. reflexivity.
  - vm_compute. reflexivity.
  - intros k Hk.
    do 13 (destruct k as [|k]; [vm_compute; reflexivity|]). lia.
Defined.

(** X7.  On binary64, a coordinate that is a NaN makes the mapping raise
    [ValueError], for every brightness intensity in [0, 1]; the exception
    leaves [apply_voice_from_xy] before anything is sent: the dispatcher's
    state is unchanged. *)
Theorem nan_coordinate_raises (w : World float) (name : string)
    (x y b r : float) (st : State float) :
  in_unit b ->
  Prim2SF x = S754_nan \/ Prim2SF y = S754_nan ->
  map_xy_to_formants x y name b r = Raise ValueError
  /\ apply_voice_from_xy w name x y b r st = (Raise ValueError, st).
Proof.
  intros Hb Hnan. pose proof (float_map_nan name x y b r Hb Hnan) as Hm.
  split; [exact Hm|].
  unfold apply_voice_from_xy, ebind, lift. rewrite Hm. reflexivity.
Qed.

Lemma nan_coordinate_raises_witness :
  map_xy_to_formants nan 0.5%float "Alto" 0.75%float 0.5%float = Raise ValueError
  /\ apply_voice_from_xy slow_world "Alto" nan 0.5%float 0.75%float 0.5%float
       fresh_state = (Raise ValueError, fresh_state).
Proof.
  apply (nan_coordinate_raises slow_world "Alto" nan 0.5 0.75 0.5 fresh_state).
  - split; reflexivity.
  - left. reflexivity.
Defined.

(** ** The analyzer *)

(** X8.  For every arithmetic, the analyzer refuses with [ValueError] a
    sample width other than 1, 2 or 4 bytes, a file without samples, and a
    two-channel file with an odd number of samples. *)
Theorem analyzer_refuses {num : Type} `{PyNum num} `{PyMath num}
    (n_channels sampwidth framerate : Z) (samples : list Z) :
  ((sampwidth <> 1 /\ sampwidth <> 2 /\ sampwidth <> 4)%Z
   \/ samples = []
   \/ (n_channels = 2%Z /\ Nat.even (List.length samples) = false)) ->
  analyze_wav_profile (num := num) n_channels sampwidth framerate samples
  = Raise ValueError.
Proof. apply analyze_refuses. Qed.

Lemma analyzer_refuses_witness :
  analyze_wav_profile (num := R) 1 3 44100 [1; 2; 3]%Z = Raise ValueError
  /\ analyze_wav_profile (num := R) 2 2 44100 [] = Raise ValueError
  /\ analyze_wav_profile (num := R) 2 2 44100 [1; 2; 3]%Z = Raise ValueError.
Proof.
  split; [|split].
  - apply (analyzer_refuses 1 3 44100 [1; 2; 3]%Z). left. lia.
  - apply (analyzer_refuses 2 2 44100 []). right. left. reflexivity.
  - apply (analyzer_refuses 2 2 44100 [1; 2; 3]%Z). right. right.
    split; reflexivity.
Defined.





(** X11.  Over the reals, a file that passes the checks of the width and of
    the number of samples and declares a frame rate of zero makes the
    analyzer raise [ZeroDivisionError]. *)
Theorem zero_frame_rate_raises (n_channels sampwidth : Z) (samples : list Z) :
  (sampwidth = 1 \/ sampwidth = 2 \/ sampwidth = 4)%Z -> samples <> [] ->
  (n_channels = 2%Z -> Nat.even (List.length samples) = true) ->
  analyze_wav_profile (num := R) n_channels sampwidth 0 samples
  = Raise ZeroDivisionError.
Proof. apply real_analyze_zero_rate. Qed.

Lemma zero_frame_rate_raises_witness :
  analyze_wav_profile (num := R) 1 2 0 [5; 6]%Z = Raise ZeroDivisionError.
Proof.
  apply (zero_frame_rate_raises 1 2 [5; 6]%Z).
  - right. left. reflexivity.
  - discriminate.
  - discriminate.
Defined.

(** X12.  On binary64 with its single-precision roundings, decoding is
    exact for the widths 1 and 2: a sample [s] of 16 bits becomes a float
    [v] with [v * 32768 = s], a sample of 8 bits a float with
    [v * 128 = s - 128], and [-1 <= v < 1] in both cases. *)
Theorem pcm_decoding_exact (s : Z) :
  ((-32768 <= s <= 32767)%Z ->
   exists v : float,
     decode_samples 2 [s] = Ok [v]
     /\ (v * 32768)%float = of_int s
     /\ (-1 <=? v)%float = true /\ (v <? 1)%float = true)
  /\ ((0 <= s <= 255)%Z ->
      exists v : float,
        decode_samples 1 [s] = Ok [v]
        /\ (v * 128)%float = of_int (s - 128)
        /\ (-1 <=? v)%float = true /\ (v <? 1)%float = true).
Proof.
  split; intros Hs.
  - pose proof decode_16_checked as Hall. rewrite forallb_forall in Hall.
    assert (Hin : In s (zrange (-32768) (2 ^ 16))).
    { apply zrange_In. change (Z.of_nat (2 ^ 16)) with 65536%Z. lia. }
    specialize (Hall s Hin).
    destruct (decode_samples 2 [s]) as [[|v [|]]|]; try discriminate.
    exists v. apply andb_prop in Hall as [Hall H3]. apply andb_prop in Hall as [H1 H2].
    apply Leibniz.eqb_spec in H1. repeat split; assumption.
  - pose proof decode_8_checked as Hall. rewrite forallb_forall in Hall.
    assert (Hin : In s (zrange 0 (2 ^ 8))).
    { apply zrange_In. change (Z.of_nat (2 ^ 8)) with 256%Z. lia. }
    specialize (Hall s Hin).
    destruct (decode_samples 1 [s]) as [[|v [|]]|]; try discriminate.
    exists v. apply andb_prop in Hall as [Hall H3]. apply andb_prop in Hall as [H1 H2].
    apply Leibniz.eqb_spec in H1. repeat split; assumption.
Qed.

Lemma pcm_decoding_exact_witness :
  (exists v : float,
     decode_samples 2 [(-12345)%Z] = Ok [v]
     /\ (v * 32768)%float = of_int (-12345)
     /\ (-1 <=? v)%float = true /\ (v <? 1)%float = true)
  /\ (exists v : float,
        decode_samples 1 [200%Z] = Ok [v]
        /\ (v * 128)%float = of_int (200 - 128)
        /\ (-1 <=? v)%float = true /\ (v <? 1)%float = true).
Proof.
  split.
  - apply (proj1 (pcm_decoding_exact (-12345))). lia.
  - apply (proj2 (pcm_decoding_exact 200)). lia.
Defined.

(** ** The window *)

(** X13.  On binary64, [move_point] brings the pixel onto the pad
    ([30 .. 430] on both axes) and stores as coordinate the quotient of its
    offset by 400: 0 for every pixel left of or above the pad, 1 for every
    pixel right of or below it.  The corners of the blue point, rounded to
    pixels, are those of the square of radius 8 around the pixel. *)
Theorem point_follows_mouse (w : World float) (x y : Z)
    (a : App float) (st : State float) :
  let cx := clamp x margin (margin + size)%Z in
  let cy := clamp y margin (margin + size)%Z in
  let a' := fst (snd (move_point w x y a st)) in
  ((30 <= cx <= 430)%Z /\ (30 <= cy <= 430)%Z)
  /\ ((30 <= x <= 430)%Z -> cx = x)
  /\ self_x_norm a' = (of_int (cx - 30) / 400)%float
  /\ self_y_norm a' = (of_int (cy - 30) / 400)%float
  /\ ((x <= 30)%Z -> self_x_norm a' = 0%float)
  /\ ((430 <= x)%Z -> self_x_norm a' = 1%float)
  /\ (let '(x0, y0, x1, y1) := point a' in
      float_round x0 = Ok (cx - 8)%Z /\ float_round y0 = Ok (cy - 8)%Z
      /\ float_round x1 = Ok (cx + 8)%Z /\ float_round y1 = Ok (cy + 8)%Z).
Proof.
  cbn zeta.
  destruct (float_move_point_position w x y a st) as (Hx & Hy & Hp).
  pose proof (clamp_Z_range x margin (margin + size)
                ltac:(unfold margin, size; lia)) as Rx.
  pose proof (clamp_Z_range y margin (margin + size)
                ltac:(unfold margin, size; lia)) as Ry.
  unfold margin, size, point_radius in *.
  change (30 + 400)%Z with 430%Z in *.
  split; [split; assumption|].
  split; [apply clamp_Z_inside|].
  split; [exact Hx|]. split; [exact Hy|].
  split; [|split; [|exact Hp]].
  - intros Hle. rewrite Hx.
    replace (clamp x 30 430)%Z with 30%Z; [reflexivity|].
    unfold clamp, py_max, py_min. cbn [py_lt ord_Z].
    destruct (Z.ltb_spec x 430);
      [destruct (Z.ltb_spec 30 x) | destruct (Z.ltb_spec 30 430)]; lia.
  - intros Hge. rewrite Hx.
    replace (clamp x 30 430)%Z with 430%Z; [reflexivity|].
    unfold clamp, py_max, py_min. cbn [py_lt ord_Z].
    destruct (Z.ltb_spec x 430);
      [destruct (Z.ltb_spec 30 x) | destruct (Z.ltb_spec 30 430)]; lia.
Qed.

Lemma point_follows_mouse_witness :
  clamp 230%Z margin (margin + size)%Z = 230%Z
  /\ self_x_norm (fst (snd (move_point slow_world (-5) 1000 initial_app fresh_state)))
     = 0%float
  /\ self_x_norm (fst (snd (move_point slow_world 431 0 initial_app fresh_state)))
     = 1%float.
Proof.
  split; [|split].
  - apply (point_follows_mouse slow_world 230 230 initial_app fresh_state). lia.
  - apply (point_follows_mouse slow_world (-5) 1000 initial_app fresh_state). lia.
  - apply (point_follows_mouse slow_world 431 0 initial_app fresh_state). lia.
Defined.

(** X14.  On binary64, with any implementation of the math library: the
    constructor raises nothing, and whatever the user does afterwards, the
    point and the WAV target stay on the pad (coordinates in [0, 1]) and no
    handler raises, but for a [ValueError] of one of the three preset
    buttons.  The values of the sliders are any floats. *)
Theorem session_stays_on_pad {M : PyMath float} (w : World float)
    (es : list Event) (st : State float) :
  fst (init w st) = Ok tt
  /\ in_pad (fst (snd (init w st)))
  /\ in_pad (fst (snd (run_events w es (fst (snd (init w st)))
                         (snd (snd (init w st))))))
  /\ Forall2 (fun e r => r = Ok tt
                         \/ (is_preset_click e = true /\ r = Raise ValueError))
             es
             (fst (run_events w es (fst (snd (init w st)))
                     (snd (snd (init w st))))).
Proof.
  destruct (float_init w st) as [Hok Hpad].
  split; [exact Hok|]. split; [exact Hpad|].
  apply float_run_events. exact Hpad.
Qed.

(** X15.  For every arithmetic: while processing is disabled, whatever the
    user does on the pad, the sliders, the profile menu, the entry fields
    and the two WAV buttons, nothing is sent to the device and the clock is
    not read; only the toggle and the three preset buttons can send. *)
Theorem disabled_processing_sends_nothing {num : Type} `{PyNum num} `{PyMath num}
    (w : World num) (es : list Event) (a : App num) (st : State num) :
  processing_enabled a = false ->
  forallb (fun e => negb (is_preset_click e || is_toggle e)) es = true ->
  snd (snd (run_events w es a st)) = st
  /\ processing_enabled (fst (snd (run_events w es a st))) = false.
Proof. apply run_events_disabled. Qed.

Lemma disabled_processing_sends_nothing_witness :
  snd (snd (run_events burst_world
              [ButtonPress 100 120; Motion 130 90; ButtonRelease;
               MoveBrightness 30%R; SelectProfile "Alto"; ClickSnap]
              (set_vars initial_app "Tenor" false 70%R 50%R "200" "201" "dpc_preset")
              fresh_real_state))
  = fresh_real_state
  /\ processing_enabled
       (fst (snd (run_events burst_world
                    [ButtonPress 100 120; Motion 130 90; ButtonRelease;
                     MoveBrightness 30%R; SelectProfile "Alto"; ClickSnap]
                    (set_vars initial_app "Tenor" false 70%R 50%R "200" "201"
                       "dpc_preset")
                    fresh_real_state)))
     = false.
Proof.
  apply (disabled_processing_sends_nothing burst_world
           [ButtonPress 100 120; Motion 130 90; ButtonRelease;
            MoveBrightness 30%R; SelectProfile "Alto"; ClickSnap]
           (set_vars initial_app "Tenor" false 70%R 50%R "200" "201" "dpc_preset")
           fresh_real_state); reflexivity.
Defined.

(** ** The preset buttons *)

(** X16.  For every arithmetic: with a slot field that reads as the
    number [slot], capturing the base and then disabling the processing
    sends [dump -k -f dpc_base_knobs_slot<slot>] and then
    [pump -k -f] with the same file, whatever the outcome of the two
    commands; neither handler raises.  Disabling the processing when no
    base was captured sends nothing. *)
Theorem capture_then_disable_restores {num : Type} `{PyNum num} `{PyMath num}
    (w : World num) (a : App num) (st : State num) (slot : Z) :
  processing_enabled a = true ->
  (isdigit (strip (slot_var a)) = true ->
   (String.length (strip (slot_var a)) <= int_max_str_digits)%nat ->
   py_int (strip (slot_var a)) = Ok slot ->
   let f := ("dpc_base_knobs_slot" ++ str_int slot)%string in
   fst (run_events w [ClickCaptureBase; ToggleProcessing] a st) = [Ok tt; Ok tt]
   /\ base_knob_file (fst (snd (run_events w [ClickCaptureBase; ToggleProcessing] a st)))
      = Some f
   /\ processing_enabled
        (fst (snd (run_events w [ClickCaptureBase; ToggleProcessing] a st))) = false
   /\ snd (snd (run_events w [ClickCaptureBase; ToggleProcessing] a st))
      = {| _last_update_time := _last_update_time st;
           clock_reads := clock_reads st;
           device_log :=
             device_log st
             ++ [dlin_command w ["dump"; "-k"; "-f"; f];
                 dlin_command w ["pump"; "-k"; "-f"; f]] |})
  /\ (base_captured a = false ->
      fst (handle w ToggleProcessing a st) = Ok tt
      /\ snd (snd (handle w ToggleProcessing a st)) = st).
Proof.
  intros Hen. split.
  - intros Hd _ Hi. cbn zeta. cbn [run_events handle].
    rewrite (capture_base_valid w a st slot Hd Hi).
    match goal with
    | |- context [on_enable_toggle w ?b ?s] =>
        rewrite (toggle_off w b s)
          by (cbn [processing_enabled set_vars set_base]; now rewrite Hen)
    end.
    cbn [fst snd base_knob_file base_captured set_vars set_base processing_enabled
         _last_update_time clock_reads device_log andb negb String.eqb append].
    change (("dpc_base_knobs_slot" ++ str_int slot)%string =? "")%string with false.
    cbn [negb fst snd base_knob_file set_vars set_base processing_enabled].
    rewrite Hen. cbn [negb]. rewrite <- app_assoc.
    repeat split; reflexivity.
  - intros Hb. cbn [handle].
    match goal with
    | |- context [on_enable_toggle w ?b ?s] =>
        rewrite (toggle_off w b s)
          by (cbn [processing_enabled set_vars]; now rewrite Hen)
    end.
    cbn [fst snd base_knob_file base_captured set_vars]. rewrite Hb.
    destruct (base_knob_file a); split; reflexivity.
Qed.

Lemma capture_then_disable_restores_witness :
  snd (snd (run_events burst_world [ClickCaptureBase; ToggleProcessing]
              initial_app fresh_real_state))
  = {| _last_update_time := _last_update_time fresh_real_state;
       clock_reads := clock_reads fresh_real_state;
       device_log :=
         device_log fresh_real_state
         ++ [dlin_command burst_world
               ["dump"; "-k"; "-f"; ("dpc_base_knobs_slot" ++ str_int 200)%string];
             dlin_command burst_world
               ["pump"; "-k"; "-f"; ("dpc_base_knobs_slot" ++ str_int 200)%string]] |}
  /\ snd (snd (handle burst_world ToggleProcessing initial_app fresh_real_state))
     = fresh_real_state.
Proof.
  destruct (capture_then_disable_restores burst_world initial_app fresh_real_state
              200 eq_refl) as [Hcap Hoff].
  split.
  - apply Hcap; [reflexivity | vm_compute; lia | reflexivity].
  - apply Hoff. reflexivity.
Defined.

(** X17.  For every arithmetic: with two slot fields that read as the
    numbers [src] and [dst], the copy button sends
    [dump -s <src> -f _dpc_temp_copy] and then
    [pump -f _dpc_temp_copy -s <dst>]; the pump is sent whatever the
    outcome of the dump.  When one of the fields fails [isdigit], nothing
    is sent and nothing is raised. *)
Theorem copy_slot_dumps_then_pumps {num : Type} `{PyNum num}
    (w : World num) (a : App num) (st : State num) (src dst : Z) :
  (isdigit (strip (slot_var a)) = true ->
   isdigit (strip (target_slot_var a)) = true ->
   (String.length (strip (slot_var a)) <= int_max_str_digits)%nat ->
   (String.length (strip (target_slot_var a)) <= int_max_str_digits)%nat ->
   py_int (strip (slot_var a)) = Ok src ->
   py_int (strip (target_slot_var a)) = Ok dst ->
   copy_current_to_target_slot w a st
   = (Ok tt,
      (a, {| _last_update_time := _last_update_time st;
             clock_reads := clock_reads st;
             device_log :=
               device_log st
               ++ [dlin_command w ["dump"; "-s"; str_int src; "-f"; "_dpc_temp_copy"];
                   dlin_command w ["pump"; "-f"; "_dpc_temp_copy"; "-s"; str_int dst]]
          |})))
  /\ (isdigit (strip (slot_var a)) = false
      \/ isdigit (strip (target_slot_var a)) = false ->
      copy_current_to_target_slot w a st = (Ok tt, (a, st))).
Proof.
  split.
  - intros Hs Hd _ _ Hsi Hdi. now apply copy_slot_valid.
  - apply copy_slot_invalid.
Qed.

Lemma copy_slot_dumps_then_pumps_witness :
  copy_current_to_target_slot slow_world initial_app fresh_state
  = (Ok tt,
     (initial_app,
      {| _last_update_time := _last_update_time fresh_state;
         clock_reads := clock_reads fresh_state;
         device_log :=
           device_log fresh_state
           ++ [dlin_command slow_world
                 ["dump"; "-s"; str_int 200; "-f"; "_dpc_temp_copy"];
               dlin_command slow_world
                 ["pump"; "-f"; "_dpc_temp_copy"; "-s"; str_int 201]] |}))
  /\ copy_current_to_target_slot slow_world
       (set_vars initial_app "Tenor" true 70%float 50%float "200" "2o1" "dpc_preset")
       fresh_state
     = (Ok tt,
        (set_vars initial_app "Tenor" true 70%float 50%float "200" "2o1" "dpc_preset",
         fresh_state)).
Proof.
  split.
  - apply (copy_slot_dumps_then_pumps slow_world initial_app fresh_state 200 201);
      first [reflexivity | vm_compute; lia].
  - apply (copy_slot_dumps_then_pumps slow_world
             (set_vars initial_app "Tenor" true 70%float 50%float "200" "2o1"
                "dpc_preset") fresh_state 0 0).
    right. reflexivity.
Defined.

(** X18.  For every arithmetic: with a slot field that reads as the number
    [slot], the save button sends one [dump -s <slot> -f <name>], where the
    name is the stripped text of the name field, and [dpc_preset] when that
    text is empty or blank: the name is never empty. *)
Theorem save_names_the_file {num : Type} `{PyNum num}
    (w : World num) (a : App num) (st : State num) (slot : Z) :
  isdigit (strip (slot_var a)) = true ->
  (String.length (strip (slot_var a)) <= int_max_str_digits)%nat ->
  py_int (strip (slot_var a)) = Ok slot ->
  exists name : string,
    save_current_to_dlp w a st
    = (Ok tt,
       (a, {| _last_update_time := _last_update_time st;
              clock_reads := clock_reads st;
              device_log :=
                device_log st
                ++ [dlin_command w ["dump"; "-s"; str_int slot; "-f"; name]] |}))
    /\ name <> ""
    /\ (strip (save_name_var a) = "" -> name = "dpc_preset")
    /\ (strip (save_name_var a) <> "" -> name = strip (save_name_var a)).
Proof.
  intros Hd _ Hi. rewrite (save_dlp_valid w a st slot Hd Hi).
  destruct (strip (save_name_var a)) as [|c s] eqn:E.
  - exists "dpc_preset". cbn [String.eqb].
    repeat split; [discriminate | now intros Hne; contradiction Hne].
  - exists (String c s). cbn [String.eqb].
    repeat split; [discriminate | discriminate].
Qed.

Lemma save_names_the_file_witness :
  exists name : string,
    save_current_to_dlp slow_world
      (set_vars initial_app "Tenor" true 70%float 50%float " 7 " "201" "   ")
      fresh_state
    = (Ok tt,
       (set_vars initial_app "Tenor" true 70%float 50%float " 7 " "201" "   ",
        {| _last_update_time := _last_update_time fresh_state;
           clock_reads := clock_reads fresh_state;
           device_log :=
             device_log fresh_state
             ++ [dlin_command slow_world ["dump"; "-s"; str_int 7; "-f"; name]] |}))
    /\ name <> ""
    /\ (strip (save_name_var
                 (set_vars initial_app "Tenor" true 70%float 50%float " 7 " "201"
                    "   ")) = "" -> name = "dpc_preset")
    /\ (strip (save_name_var
                 (set_vars initial_app "Tenor" true 70%float 50%float " 7 " "201"
                    "   ")) <> "" ->
        name = strip (save_name_var
                        (set_vars initial_app "Tenor" true 70%float 50%float " 7 "
                           "201" "   "))).
Proof.
  apply (save_names_the_file slow_world
           (set_vars initial_app "Tenor" true 70%float 50%float " 7 " "201" "   ")
           fresh_state 7); first [reflexivity | vm_compute; lia].
Defined.

(** X19.  For every arithmetic: a slot field that passes [isdigit] and
    holds a character that is no decimal digit, a superscript two for
    one, makes each of the three preset buttons raise [ValueError] out of
    [int]; nothing is sent and the window is unchanged. *)
Theorem superscript_slot_raises {num : Type} `{PyNum num} `{PyMath num}
    (w : World num) (e : Event) (a : App num) (st : State num) :
  is_preset_click e = true ->
  isdigit (strip (slot_var a)) = true ->
  all_chars is_decimal (strip (slot_var a)) = false ->
  (e = ClickCopy -> isdigit (strip (target_slot_var a)) = true) ->
  handle w e a st = (Raise ValueError, (a, st)).
Proof.
  intros He Hs Hsup Hd. pose proof (py_int_superscript _ Hsup) as Hi.
  destruct e; try discriminate; cbn [handle].
  - unfold capture_base_from_slot. now rewrite Hs, Hi.
  - unfold save_current_to_dlp. now rewrite Hs, Hi.
  - unfold copy_current_to_target_slot. now rewrite Hs, (Hd eq_refl), Hi.
Qed.

Lemma superscript_slot_raises_witness :
  handle burst_world ClickCaptureBase
    (set_vars initial_app "Tenor" true 70%R 50%R (String (ascii_of_nat 178) "")
       "201" "dpc_preset")
    fresh_real_state
  = (Raise ValueError,
     (set_vars initial_app "Tenor" true 70%R 50%R (String (ascii_of_nat 178) "")
        "201" "dpc_preset",
      fresh_real_state)).
Proof.
  apply (superscript_slot_raises burst_world ClickCaptureBase
           (set_vars initial_app "Tenor" true 70%R 50%R (String (ascii_of_nat 178) "")
              "201" "dpc_preset")
           fresh_real_state); first [reflexivity | discriminate].
Defined.

(** X20.  For every arithmetic: when the slot field holds the text
    [str(n)] of a number, with or without blanks around it, the capture
    button reads [n] back for [n >= 0], so that the file of the dump is
    [dpc_base_knobs_slot<n>]; for a negative [n] the field is refused as
    invalid and nothing is sent. *)
Theorem slot_text_is_read_back {num : Type} `{PyNum num}
    (w : World num) (a : App num) (st : State num) (n : Z) (p q : string) :
  slot_var a = (p ++ str_int n ++ q)%string ->
  all_chars isspace p = true -> all_chars isspace q = true ->
  ((0 <= n)%Z ->
   (String.length (str_int n) <= int_max_str_digits)%nat ->
   capture_base_from_slot w a st
   = (Ok tt,
      (set_base a (Some ("dpc_base_knobs_slot" ++ str_int n)%string) true,
       {| _last_update_time := _last_update_time st;
          clock_reads := clock_reads st;
          device_log :=
            device_log st
            ++ [dlin_command w ["dump"; "-k"; "-f";
                                ("dpc_base_knobs_slot" ++ str_int n)%string]] |})))
  /\ ((n < 0)%Z -> capture_base_from_slot w a st = (Ok tt, (a, st))).
Proof.
  intros Hslot Hp Hq. split.
  - intros Hn _. destruct (str_int_decimal n Hn) as (Hne & Hdec & Hint).
    pose proof (strip_padded p (str_int n) q Hp Hq Hdec) as Hstrip.
    apply capture_base_valid; rewrite Hslot, Hstrip;
      [now apply isdigit_decimal | exact Hint].
  - intros Hn. apply capture_base_invalid. rewrite Hslot.
    now apply str_int_negative.
Qed.

Lemma slot_text_is_read_back_witness :
  capture_base_from_slot slow_world
    (set_vars initial_app "Tenor" true 70%float 50%float " 12  " "201" "dpc_preset")
    fresh_state
  = (Ok tt,
     (set_base
        (set_vars initial_app "Tenor" true 70%float 50%float " 12  " "201"
           "dpc_preset")
        (Some ("dpc_base_knobs_slot" ++ str_int 12)%string) true,
      {| _last_update_time := _last_update_time fresh_state;
         clock_reads := clock_reads fresh_state;
         device_log :=
           device_log fresh_state
           ++ [dlin_command slow_world
                 ["dump"; "-k"; "-f";
                  ("dpc_base_knobs_slot" ++ str_int 12)%string]] |}))
  /\ capture_base_from_slot slow_world
       (set_vars initial_app "Tenor" true 70%float 50%float "-3" "201" "dpc_preset")
       fresh_state
     = (Ok tt,
        (set_vars initial_app "Tenor" true 70%float 50%float "-3" "201" "dpc_preset",
         fresh_state)).
Proof.
  split.
  - apply (proj1 (slot_text_is_read_back slow_world
                    (set_vars initial_app "Tenor" true 70%float 50%float " 12  "
                       "201" "dpc_preset")
                    fresh_state 12 " " "  " eq_refl eq_refl eq_refl));
      [lia | vm_compute; lia].
  - apply (proj2 (slot_text_is_read_back slow_world
                    (set_vars initial_app "Tenor" true 70%float 50%float "-3" "201"
                       "dpc_preset")
                    fresh_state (-3) "" "" eq_refl eq_refl eq_refl)).
    lia.
Defined.

(** ** The WAV target *)

(** X21.  For every arithmetic: loading a WAV file raises nothing, sends
    nothing and leaves the point, its coordinates and the processing switch
    as they are.  A cancelled dialog, a file that cannot be read and an
    analysis that raises leave the whole window unchanged; otherwise the
    target is the pair of coordinates of the profile and the red marker the
    circle of radius 6 around it. *)
Theorem load_wav_keeps_device_and_point {num : Type} `{PyNum num} `{PyMath num}
    (path : string) (file : option WavFile) (a : App num) (st : State num) :
  exists a' : App num,
    load_wav_profile path file a st = (Ok tt, (a', st))
    /\ self_x_norm a' = self_x_norm a /\ self_y_norm a' = self_y_norm a
    /\ point a' = point a
    /\ processing_enabled a' = processing_enabled a
    /\ match file with
       | Some f =>
           match analyze_wav_profile (nchannels f) (sampwidth f) (framerate f)
                   (frames_read f) with
           | Ok p =>
               if (path =? "")%string then a' = a
               else wav_target a' = Some (x_norm p, y_norm p)
                    /\ wav_marker a'
                       = Some (oval (fst (coord_from_norm (x_norm p) (y_norm p)))
                                    (snd (coord_from_norm (x_norm p) (y_norm p))) 6)
           | Raise _ => a' = a
           end
       | None => a' = a
       end.
Proof. apply load_wav_effect. Qed.

(** X22.  For every arithmetic: after a WAV file was loaded and analysed,
    the snap button puts the point on the coordinates of the profile: they
    become the coordinates of the window, and the blue point is drawn
    around the place of the red marker. *)
Theorem snap_moves_point_to_target {num : Type} `{PyNum num} `{PyMath num}
    (w : World num) (path : string) (f : WavFile) (p : Profile num)
    (a : App num) (st : State num) :
  path <> "" ->
  analyze_wav_profile (nchannels f) (sampwidth f) (framerate f) (frames_read f)
  = Ok p ->
  let a' := fst (snd (run_events w [ClickLoadWav path (Some f); ClickSnap] a st)) in
  self_x_norm a' = x_norm p /\ self_y_norm a' = y_norm p
  /\ wav_target a' = Some (x_norm p, y_norm p)
  /\ point a'
     = oval (fst (coord_from_norm (x_norm p) (y_norm p)))
            (snd (coord_from_norm (x_norm p) (y_norm p))) point_radius.
Proof.
  intros Hpath Han. cbn zeta. cbn [run_events handle].
  unfold load_wav_profile. destruct path as [|c path]; [now contradiction Hpath|].
  rewrite Han. unfold update_wav_marker. cbn [wav_target set_wav].
  destruct (coord_from_norm (x_norm p) (y_norm p)) as [cx cy] eqn:Ec.
  unfold snap_to_wav_profile. cbn [wav_target set_wav].
  match goal with
  | |- context [apply_current w ?b ?s] =>
      pose proof (apply_current_app w b s) as Hb;
      destruct (apply_current w b s) as [r [a2 s2]]
  end.
  cbn [fst snd] in Hb |- *. subst a2.
  unfold update_point_position.
  cbn [self_x_norm self_y_norm set_xy set_wav]. rewrite Ec.
  cbn [self_x_norm self_y_norm wav_target point set_point set_xy set_wav fst snd].
  repeat split; reflexivity.
Qed.

Lemma silent_file_profile :
  analyze_wav_profile (num := R) (nchannels silent_file) (sampwidth silent_file)
    (framerate silent_file) (frames_read silent_file)
  = Ok {| x_norm := 0%R; y_norm := (4 / 10)%R;
          centroid := 0%R; low_ratio := (5 / 10)%R |}.
Proof.
  unfold silent_file. cbn [nchannels sampwidth framerate frames_read].
  unfold analyze_wav_profile. cbn [decode_samples Z.eqb Pos.eqb map rbind].
  replace (f32 (fdiv (f32 (of_int 0)) (of_int 32768))) with 0%R
    by (cbn; unfold Rdiv; now rewrite Rmult_0_l).
  apply (real_analyze_silence 1 8000 4); [lia | lia | discriminate].
Qed.

Lemma snap_moves_point_to_target_witness :
  self_x_norm
    (fst (snd (run_events burst_world
                 [ClickLoadWav "silence.wav" (Some silent_file); ClickSnap]
                 initial_app fresh_real_state))) = 0%R
  /\ self_y_norm
       (fst (snd (run_events burst_world
                    [ClickLoadWav "silence.wav" (Some silent_file); ClickSnap]
                    initial_app fresh_real_state))) = (4 / 10)%R.
Proof.
  destruct (snap_moves_point_to_target burst_world "silence.wav" silent_file
              {| x_norm := 0%R; y_norm := (4 / 10)%R;
                 centroid := 0%R; low_ratio := (5 / 10)%R |}
              initial_app fresh_real_state ltac:(discriminate) silent_file_profile)
    as (Hx & Hy & _).
  split; [exact Hx | exact Hy].
Defined.
